(** * kubeadm certificate phase: [CreatePKIAssets] and [checkAltNamesExist]

    A shallow embedding of [cmd/kubeadm/app/phases/certs/certs.go].

    - Go slices are lists, [net.IP] is a list of bytes (each a [Z]),
      [sets.String] is a [gset string].
    - The PKI directory is a finite map from paths to file contents.
    - [CreatePKIAssets] runs in a small state-and-error monad over a
      [World]: the files, the lines printed so far and the calls made to
      the [pkiutil] package.  An error aborts the run and keeps the world
      reached so far, as a Go [return fmt.Errorf(...)] does. *)

From Stdlib Require Import ZArith Ascii String List Bool Lia.
From stdpp Require Import gmap strings list fin_maps.

Local Open Scope Z_scope.
Local Open Scope string_scope.
Local Open Scope list_scope.

(** ** Go's [net] package: addresses and networks *)

Module net.

(** [type IP []byte] *)
Definition IP : Type := list Z.

Definition IPv4len : nat := 4.
Definition IPv6len : nat := 16.

Definition v4InV6Prefix : list Z := [0; 0; 0; 0; 0; 0; 0; 0; 0; 0; 255; 255].

Definition bytesEqual (a b : list Z) : bool := bool_decide (a = b).

(** [func (ip IP) Equal(x IP) bool]: equal as addresses; an IPv4 address
    and its 16-byte IPv4-in-IPv6 form are the same address. *)
Definition Equal (ip x : IP) : bool :=
  if bool_decide (length ip = length x) then bytesEqual ip x
  else if bool_decide (length ip = IPv4len) && bool_decide (length x = IPv6len)
  then bytesEqual (take 12 x) v4InV6Prefix && bytesEqual ip (drop 12 x)
  else if bool_decide (length ip = IPv6len) && bool_decide (length x = IPv4len)
  then bytesEqual (take 12 ip) v4InV6Prefix && bytesEqual (drop 12 ip) x
  else false.

(** [type IPNet struct { IP IP; Mask IPMask }] *)
Record IPNet : Type := { ipnet_IP : IP; ipnet_Mask : list Z }.

(** [func (n *IPNet) Contains(ip IP) bool], on an address of the
    network's own length: the masked bytes agree. *)
Definition Contains (n : IPNet) (ip : IP) : bool :=
  bool_decide (length ip = length (ipnet_IP n))
  && bool_decide (zip_with Z.land (ipnet_IP n) (ipnet_Mask n)
                  = zip_with Z.land ip (ipnet_Mask n)).

End net.

(** ** Certificates, keys and their configuration *)

Module x509.

(** [type ExtKeyUsage int], the two values kubeadm uses. *)
Inductive ExtKeyUsage : Type := ExtKeyUsageServerAuth | ExtKeyUsageClientAuth.

(** The fields of [x509.Certificate] this phase reads or sets. *)
Record Certificate : Type := {
  CommonName : string;
  IsCA : bool;
  DNSNames : list string;
  IPAddresses : list net.IP;
  ExtKeyUsages : list ExtKeyUsage
}.

End x509.

Module rsa.

(** [rsa.PrivateKey], reduced to modulus and exponents. *)
Record PrivateKey : Type := { N : Z; E : Z; D : Z }.

End rsa.

Module certutil.

(** [type AltNames struct { DNSNames []string; IPs []net.IP }] *)
Record AltNames : Type := { DNSNames : list string; IPs : list net.IP }.

(** [type Config struct { CommonName string; AltNames AltNames; Usages []x509.ExtKeyUsage }] *)
Record Config : Type := {
  CommonName : string;
  AltNames_ : AltNames;
  Usages : list x509.ExtKeyUsage
}.

End certutil.

(** ** [kubeadmapi.MasterConfiguration], the fields the phase reads *)

Module kubeadmapi.

Record API : Type := {
  AdvertiseAddresses : list string;
  ExternalDNSNames : list string
}.

Record Networking : Type := {
  ServiceSubnet : string;
  DNSDomain : string
}.

Record MasterConfiguration : Type := {
  API_ : API;
  Networking_ : Networking
}.

End kubeadmapi.

(** ** [kubeadmconstants] *)

Module kubeadmconstants.

(** Modelled from the spec: the constants package is not part of the
    sources; section 6 asks for one fixed base name per role, the two
    being distinct. *)
Definition CACertAndKeyBaseName : string := "ca".

(** Modelled from the spec: the base name of the server pair, the other
    of the two fixed names of section 6. *)
Definition APIServerCertAndKeyBaseName : string := "apiserver".

End kubeadmconstants.

Module setutil.

(** [func NewString(items ...string) String] *)
Definition NewString (items : list string) : gset string := list_to_set items.

(** [func (s String) Has(item string) bool] *)
Definition Has (s : gset string) (item : string) : bool := bool_decide (item ∈ s).

End setutil.

(** ** [checkAltNamesExist] *)

(** The first loop: every name of [required] is in [dnsset], leaving with
    [false] at the first one that is not. *)
Fixpoint dnsNamesExist (dnsset : gset string) (required : list string) : bool :=
  match required with
  | [] => true
  | dnsNameThatShouldExist :: rest =>
      if negb (setutil.Has dnsset dnsNameThatShouldExist) then false
      else dnsNamesExist dnsset rest
  end.

(** The inner loop of the second one: the [found] flag. *)
Fixpoint ipFound (IPs : list net.IP) (ipThatShouldExist : net.IP) : bool :=
  match IPs with
  | [] => false
  | ip :: rest =>
      if net.Equal ip ipThatShouldExist then true else ipFound rest ipThatShouldExist
  end.

(** The second loop. *)
Fixpoint ipsExist (IPs : list net.IP) (required : list net.IP) : bool :=
  match required with
  | [] => true
  | ipThatShouldExist :: rest =>
      if negb (ipFound IPs ipThatShouldExist) then false else ipsExist IPs rest
  end.

Definition checkAltNamesExist
    (IPs : list net.IP) (DNSNames : list string) (altNames : certutil.AltNames) : bool :=
  let dnsset := setutil.NewString DNSNames in
  if dnsNamesExist dnsset altNames.(certutil.DNSNames)
  then ipsExist IPs altNames.(certutil.IPs)
  else false.


(** ** Results and errors *)

(** A Go [(value, error)] pair: a value, or the text of the error. *)
Inductive result (A : Type) : Type :=
| Ok (a : A)
| Failed (err : string).
Arguments Ok {A} a.
Arguments Failed {A} err.

(** The errors [CreatePKIAssets] builds with [fmt.Errorf], one constructor
    per format string, carrying the values formatted into it. *)
Inductive error : Type :=
| ErrHostname (err : string)
    (* "couldn't get the hostname: %v" *)
| ErrParseIP (a : string)
    (* "could not parse ip %q" *)
| ErrParseCIDR (subnet err : string)
    (* "error parsing CIDR %q: %v" *)
| ErrAllocateIP (subnet err : string)
    (* "unable to allocate IP address for the API server from the given CIDR (%q) [%v]" *)
| ErrCouldNotLoad
    (* "certificate and/or key existed but they could not be loaded properly" *)
| ErrNotCA
    (* "certificate and key could be loaded but the certificate is not a CA" *)
| ErrGenerateCA (err : string)
    (* "failure while generating CA certificate and key [%v]" *)
| ErrSaveCA (err : string)
    (* "failure while saving CA certificate and key [%v]" *)
| ErrCreateAPIServer (err : string)
    (* "failure while creating API server key and certificate [%v]" *)
| ErrSaveAPIServer (err : string)
    (* "failure while saving API server certificate and key [%v]" *).

(** The lines the phase prints. *)
Inductive Line : Type :=
| UsingExistingCA
    (* "[certificates] Using the existing CA certificate and key." *)
| GeneratedCA
    (* "[certificates] Generated CA certificate and key." *)
| UsingExistingAPIServer
    (* "[certificates] Using the existing API Server certificate and key." *)
| GeneratedAPIServer
    (* "[certificates] Generated API server certificate and key." *)
| ValidCertsExist (pkiDir : string)
    (* "[certificates] Valid certificates and keys now exist in %q\n" *).

(** The outcome a printed line reports (section 3, ProvisioningOutcome). *)
Inductive ProvisioningOutcome : Type := Reused | Generated.

Inductive CredentialRole : Type := CertificateAuthority | ServerLeaf.

Definition outcomeOf (l : Line) : option (CredentialRole * ProvisioningOutcome) :=
  match l with
  | UsingExistingCA => Some (CertificateAuthority, Reused)
  | GeneratedCA => Some (CertificateAuthority, Generated)
  | UsingExistingAPIServer => Some (ServerLeaf, Reused)
  | GeneratedAPIServer => Some (ServerLeaf, Generated)
  | ValidCertsExist _ => None
  end.

(** ** What the phase takes from outside the repository *)

(** The host, Go's standard library, the two generators and the encoding
    of files, each as the function the phase (or the store) calls.
    [FileData] is what a file holds; [unwritable] says which paths refuse
    a write. *)
Class Platform : Type := {
  os_Hostname : result string;
  net_ParseIP : string -> option net.IP;
  net_ParseCIDR : string -> result (net.IP * net.IPNet);
  NewCertificateAuthority_ : result (x509.Certificate * rsa.PrivateKey);
  NewCertAndKey_ :
    x509.Certificate -> rsa.PrivateKey -> certutil.Config ->
    result (x509.Certificate * rsa.PrivateKey);
  FileData : Type;
  ParseCertPEM : FileData -> option x509.Certificate;
  ParsePrivateKeyPEM : FileData -> option rsa.PrivateKey;
  EncodeCertPEM : x509.Certificate -> FileData;
  EncodePrivateKeyPEM : rsa.PrivateKey -> FileData;
  unwritable : string * string -> bool
}.

(** ** The world: files, output, calls *)

(** Calls into [pkiutil], in the order made. *)
Inductive Call : Type :=
| CallCertOrKeyExist (name : string)
| CallTryLoadCertAndKeyFromDisk (name : string)
| CallNewCertificateAuthority
| CallNewCertAndKey (caCert : x509.Certificate) (caKey : rsa.PrivateKey)
                    (config : certutil.Config)
| CallWriteCertAndKey (name : string) (cert : x509.Certificate) (key : rsa.PrivateKey).

(** A file is named by its directory and its name in it. *)
Record World `{P : Platform} : Type := {
  files : gmap (string * string) FileData;
  stdout : list Line;
  calls : list Call
}.

Section WorldUpdates.
Context `{P : Platform}.

Definition println (l : Line) (w : World) : World :=
  {| files := files w; stdout := stdout w ++ [l]; calls := calls w |}.

Definition called (c : Call) (w : World) : World :=
  {| files := files w; stdout := stdout w; calls := calls w ++ [c] |}.

Definition writeFile (path : string * string) (data : FileData) (w : World) : World :=
  {| files := <[path := data]> (files w); stdout := stdout w; calls := calls w |}.

End WorldUpdates.

(** ** [ipallocator.GetIndexedIP] *)

Module ipallocator.

(** The address as a number, most significant byte first. *)
Definition bigForIP (ip : net.IP) : Z :=
  fold_left (fun acc b => acc * 256 + b) ip 0.

(** The number as [len] bytes, most significant first. *)
Fixpoint bytesOfBig (len : nat) (v : Z) : net.IP :=
  match len with
  | O => []
  | S len' => bytesOfBig len' (v / 256) ++ [v mod 256]
  end.

(** Modelled from the spec: the allocator package is not part of the
    sources.  Section 4.1: the address inside the service CIDR at the
    given offset from the block's first address; it fails when that
    address falls outside the block (block too small). *)
Definition GetIndexedIP (subnet : net.IPNet) (index : Z) : result net.IP :=
  let base := net.ipnet_IP subnet in
  let v := bigForIP base + index in
  let ip := bytesOfBig (length base) v in
  if (v <? 256 ^ Z.of_nat (length base))%Z && net.Contains subnet ip
  then Ok ip
  else Failed "can't generate IP with index from subnet: subnet too small".

End ipallocator.

(** ** [pkiutil]: the key-pair store and the generators *)

Module pkiutil.
Section WithPlatform.
Context `{P : Platform}.

(** Modelled from the spec: [pkiutil] is not part of the sources.
    Section 6: two fixed, distinct files per base name, the certificate
    and the key. *)
Definition pathsForCertAndKey (pkiPath name : string)
  : (string * string) * (string * string) :=
  ((pkiPath, name +:+ ".crt"), (pkiPath, name +:+ ".key")).

(** Modelled from the spec: the store's probe, section 6 [Exists]; it
    answers yes when the certificate or the key is there, as the name and
    the caller's comment (certs.go, lines 82-83) say. *)
Definition CertOrKeyExist (pkiPath name : string) (w : World) : bool * World :=
  let '(certificatePath, privateKeyPath) := pathsForCertAndKey pkiPath name in
  (bool_decide (is_Some (files w !! certificatePath))
   || bool_decide (is_Some (files w !! privateKeyPath)),
   called (CallCertOrKeyExist name) w).

(** Modelled from the spec: the store's [Load], section 6 and section
    4.2 step 3; it gives the pair when both files are there and both
    parse, and an error (with nil pointers) otherwise.  It writes nothing. *)
Definition TryLoadCertAndKeyFromDisk (pkiPath name : string) (w : World)
  : (option x509.Certificate * option rsa.PrivateKey * option string) * World :=
  let '(certificatePath, privateKeyPath) := pathsForCertAndKey pkiPath name in
  let w' := called (CallTryLoadCertAndKeyFromDisk name) w in
  match files w !! certificatePath ≫= ParseCertPEM with
  | None => ((None, None, Some "couldn't load the certificate file"), w')
  | Some cert =>
      match files w !! privateKeyPath ≫= ParsePrivateKeyPEM with
      | None => ((None, None, Some "couldn't load the private key file"), w')
      | Some key => ((Some cert, Some key, None), w')
      end
  end.

(** Modelled from the spec: section 6 [GenerateSelfSignedCA]; what it
    returns is the platform's. *)
Definition NewCertificateAuthority (w : World)
  : result (x509.Certificate * rsa.PrivateKey) * World :=
  (NewCertificateAuthority_, called CallNewCertificateAuthority w).

(** Modelled from the spec: section 6 [GenerateSignedLeaf]. *)
Definition NewCertAndKey
    (caCert : x509.Certificate) (caKey : rsa.PrivateKey) (config : certutil.Config)
    (w : World) : result (x509.Certificate * rsa.PrivateKey) * World :=
  (NewCertAndKey_ caCert caKey config, called (CallNewCertAndKey caCert caKey config) w).

(** Modelled from the spec: the store's [Save], section 6 and section
    4.2 step 2: the key is written, then the certificate; a write that is
    refused ends the call with an error and leaves what was written. *)
Definition WriteCertAndKey
    (pkiPath name : string) (cert : x509.Certificate) (key : rsa.PrivateKey)
    (w : World) : option string * World :=
  let '(certificatePath, privateKeyPath) := pathsForCertAndKey pkiPath name in
  let w0 := called (CallWriteCertAndKey name cert key) w in
  if unwritable privateKeyPath
  then (Some "unable to write private key to file", w0)
  else
    let w1 := writeFile privateKeyPath (EncodePrivateKeyPEM key) w0 in
    if unwritable certificatePath
    then (Some "unable to write certificate to file", w1)
    else (None, writeFile certificatePath (EncodeCertPEM cert) w1).

End WithPlatform.
End pkiutil.

(** ** The monad of the phase *)

Section Monad.
Context `{P : Platform}.

Definition M (A : Type) : Type := World -> (error + A) * World.

Definition ret {A : Type} (a : A) : M A := fun w => (inr a, w).

(** [return fmt.Errorf(...)] *)
Definition fail {A : Type} (e : error) : M A := fun w => (inl e, w).

Definition bind {A B : Type} (c : M A) (k : A -> M B) : M B :=
  fun w =>
    match c w with
    | (inl e, w') => (inl e, w')
    | (inr a, w') => k a w'
    end.

(** A call that cannot fail the phase by itself. *)
Definition call {A : Type} (f : World -> A * World) : M A :=
  fun w => let '(a, w') := f w in (inr a, w').

(** A pure step that may fail. *)
Definition lift {A : Type} (r : error + A) : M A := fun w => (r, w).

(** [fmt.Println(...)] *)
Definition print (l : Line) : M unit := fun w => (inr tt, println l w).

End Monad.

Declare Scope pki_scope.
Delimit Scope pki_scope with pki.
Notation "'let*' x ':=' c 'in' k" := (bind c (fun x => k))
  (at level 10, x pattern, c at level 100, k at level 200) : pki_scope.
Notation "c '>>' k" := (bind c (fun _ => k))
  (at level 100, k at level 200, right associativity) : pki_scope.
Local Open Scope pki_scope.

(** ** [CreatePKIAssets] *)

Section WithPlatform.
Context `{P : Platform}.

(** Lines 61-67: the loop over the advertised addresses, appending each
    parsed one to [ips]. *)
Fixpoint parseAdvertiseAddresses (addresses : list string) (ips : list net.IP)
  : error + list net.IP :=
  match addresses with
  | [] => inr ips
  | a :: rest =>
      match net_ParseIP a with
      | Some ip => parseAdvertiseAddresses rest (ips ++ [ip])
      | None => inl (ErrParseIP a)
      end
  end.

(** Lines 44-78: the names and addresses the server certificate is for. *)
Definition assembleAltNames (cfg : kubeadmapi.MasterConfiguration)
  : error + certutil.AltNames :=
  let internalAPIServerFQDN :=
    [ "kubernetes";
      "kubernetes.default";
      "kubernetes.default.svc";
      "kubernetes.default.svc." +:+ cfg.(kubeadmapi.Networking_).(kubeadmapi.DNSDomain) ] in
  match os_Hostname with
  | Failed err => inl (ErrHostname err)
  | Ok hostname =>
      let dnsNames := cfg.(kubeadmapi.API_).(kubeadmapi.ExternalDNSNames) ++ [hostname] in
      let dnsNames := dnsNames ++ internalAPIServerFQDN in
      match parseAdvertiseAddresses cfg.(kubeadmapi.API_).(kubeadmapi.AdvertiseAddresses) [] with
      | inl e => inl e
      | inr ips =>
          let subnet := cfg.(kubeadmapi.Networking_).(kubeadmapi.ServiceSubnet) in
          match net_ParseCIDR subnet with
          | Failed err => inl (ErrParseCIDR subnet err)
          | Ok (_, n) =>
              match ipallocator.GetIndexedIP n 1 with
              | Failed err => inl (ErrAllocateIP subnet err)
              | Ok internalAPIServerVirtualIP =>
                  inr {| certutil.DNSNames := dnsNames;
                         certutil.IPs := ips ++ [internalAPIServerVirtualIP] |}
              end
          end
      end
  end.

(** Lines 80-108: the CA certificate and key, loaded or generated. *)
Definition caCertAndKey (pkiDir : string) : M (x509.Certificate * rsa.PrivateKey) :=
  let* present := call (pkiutil.CertOrKeyExist pkiDir kubeadmconstants.CACertAndKeyBaseName) in
  if present then
    let* loaded :=
      call (pkiutil.TryLoadCertAndKeyFromDisk pkiDir kubeadmconstants.CACertAndKeyBaseName) in
    match loaded with
    | (Some caCert, Some caKey, None) =>
        if negb caCert.(x509.IsCA) then fail ErrNotCA
        else print UsingExistingCA >> ret (caCert, caKey)
    | _ => fail ErrCouldNotLoad
    end
  else
    let* generated := call pkiutil.NewCertificateAuthority in
    match generated with
    | Failed err => fail (ErrGenerateCA err)
    | Ok (caCert, caKey) =>
        let* err :=
          call (pkiutil.WriteCertAndKey pkiDir kubeadmconstants.CACertAndKeyBaseName
                  caCert caKey) in
        match err with
        | Some err => fail (ErrSaveCA err)
        | None => print GeneratedCA >> ret (caCert, caKey)
        end
    end.

(** Lines 110-137: the API server certificate and key, loaded or
    generated from the CA and the names. *)
Definition apiServerCertAndKey
    (pkiDir : string) (caCert : x509.Certificate) (caKey : rsa.PrivateKey)
    (altNames : certutil.AltNames) : M unit :=
  let* present :=
    call (pkiutil.CertOrKeyExist pkiDir kubeadmconstants.APIServerCertAndKeyBaseName) in
  if present then
    let* loaded :=
      call (pkiutil.TryLoadCertAndKeyFromDisk pkiDir
              kubeadmconstants.APIServerCertAndKeyBaseName) in
    match loaded with
    | (Some apiCert, Some apiKey, None) => print UsingExistingAPIServer
    | _ => fail ErrCouldNotLoad
    end
  else
    let config :=
      {| certutil.CommonName := "kube-apiserver";
         certutil.AltNames_ := altNames;
         certutil.Usages := [x509.ExtKeyUsageServerAuth] |} in
    let* generated := call (pkiutil.NewCertAndKey caCert caKey config) in
    match generated with
    | Failed err => fail (ErrCreateAPIServer err)
    | Ok (apiCert, apiKey) =>
        let* err :=
          call (pkiutil.WriteCertAndKey pkiDir kubeadmconstants.APIServerCertAndKeyBaseName
                  apiCert apiKey) in
        match err with
        | Some err => fail (ErrSaveAPIServer err)
        | None => print GeneratedAPIServer
        end
    end.

(** [func CreatePKIAssets(cfg *kubeadmapi.MasterConfiguration, pkiDir string) error];
    [inr tt] is Go's [nil]. *)
Definition CreatePKIAssets (cfg : kubeadmapi.MasterConfiguration) (pkiDir : string)
  : M unit :=
  let* altNames := lift (assembleAltNames cfg) in
  let* ca := caCertAndKey pkiDir in
  apiServerCertAndKey pkiDir (fst ca) (snd ca) altNames >>
  print (ValidCertsExist pkiDir).

End WithPlatform.

(** ** States of the store and what a run reports *)

Section Predicates.
Context `{P : Platform}.

(** Both files of the pair are there and parse to [cert] and [key]. *)
Definition holdsPair (w : World) (pkiDir name : string)
    (cert : x509.Certificate) (key : rsa.PrivateKey) : Prop :=
  ∃ certData keyData,
    files w !! (pkiDir, name +:+ ".crt") = Some certData
    ∧ ParseCertPEM certData = Some cert
    ∧ files w !! (pkiDir, name +:+ ".key") = Some keyData
    ∧ ParsePrivateKeyPEM keyData = Some key.

(** Neither file of the pair is there. *)
Definition absentPair (w : World) (pkiDir name : string) : Prop :=
  files w !! (pkiDir, name +:+ ".crt") = None
  ∧ files w !! (pkiDir, name +:+ ".key") = None.

(** Exactly one of the two files is there. *)
Definition exactlyOneFile (w : World) (pkiDir name : string) : Prop :=
  (is_Some (files w !! (pkiDir, name +:+ ".crt"))
   ∧ files w !! (pkiDir, name +:+ ".key") = None)
  ∨ (files w !! (pkiDir, name +:+ ".crt") = None
     ∧ is_Some (files w !! (pkiDir, name +:+ ".key"))).

(** Both files are there and one of them does not parse. *)
Definition unparsablePair (w : World) (pkiDir name : string) : Prop :=
  ∃ certData keyData,
    files w !! (pkiDir, name +:+ ".crt") = Some certData
    ∧ files w !! (pkiDir, name +:+ ".key") = Some keyData
    ∧ (ParseCertPEM certData = None ∨ ParsePrivateKeyPEM keyData = None).

(** The outcomes the printed lines report, in order. *)
Definition outcomes (lines : list Line) : list (CredentialRole * ProvisioningOutcome) :=
  omap outcomeOf lines.

(** The call is a write to the store. *)
Definition isWrite (c : Call) : bool :=
  match c with CallWriteCertAndKey _ _ _ => true | _ => false end.

(** What the files the store writes must satisfy for a later run to
    load them: encoding then parsing gives the value back, and a
    generated CA certificate has its CA bit set (section 3). *)
Class Reloads : Prop := {
  cert_round_trip : ∀ cert, ParseCertPEM (EncodeCertPEM cert) = Some cert;
  key_round_trip : ∀ key, ParsePrivateKeyPEM (EncodePrivateKeyPEM key) = Some key;
  new_ca_is_ca :
    ∀ cert key, NewCertificateAuthority_ = Ok (cert, key) → cert.(x509.IsCA) = true
}.

(** Every address of the list parses, to the corresponding one of [ips]. *)
Definition allParse (addresses : list string) (ips : list net.IP) : Prop :=
  Forall2 (λ a ip, net_ParseIP a = Some ip) addresses ips.

(** The four names of the API service inside the cluster. *)
Definition internalNames (cfg : kubeadmapi.MasterConfiguration) : list string :=
  [ "kubernetes";
    "kubernetes.default";
    "kubernetes.default.svc";
    "kubernetes.default.svc." +:+ cfg.(kubeadmapi.Networking_).(kubeadmapi.DNSDomain) ].

End Predicates.

(** The coverage verifier on two SAN sets: what the certificate has, what
    is required. *)
Definition Verify (actual required : certutil.AltNames) : bool :=
  checkAltNamesExist actual.(certutil.IPs) actual.(certutil.DNSNames) required.

(** What [checkAltNamesExist] decides. *)
Definition covers (IPs : list net.IP) (DNSNames : list string)
    (altNames : certutil.AltNames) : Prop :=
  (∀ d, d ∈ altNames.(certutil.DNSNames) → d ∈ DNSNames)
  ∧ (∀ wanted, wanted ∈ altNames.(certutil.IPs) →
       ∃ ip, ip ∈ IPs ∧ net.Equal ip wanted = true).

(** ** A concrete platform: IPv4 only, files as decoded blocks *)

Module ipv4.

Fixpoint splitOn (sep : ascii) (s : string) : list string :=
  match s with
  | EmptyString => [EmptyString]
  | String c rest =>
      match splitOn sep rest with
      | [] => []
      | field :: fields =>
          if Ascii.eqb c sep then EmptyString :: field :: fields
          else String c field :: fields
      end
  end.

Definition digit (c : ascii) : option Z :=
  let n := Z.of_N (N_of_ascii c) in
  if (48 <=? n)%Z && (n <=? 57)%Z then Some (n - 48) else None.

Fixpoint decimal (s : string) (acc : Z) : option Z :=
  match s with
  | EmptyString => Some acc
  | String c rest => d ← digit c; decimal rest (acc * 10 + d)
  end.

Definition number (s : string) (max : Z) : option Z :=
  match s with
  | EmptyString => None
  | _ => v ← decimal s 0; if (v <=? max)%Z then Some v else None
  end.

Definition dotted (s : string) : option (list Z) :=
  match splitOn "."%char s with
  | [a; b; c; d] =>
      a ← number a 255; b ← number b 255; c ← number c 255; d ← number d 255;
      Some [a; b; c; d]
  | _ => None
  end.

(** [net.ParseIP] on dotted decimal: the 16-byte form. *)
Definition ParseIP (s : string) : option net.IP :=
  (λ v4, net.v4InV6Prefix ++ v4) <$> dotted s.

Fixpoint maskBytes (len : nat) (ones : Z) : list Z :=
  match len with
  | O => []
  | S len' =>
      (if (8 <=? ones)%Z then 255
       else if (ones <=? 0)%Z then 0
       else 256 - 2 ^ (8 - ones))
      :: maskBytes len' (ones - 8)
  end.

(** [net.ParseCIDR] on [a.b.c.d/n]: the address, and the network with
    the address masked. *)
Definition ParseCIDR (s : string) : result (net.IP * net.IPNet) :=
  match splitOn "/"%char s with
  | [addr; bits] =>
      match dotted addr, number bits 32 with
      | Some ip, Some n =>
          let m := maskBytes 4 n in
          Ok (net.v4InV6Prefix ++ ip,
              {| net.ipnet_IP := zip_with Z.land ip m; net.ipnet_Mask := m |})
      | _, _ => Failed "invalid CIDR address"
      end
  | _ => Failed "invalid CIDR address"
  end.

End ipv4.

Module scenario.

(** What a file holds, decoded. *)
Inductive Block : Type :=
| CertificateBlock (cert : x509.Certificate)
| PrivateKeyBlock (key : rsa.PrivateKey)
| Junk (text : string).

Definition caCert : x509.Certificate :=
  {| x509.CommonName := "kubernetes"; x509.IsCA := true; x509.DNSNames := [];
     x509.IPAddresses := []; x509.ExtKeyUsages := [] |}.

Definition caKey : rsa.PrivateKey := {| rsa.N := 3233; rsa.E := 17; rsa.D := 2753 |}.

Definition leafKey : rsa.PrivateKey := {| rsa.N := 3127; rsa.E := 3; rsa.D := 2011 |}.

Definition signLeaf (config : certutil.Config) : x509.Certificate :=
  {| x509.CommonName := config.(certutil.CommonName);
     x509.IsCA := false;
     x509.DNSNames := config.(certutil.AltNames_).(certutil.DNSNames);
     x509.IPAddresses := config.(certutil.AltNames_).(certutil.IPs);
     x509.ExtKeyUsages := config.(certutil.Usages) |}.

(** A server certificate issued for another name only. *)
Definition staleCert : x509.Certificate :=
  signLeaf {| certutil.CommonName := "kube-apiserver";
              certutil.AltNames_ := {| certutil.DNSNames := ["old.example.org"];
                                       certutil.IPs := [] |};
              certutil.Usages := [x509.ExtKeyUsageServerAuth] |}.

(** A host named master-0 where every write succeeds, but those to the
    paths [refused] lists. *)
Definition platform (refused : list (string * string)) : Platform :=
  {| os_Hostname := Ok "master-0";
     net_ParseIP := ipv4.ParseIP;
     net_ParseCIDR := ipv4.ParseCIDR;
     NewCertificateAuthority_ := Ok (caCert, caKey);
     NewCertAndKey_ := λ _ _ config, Ok (signLeaf config, leafKey);
     FileData := Block;
     ParseCertPEM := λ b, match b with CertificateBlock c => Some c | _ => None end;
     ParsePrivateKeyPEM := λ b, match b with PrivateKeyBlock k => Some k | _ => None end;
     EncodeCertPEM := CertificateBlock;
     EncodePrivateKeyPEM := PrivateKeyBlock;
     unwritable := λ path, bool_decide (path ∈ refused) |}.

(** A host whose name cannot be read. *)
Definition namelessPlatform : Platform :=
  {| os_Hostname := Failed "hostname: not set";
     net_ParseIP := ipv4.ParseIP;
     net_ParseCIDR := ipv4.ParseCIDR;
     NewCertificateAuthority_ := Ok (caCert, caKey);
     NewCertAndKey_ := λ _ _ config, Ok (signLeaf config, leafKey);
     FileData := Block;
     ParseCertPEM := λ b, match b with CertificateBlock c => Some c | _ => None end;
     ParsePrivateKeyPEM := λ b, match b with PrivateKeyBlock k => Some k | _ => None end;
     EncodeCertPEM := CertificateBlock;
     EncodePrivateKeyPEM := PrivateKeyBlock;
     unwritable := λ _, false |}.

(** A host whose generator of server pairs fails, and whose generator
    of CA pairs fails as well unless [caOk]. *)
Definition noEntropy (caOk : bool) : Platform :=
  {| os_Hostname := Ok "master-0";
     net_ParseIP := ipv4.ParseIP;
     net_ParseCIDR := ipv4.ParseCIDR;
     NewCertificateAuthority_ :=
       if caOk then Ok (caCert, caKey) else Failed "rand: no entropy";
     NewCertAndKey_ := λ _ _ _, Failed "rand: no entropy";
     FileData := Block;
     ParseCertPEM := λ b, match b with CertificateBlock c => Some c | _ => None end;
     ParsePrivateKeyPEM := λ b, match b with PrivateKeyBlock k => Some k | _ => None end;
     EncodeCertPEM := CertificateBlock;
     EncodePrivateKeyPEM := PrivateKeyBlock;
     unwritable := λ _, false |}.

Definition config (external addresses : list string) (subnet : string)
  : kubeadmapi.MasterConfiguration :=
  {| kubeadmapi.API_ :=
       {| kubeadmapi.AdvertiseAddresses := addresses;
          kubeadmapi.ExternalDNSNames := external |};
     kubeadmapi.Networking_ :=
       {| kubeadmapi.ServiceSubnet := subnet;
          kubeadmapi.DNSDomain := "cluster.local" |} |}.

(** Section 8, end-to-end scenario. *)
Definition cfg : kubeadmapi.MasterConfiguration :=
  config ["example.com"] ["10.0.0.5"] "10.96.0.0/12".

Definition pkiDir : string := "/etc/kubernetes/pki".

(** The names and addresses of [cfg] on the host master-0. *)
Definition altNames : certutil.AltNames :=
  {| certutil.DNSNames :=
       ["example.com"; "master-0"; "kubernetes"; "kubernetes.default";
        "kubernetes.default.svc"; "kubernetes.default.svc.cluster.local"];
     certutil.IPs := [net.v4InV6Prefix ++ [10; 0; 0; 5]; [10; 96; 0; 1]] |}.

(** The server certificate [signLeaf] issues for them. *)
Definition apiCert : x509.Certificate :=
  signLeaf {| certutil.CommonName := "kube-apiserver";
              certutil.AltNames_ := altNames;
              certutil.Usages := [x509.ExtKeyUsageServerAuth] |}.

Definition store `{P : Platform} (contents : list (string * FileData)) : World :=
  {| files := list_to_map (prod_map (pair pkiDir) id <$> contents);
     stdout := [];
     calls := [] |}.

End scenario.

(** ** The two steps as relations *)

Section StepRelations.
Context `{P : Platform}.

(** What the CA step (lines 80-108) does from [w], case by case: the
    result and the world it leaves. *)
Inductive caStep (pkiDir : string) (w : World)
  : error + x509.Certificate * rsa.PrivateKey → World → Prop :=
| ca_reused caCert caKey :
    holdsPair w pkiDir kubeadmconstants.CACertAndKeyBaseName caCert caKey →
    caCert.(x509.IsCA) = true →
    caStep pkiDir w (inr (caCert, caKey))
      (println UsingExistingCA
         (called (CallTryLoadCertAndKeyFromDisk kubeadmconstants.CACertAndKeyBaseName)
            (called (CallCertOrKeyExist kubeadmconstants.CACertAndKeyBaseName) w)))
| ca_not_ca caCert caKey :
    holdsPair w pkiDir kubeadmconstants.CACertAndKeyBaseName caCert caKey →
    caCert.(x509.IsCA) = false →
    caStep pkiDir w (inl ErrNotCA)
      (called (CallTryLoadCertAndKeyFromDisk kubeadmconstants.CACertAndKeyBaseName)
         (called (CallCertOrKeyExist kubeadmconstants.CACertAndKeyBaseName) w))
| ca_not_loaded :
    exactlyOneFile w pkiDir kubeadmconstants.CACertAndKeyBaseName
    ∨ unparsablePair w pkiDir kubeadmconstants.CACertAndKeyBaseName →
    caStep pkiDir w (inl ErrCouldNotLoad)
      (called (CallTryLoadCertAndKeyFromDisk kubeadmconstants.CACertAndKeyBaseName)
         (called (CallCertOrKeyExist kubeadmconstants.CACertAndKeyBaseName) w))
| ca_generation_failed err :
    absentPair w pkiDir kubeadmconstants.CACertAndKeyBaseName →
    NewCertificateAuthority_ = Failed err →
    caStep pkiDir w (inl (ErrGenerateCA err))
      (called CallNewCertificateAuthority
         (called (CallCertOrKeyExist kubeadmconstants.CACertAndKeyBaseName) w))
| ca_save_failed caCert caKey err w' :
    absentPair w pkiDir kubeadmconstants.CACertAndKeyBaseName →
    NewCertificateAuthority_ = Ok (caCert, caKey) →
    pkiutil.WriteCertAndKey pkiDir kubeadmconstants.CACertAndKeyBaseName caCert caKey
      (called CallNewCertificateAuthority
         (called (CallCertOrKeyExist kubeadmconstants.CACertAndKeyBaseName) w))
    = (Some err, w') →
    caStep pkiDir w (inl (ErrSaveCA err)) w'
| ca_generated caCert caKey :
    absentPair w pkiDir kubeadmconstants.CACertAndKeyBaseName →
    NewCertificateAuthority_ = Ok (caCert, caKey) →
    unwritable (pkiDir, kubeadmconstants.CACertAndKeyBaseName +:+ ".key") = false →
    unwritable (pkiDir, kubeadmconstants.CACertAndKeyBaseName +:+ ".crt") = false →
    caStep pkiDir w (inr (caCert, caKey))
      {| files :=
           <[(pkiDir, kubeadmconstants.CACertAndKeyBaseName +:+ ".crt")
             := EncodeCertPEM caCert]>
             (<[(pkiDir, kubeadmconstants.CACertAndKeyBaseName +:+ ".key")
                := EncodePrivateKeyPEM caKey]> (files w));
         stdout := stdout w ++ [GeneratedCA];
         calls := calls w
                  ++ [CallCertOrKeyExist kubeadmconstants.CACertAndKeyBaseName;
                      CallNewCertificateAuthority;
                      CallWriteCertAndKey kubeadmconstants.CACertAndKeyBaseName
                        caCert caKey] |}.

(** The request line 123-127 builds for the generator. *)
Definition apiServerConfig (altNames : certutil.AltNames) : certutil.Config :=
  {| certutil.CommonName := "kube-apiserver";
     certutil.AltNames_ := altNames;
     certutil.Usages := [x509.ExtKeyUsageServerAuth] |}.

(** What the API server step (lines 110-137) does from [w], case by
    case. *)
Inductive apiStep (pkiDir : string) (caCert : x509.Certificate) (caKey : rsa.PrivateKey)
    (altNames : certutil.AltNames) (w : World) : error + unit → World → Prop :=
| api_reused apiCert apiKey :
    holdsPair w pkiDir kubeadmconstants.APIServerCertAndKeyBaseName apiCert apiKey →
    apiStep pkiDir caCert caKey altNames w (inr tt)
      (println UsingExistingAPIServer
         (called (CallTryLoadCertAndKeyFromDisk kubeadmconstants.APIServerCertAndKeyBaseName)
            (called (CallCertOrKeyExist kubeadmconstants.APIServerCertAndKeyBaseName) w)))
| api_not_loaded :
    exactlyOneFile w pkiDir kubeadmconstants.APIServerCertAndKeyBaseName
    ∨ unparsablePair w pkiDir kubeadmconstants.APIServerCertAndKeyBaseName →
    apiStep pkiDir caCert caKey altNames w (inl ErrCouldNotLoad)
      (called (CallTryLoadCertAndKeyFromDisk kubeadmconstants.APIServerCertAndKeyBaseName)
         (called (CallCertOrKeyExist kubeadmconstants.APIServerCertAndKeyBaseName) w))
| api_generation_failed err :
    absentPair w pkiDir kubeadmconstants.APIServerCertAndKeyBaseName →
    NewCertAndKey_ caCert caKey (apiServerConfig altNames) = Failed err →
    apiStep pkiDir caCert caKey altNames w (inl (ErrCreateAPIServer err))
      (called (CallNewCertAndKey caCert caKey (apiServerConfig altNames))
         (called (CallCertOrKeyExist kubeadmconstants.APIServerCertAndKeyBaseName) w))
| api_save_failed apiCert apiKey err w' :
    absentPair w pkiDir kubeadmconstants.APIServerCertAndKeyBaseName →
    NewCertAndKey_ caCert caKey (apiServerConfig altNames) = Ok (apiCert, apiKey) →
    pkiutil.WriteCertAndKey pkiDir kubeadmconstants.APIServerCertAndKeyBaseName
      apiCert apiKey
      (called (CallNewCertAndKey caCert caKey (apiServerConfig altNames))
         (called (CallCertOrKeyExist kubeadmconstants.APIServerCertAndKeyBaseName) w))
    = (Some err, w') →
    apiStep pkiDir caCert caKey altNames w (inl (ErrSaveAPIServer err)) w'
| api_generated apiCert apiKey :
    absentPair w pkiDir kubeadmconstants.APIServerCertAndKeyBaseName →
    NewCertAndKey_ caCert caKey (apiServerConfig altNames) = Ok (apiCert, apiKey) →
    unwritable (pkiDir, kubeadmconstants.APIServerCertAndKeyBaseName +:+ ".key") = false →
    unwritable (pkiDir, kubeadmconstants.APIServerCertAndKeyBaseName +:+ ".crt") = false →
    apiStep pkiDir caCert caKey altNames w (inr tt)
      {| files :=
           <[(pkiDir, kubeadmconstants.APIServerCertAndKeyBaseName +:+ ".crt")
             := EncodeCertPEM apiCert]>
             (<[(pkiDir, kubeadmconstants.APIServerCertAndKeyBaseName +:+ ".key")
                := EncodePrivateKeyPEM apiKey]> (files w));
         stdout := stdout w ++ [GeneratedAPIServer];
         calls := calls w
                  ++ [CallCertOrKeyExist kubeadmconstants.APIServerCertAndKeyBaseName;
                      CallNewCertAndKey caCert caKey (apiServerConfig altNames);
                      CallWriteCertAndKey kubeadmconstants.APIServerCertAndKeyBaseName
                        apiCert apiKey] |}.

(** The four files of the two pairs. *)
Definition pkiFiles (pkiDir : string) : list (string * string) :=
  [ (pkiDir, kubeadmconstants.CACertAndKeyBaseName +:+ ".crt");
    (pkiDir, kubeadmconstants.CACertAndKeyBaseName +:+ ".key");
    (pkiDir, kubeadmconstants.APIServerCertAndKeyBaseName +:+ ".crt");
    (pkiDir, kubeadmconstants.APIServerCertAndKeyBaseName +:+ ".key") ].

End StepRelations.

(** * Properties *)

(** ** The coverage verifier *)

Lemma bytesEqual_true (a b : list Z) : net.bytesEqual a b = true ↔ a = b.
Proof. unfold net.bytesEqual. apply bool_decide_eq_true. Qed.

Lemma Equal_refl (ip : net.IP) : net.Equal ip ip = true.
Proof.
  unfold net.Equal. rewrite bool_decide_true by reflexivity.
  by apply bytesEqual_true.
Qed.

Lemma Has_NewString (items : list string) (item : string) :
  setutil.Has (setutil.NewString items) item = true ↔ item ∈ items.
Proof.
  unfold setutil.Has, setutil.NewString.
  rewrite bool_decide_eq_true. apply elem_of_list_to_set.
Qed.

Lemma elem_of_NewString (items : list string) (item : string) :
  item ∈ setutil.NewString items ↔ item ∈ items.
Proof. unfold setutil.NewString. apply elem_of_list_to_set. Qed.

Lemma dnsNamesExist_true (dnsset : gset string) (required : list string) :
  dnsNamesExist dnsset required = true ↔ ∀ d, d ∈ required → d ∈ dnsset.
Proof.
  induction required as [|d required IH]; simpl.
  - split; [intros _ d Hd; inversion Hd | done].
  - unfold setutil.Has at 1. destruct (bool_decide_reflect (d ∈ dnsset)) as [Hin|Hout]; simpl.
    + rewrite IH. split.
      * intros Hall d' Hd'. apply elem_of_cons in Hd' as [->|Hd']; auto.
      * intros Hall d' Hd'. apply Hall. by right.
    + split; [done|]. intros Hall. destruct Hout. apply Hall. by left.
Qed.

Lemma ipFound_true (IPs : list net.IP) (wanted : net.IP) :
  ipFound IPs wanted = true ↔ ∃ ip, ip ∈ IPs ∧ net.Equal ip wanted = true.
Proof.
  induction IPs as [|ip IPs IH]; simpl.
  - split; [done|]. intros (ip & Hip & _). inversion Hip.
  - destruct (net.Equal ip wanted) eqn:Heq.
    + split; [|done]. intros _. exists ip. split; [by left | done].
    + rewrite IH. split.
      * intros (ip' & Hin & Hip'). exists ip'. split; [by right | done].
      * intros (ip' & Hin & Hip'). apply elem_of_cons in Hin as [->|Hin].
        -- congruence.
        -- by exists ip'.
Qed.

Lemma ipsExist_true (IPs required : list net.IP) :
  ipsExist IPs required = true
  ↔ ∀ wanted, wanted ∈ required → ∃ ip, ip ∈ IPs ∧ net.Equal ip wanted = true.
Proof.
  induction required as [|wanted required IH]; simpl.
  - split; [intros _ ip Hip; inversion Hip | done].
  - destruct (ipFound IPs wanted) eqn:Hfound; simpl.
    + pose proof (proj1 (ipFound_true _ _) Hfound) as Hex. rewrite IH. split.
      * intros Hall ip Hip. apply elem_of_cons in Hip as [->|Hip]; auto.
      * intros Hall ip Hip. apply Hall. by right.
    + split; [done|]. intros Hall.
      assert (ipFound IPs wanted = true) as Habs; [|congruence].
      apply ipFound_true, Hall. by left.
Qed.

Lemma checkAltNamesExist_true IPs DNSNames altNames :
  checkAltNamesExist IPs DNSNames altNames = true ↔ covers IPs DNSNames altNames.
Proof.
  unfold checkAltNamesExist, covers.
  destruct (dnsNamesExist _ _) eqn:Hdns.
  - rewrite ipsExist_true. pose proof (proj1 (dnsNamesExist_true _ _) Hdns) as Hall.
    clear Hdns. rename Hall into Hdns. split.
    + intros Hips. split; [|done]. intros d Hd.
      apply elem_of_NewString, (Hdns d Hd).
    + by intros [_ Hips].
  - split; [done|]. intros [Hall _].
    assert (dnsNamesExist (setutil.NewString DNSNames) (certutil.DNSNames altNames) = true)
      as Habs; [|congruence].
    apply dnsNamesExist_true. intros d Hd.
    apply elem_of_NewString. auto.
Qed.

Lemma covers_Permutation IPs IPs' DNSNames DNSNames' altNames altNames' :
  IPs ≡ₚ IPs' → DNSNames ≡ₚ DNSNames' →
  altNames.(certutil.DNSNames) ≡ₚ altNames'.(certutil.DNSNames) →
  altNames.(certutil.IPs) ≡ₚ altNames'.(certutil.IPs) →
  covers IPs DNSNames altNames → covers IPs' DNSNames' altNames'.
Proof.
  intros HI HD HaD HaI [Hdns Hips]. split.
  - intros d Hd. rewrite <- HD. apply Hdns. by rewrite HaD.
  - intros wanted Hw. rewrite <- HaI in Hw.
    destruct (Hips wanted Hw) as (ip & Hip & Heq).
    exists ip. split; [by rewrite <- HI | done].
Qed.

(** C6. [checkAltNamesExist IPs DNSNames required] is [true] exactly when
    every required DNS name is among [DNSNames] (the same string) and
    every required address is [net.Equal] to one of [IPs].  So a SAN set
    covers itself, a required name or address that the actual set lacks
    makes the answer [false], and reordering any of the lists changes
    nothing.  The function takes no world and returns none: it reads and
    writes nothing. *)
Theorem checkAltNamesExist_correct :
  (∀ IPs DNSNames altNames,
     checkAltNamesExist IPs DNSNames altNames = true
     ↔ (∀ d, d ∈ altNames.(certutil.DNSNames) → d ∈ DNSNames)
       ∧ (∀ wanted, wanted ∈ altNames.(certutil.IPs) →
            ∃ ip, ip ∈ IPs ∧ net.Equal ip wanted = true))
  ∧ (∀ A, Verify A A = true)
  ∧ (∀ A B,
       (∃ d, d ∈ B.(certutil.DNSNames) ∧ d ∉ A.(certutil.DNSNames))
       ∨ (∃ wanted, wanted ∈ B.(certutil.IPs)
            ∧ ∀ ip, ip ∈ A.(certutil.IPs) → net.Equal ip wanted = false) →
       Verify A B = false)
  ∧ (∀ IPs IPs' DNSNames DNSNames' altNames altNames',
       IPs ≡ₚ IPs' → DNSNames ≡ₚ DNSNames' →
       altNames.(certutil.DNSNames) ≡ₚ altNames'.(certutil.DNSNames) →
       altNames.(certutil.IPs) ≡ₚ altNames'.(certutil.IPs) →
       checkAltNamesExist IPs DNSNames altNames
       = checkAltNamesExist IPs' DNSNames' altNames').
Proof.
  split; [|split; [|split]].
  - intros. apply checkAltNamesExist_true.
  - intros A. apply checkAltNamesExist_true. split; [done|].
    intros wanted Hw. exists wanted. split; [done | apply Equal_refl].
  - intros A B Hmissing. unfold Verify.
    destruct (checkAltNamesExist _ _ B) eqn:Hcheck; [|done].
    apply checkAltNamesExist_true in Hcheck as [Hdns Hips].
    destruct Hmissing as [(d & HdB & HdA) | (wanted & HwB & HwA)].
    + destruct HdA. auto.
    + destruct (Hips wanted HwB) as (ip & Hip & Heq).
      rewrite (HwA ip Hip) in Heq. discriminate.
  - intros IPs IPs' DNSNames DNSNames' altNames altNames' HI HD HaD HaI.
    destruct (checkAltNamesExist IPs' DNSNames' altNames') eqn:Hcheck'.
    + apply checkAltNamesExist_true. apply checkAltNamesExist_true in Hcheck'.
      by eapply covers_Permutation; [symmetry .. | exact Hcheck'].
    + destruct (checkAltNamesExist IPs DNSNames altNames) eqn:Hcheck; [|done].
      rewrite <- Hcheck'. symmetry. apply checkAltNamesExist_true.
      apply checkAltNamesExist_true in Hcheck.
      by eapply covers_Permutation; [| | | | exact Hcheck].
Qed.

(** C6 at concrete sets: an address matches its IPv4-in-IPv6 form, a set
    covers itself, and a missing name is noticed. *)
Lemma checkAltNamesExist_correct_witness :
  let A := {| certutil.DNSNames := ["kubernetes"; "master-0"];
              certutil.IPs := [[10; 96; 0; 1]] |} in
  let B := {| certutil.DNSNames := ["master-0"; "example.com"];
              certutil.IPs := [net.v4InV6Prefix ++ [10; 96; 0; 1]] |} in
  Verify A A = true
  ∧ Verify A B = false
  ∧ checkAltNamesExist [[10; 96; 0; 1]] ["kubernetes"]
      {| certutil.DNSNames := []; certutil.IPs := [net.v4InV6Prefix ++ [10; 96; 0; 1]] |}
    = true.
Proof.
  destruct checkAltNamesExist_correct as (Hiff & Hrefl & Hmissing & _).
  split; [apply Hrefl | split].
  - apply Hmissing. left. exists "example.com". split.
    + simpl. right. left.
    + simpl. intros Hin. repeat (apply elem_of_cons in Hin as [Hin|Hin]; [discriminate|]).
      inversion Hin.
  - apply Hiff. simpl. split.
    + intros d Hd. inversion Hd.
    + intros wanted Hw. apply list_elem_of_singleton in Hw as ->.
      exists [10; 96; 0; 1]. split; [left | reflexivity].
Defined.

(** C10. With nothing required, [checkAltNamesExist] answers [true],
    whatever the actual names and addresses are, and also when there are
    none. *)
Theorem checkAltNamesExist_nothing_required :
  ∀ (IPs : list net.IP) (DNSNames : list string),
    checkAltNamesExist IPs DNSNames {| certutil.DNSNames := []; certutil.IPs := [] |} = true.
Proof. intros IPs DNSNames. unfold checkAltNamesExist. simpl. reflexivity. Qed.

(** ** Assembling the names and addresses *)

Section Assembly.
Context `{P : Platform}.

Lemma parseAdvertiseAddresses_all addresses ips acc :
  allParse addresses ips →
  parseAdvertiseAddresses addresses acc = inr (acc ++ ips).
Proof.
  intros Hall. revert acc.
  induction Hall as [|a ip addresses ips Ha _ IH]; intros acc; simpl.
  - by rewrite app_nil_r.
  - rewrite Ha, IH. by rewrite <- app_assoc.
Qed.

Lemma parseAdvertiseAddresses_first_bad before ips a after acc :
  allParse before ips → net_ParseIP a = None →
  parseAdvertiseAddresses (before ++ a :: after) acc = inl (ErrParseIP a).
Proof.
  intros Hall Hbad. revert acc.
  induction Hall as [|b ip before ips Hb _ IH]; intros acc; simpl.
  - by rewrite Hbad.
  - by rewrite Hb, IH.
Qed.

Lemma parseAdvertiseAddresses_inr addresses acc result :
  parseAdvertiseAddresses addresses acc = inr result →
  ∃ ips, allParse addresses ips ∧ result = acc ++ ips.
Proof.
  revert acc. induction addresses as [|a addresses IH]; intros acc; simpl.
  - intros [= <-]. exists []. split; [constructor | by rewrite app_nil_r].
  - destruct (net_ParseIP a) as [ip|] eqn:Ha; [|done].
    intros Hrest. destruct (IH _ Hrest) as (ips & Hall & ->).
    exists (ip :: ips). split; [by constructor | by rewrite <- app_assoc].
Qed.

Lemma assembleAltNames_value cfg hostname ips first n vip :
  os_Hostname = Ok hostname →
  allParse cfg.(kubeadmapi.API_).(kubeadmapi.AdvertiseAddresses) ips →
  net_ParseCIDR cfg.(kubeadmapi.Networking_).(kubeadmapi.ServiceSubnet) = Ok (first, n) →
  ipallocator.GetIndexedIP n 1 = Ok vip →
  assembleAltNames cfg
  = inr {| certutil.DNSNames :=
             (cfg.(kubeadmapi.API_).(kubeadmapi.ExternalDNSNames) ++ [hostname])
             ++ internalNames cfg;
           certutil.IPs := ips ++ [vip] |}.
Proof.
  intros Hhost Hall Hcidr Hvip. unfold assembleAltNames.
  rewrite Hhost, (parseAdvertiseAddresses_all _ ips []), Hcidr, Hvip by done.
  reflexivity.
Qed.

Lemma assembleAltNames_inr cfg altNames :
  assembleAltNames cfg = inr altNames →
  ∃ hostname ips first n vip,
    os_Hostname = Ok hostname
    ∧ allParse cfg.(kubeadmapi.API_).(kubeadmapi.AdvertiseAddresses) ips
    ∧ net_ParseCIDR cfg.(kubeadmapi.Networking_).(kubeadmapi.ServiceSubnet) = Ok (first, n)
    ∧ ipallocator.GetIndexedIP n 1 = Ok vip
    ∧ altNames
      = {| certutil.DNSNames :=
             (cfg.(kubeadmapi.API_).(kubeadmapi.ExternalDNSNames) ++ [hostname])
             ++ internalNames cfg;
           certutil.IPs := ips ++ [vip] |}.
Proof.
  unfold assembleAltNames.
  destruct os_Hostname as [hostname|] eqn:Hhost; [|done].
  destruct (parseAdvertiseAddresses _ _) as [|parsed] eqn:Hparse; [done|].
  destruct (net_ParseCIDR _) as [[first n]|] eqn:Hcidr; [|done].
  destruct (ipallocator.GetIndexedIP n 1) as [vip|] eqn:Hvip; [|done].
  intros [= <-].
  destruct (parseAdvertiseAddresses_inr _ _ _ Hparse) as (ips & Hall & ->).
  by exists hostname, ips, first, n, vip.
Qed.

Lemma GetIndexedIP_Ok subnet index ip :
  ipallocator.GetIndexedIP subnet index = Ok ip →
  ip = ipallocator.bytesOfBig (length (net.ipnet_IP subnet))
         (ipallocator.bigForIP (net.ipnet_IP subnet) + index)
  ∧ net.Contains subnet ip = true.
Proof.
  unfold ipallocator.GetIndexedIP.
  destruct (_ <? _)%Z; simpl; [|done].
  destruct (net.Contains _ _) eqn:Hin; [|done].
  by intros [= <-].
Qed.

End Assembly.

Lemma CreatePKIAssets_assembly_failed `{P : Platform} cfg pkiDir w e :
  assembleAltNames cfg = inl e → CreatePKIAssets cfg pkiDir w = (inl e, w).
Proof. intros He. unfold CreatePKIAssets, bind, lift. by rewrite He. Qed.

(** C5. When the host name is known, the [M] advertised addresses all
    parse, the service CIDR parses and its address at offset 1 can be
    allocated, the assembled DNS names are the [N] external ones, the
    host name and the four internal names (so at least [N + 4] of them),
    and the addresses are the [M] parsed ones followed by exactly one
    more, the address at offset 1 inside the service CIDR: 10.96.0.1 for
    10.96.0.0/12. *)
Theorem san_completeness `{P : Platform}
    (cfg : kubeadmapi.MasterConfiguration) (hostname : string)
    (ips : list net.IP) (first : net.IP) (n : net.IPNet) (vip : net.IP) :
  os_Hostname = Ok hostname →
  allParse cfg.(kubeadmapi.API_).(kubeadmapi.AdvertiseAddresses) ips →
  net_ParseCIDR cfg.(kubeadmapi.Networking_).(kubeadmapi.ServiceSubnet) = Ok (first, n) →
  ipallocator.GetIndexedIP n 1 = Ok vip →
  ∃ altNames,
    assembleAltNames cfg = inr altNames
    ∧ (length cfg.(kubeadmapi.API_).(kubeadmapi.ExternalDNSNames) + 4
       ≤ length altNames.(certutil.DNSNames))%nat
    ∧ (∀ d, d ∈ cfg.(kubeadmapi.API_).(kubeadmapi.ExternalDNSNames) →
         d ∈ altNames.(certutil.DNSNames))
    ∧ hostname ∈ altNames.(certutil.DNSNames)
    ∧ (∀ d, d ∈ internalNames cfg → d ∈ altNames.(certutil.DNSNames))
    ∧ altNames.(certutil.IPs) = ips ++ [vip]
    ∧ length altNames.(certutil.IPs)
      = S (length cfg.(kubeadmapi.API_).(kubeadmapi.AdvertiseAddresses))
    ∧ vip = ipallocator.bytesOfBig (length (net.ipnet_IP n))
              (ipallocator.bigForIP (net.ipnet_IP n) + 1)
    ∧ net.Contains n vip = true
    ∧ ipallocator.GetIndexedIP
        {| net.ipnet_IP := [10; 96; 0; 0]; net.ipnet_Mask := [255; 240; 0; 0] |} 1
      = Ok [10; 96; 0; 1].
Proof.
  intros Hhost Hall Hcidr Hvip.
  eexists. split; [by eapply assembleAltNames_value|]. simpl.
  destruct (GetIndexedIP_Ok _ _ _ Hvip) as [Hbytes Hin].
  repeat split; try done.
  - rewrite !length_app. simpl. lia.
  - intros d Hd. apply elem_of_app. left. apply elem_of_app. by left.
  - apply elem_of_app. left. apply elem_of_app. right. by left.
  - intros d Hd. apply elem_of_app. by right.
  - rewrite length_app, <- (Forall2_length _ _ _ Hall). simpl. lia.
Qed.

(** C5 in the scenario of section 8: example.com, 10.0.0.5 and
    10.96.0.0/12 on the host master-0. *)
Lemma san_completeness_witness :
  ∃ altNames,
    @assembleAltNames (scenario.platform []) scenario.cfg = inr altNames
    ∧ altNames.(certutil.DNSNames)
      = ["example.com"; "master-0"; "kubernetes"; "kubernetes.default";
         "kubernetes.default.svc"; "kubernetes.default.svc.cluster.local"]
    ∧ altNames.(certutil.IPs) = [net.v4InV6Prefix ++ [10; 0; 0; 5]; [10; 96; 0; 1]].
Proof.
  destruct (@san_completeness (scenario.platform []) scenario.cfg "master-0"
              [net.v4InV6Prefix ++ [10; 0; 0; 5]]
              (net.v4InV6Prefix ++ [10; 96; 0; 0])
              {| net.ipnet_IP := [10; 96; 0; 0]; net.ipnet_Mask := [255; 240; 0; 0] |}
              [10; 96; 0; 1])
    as (altNames & Hrun & _ & _ & _ & _ & Hips & _).
  - reflexivity.
  - repeat constructor.
  - reflexivity.
  - reflexivity.
  - exists altNames. split; [exact Hrun|]. split; [|exact Hips].
    vm_compute in Hrun. by injection Hrun as <-.
Defined.

(** C7. The four checks of the assembly, in their order: an unknown host
    name fails the run first; then the first advertised address that does
    not parse; then a service CIDR that does not parse; then an address
    at offset 1 that cannot be allocated.  Each failure ends the run
    before the store is touched: the world is as it was. *)
Theorem san_assembly_errors `{P : Platform}
    (cfg : kubeadmapi.MasterConfiguration) (pkiDir : string) (w : World) :
  (∀ err,
     os_Hostname = Failed err →
     CreatePKIAssets cfg pkiDir w = (inl (ErrHostname err), w))
  ∧ (∀ hostname before ips a after,
       os_Hostname = Ok hostname →
       cfg.(kubeadmapi.API_).(kubeadmapi.AdvertiseAddresses) = before ++ a :: after →
       allParse before ips →
       net_ParseIP a = None →
       CreatePKIAssets cfg pkiDir w = (inl (ErrParseIP a), w))
  ∧ (∀ hostname ips err,
       os_Hostname = Ok hostname →
       allParse cfg.(kubeadmapi.API_).(kubeadmapi.AdvertiseAddresses) ips →
       net_ParseCIDR cfg.(kubeadmapi.Networking_).(kubeadmapi.ServiceSubnet) = Failed err →
       CreatePKIAssets cfg pkiDir w
       = (inl (ErrParseCIDR cfg.(kubeadmapi.Networking_).(kubeadmapi.ServiceSubnet) err), w))
  ∧ (∀ hostname ips first n err,
       os_Hostname = Ok hostname →
       allParse cfg.(kubeadmapi.API_).(kubeadmapi.AdvertiseAddresses) ips →
       net_ParseCIDR cfg.(kubeadmapi.Networking_).(kubeadmapi.ServiceSubnet)
       = Ok (first, n) →
       ipallocator.GetIndexedIP n 1 = Failed err →
       CreatePKIAssets cfg pkiDir w
       = (inl (ErrAllocateIP cfg.(kubeadmapi.Networking_).(kubeadmapi.ServiceSubnet) err), w)).
Proof.
  repeat split.
  - intros err Hhost. apply CreatePKIAssets_assembly_failed.
    unfold assembleAltNames. by rewrite Hhost.
  - intros hostname before ips a after Hhost Haddrs Hall Hbad.
    apply CreatePKIAssets_assembly_failed. unfold assembleAltNames.
    by rewrite Hhost, Haddrs, (parseAdvertiseAddresses_first_bad _ ips).
  - intros hostname ips err Hhost Hall Hcidr.
    apply CreatePKIAssets_assembly_failed. unfold assembleAltNames.
    by rewrite Hhost, (parseAdvertiseAddresses_all _ ips []), Hcidr.
  - intros hostname ips first n err Hhost Hall Hcidr Hvip.
    apply CreatePKIAssets_assembly_failed. unfold assembleAltNames.
    by rewrite Hhost, (parseAdvertiseAddresses_all _ ips []), Hcidr, Hvip.
Qed.

(** C7 on four runs: every later check would fail as well, and the
    earlier one is the error returned. *)
Lemma san_assembly_errors_witness :
  @CreatePKIAssets scenario.namelessPlatform
     (scenario.config [] ["10.0.0.256"] "10.96.0.0") scenario.pkiDir
     (@scenario.store scenario.namelessPlatform [])
  = (inl (ErrHostname "hostname: not set"), @scenario.store scenario.namelessPlatform [])
  ∧ @CreatePKIAssets (scenario.platform [])
      (scenario.config [] ["10.0.0.5"; "10.0.0.256"; "::"] "10.96.0.0") scenario.pkiDir
      (@scenario.store (scenario.platform []) [])
    = (inl (ErrParseIP "10.0.0.256"), @scenario.store (scenario.platform []) [])
  ∧ @CreatePKIAssets (scenario.platform [])
      (scenario.config [] ["10.0.0.5"] "10.96.0.0") scenario.pkiDir
      (@scenario.store (scenario.platform []) [])
    = (inl (ErrParseCIDR "10.96.0.0" "invalid CIDR address"),
       @scenario.store (scenario.platform []) [])
  ∧ @CreatePKIAssets (scenario.platform [])
      (scenario.config [] ["10.0.0.5"] "10.96.0.0/32") scenario.pkiDir
      (@scenario.store (scenario.platform []) [])
    = (inl (ErrAllocateIP "10.96.0.0/32"
              "can't generate IP with index from subnet: subnet too small"),
       @scenario.store (scenario.platform []) []).
Proof.
  split; [|split; [|split]].
  - apply (@san_assembly_errors scenario.namelessPlatform). reflexivity.
  - eapply (@san_assembly_errors (scenario.platform []))
      with (before := ["10.0.0.5"]) (after := ["::"])
           (ips := [net.v4InV6Prefix ++ [10; 0; 0; 5]]).
    + reflexivity.
    + reflexivity.
    + repeat constructor.
    + reflexivity.
  - eapply (@san_assembly_errors (scenario.platform []))
      with (ips := [net.v4InV6Prefix ++ [10; 0; 0; 5]]).
    + reflexivity.
    + repeat constructor.
    + reflexivity.
  - eapply (@san_assembly_errors (scenario.platform []))
      with (ips := [net.v4InV6Prefix ++ [10; 0; 0; 5]])
           (n := {| net.ipnet_IP := [10; 96; 0; 0];
                    net.ipnet_Mask := [255; 255; 255; 255] |}).
    + reflexivity.
    + repeat constructor.
    + reflexivity.
    + reflexivity.
Defined.

(** ** The store and the two provisioning steps *)

Section Store.
Context `{P : Platform}.

Lemma CertOrKeyExist_some w pkiDir name :
  is_Some (files w !! (pkiDir, name +:+ ".crt"))
  ∨ is_Some (files w !! (pkiDir, name +:+ ".key")) →
  pkiutil.CertOrKeyExist pkiDir name w = (true, called (CallCertOrKeyExist name) w).
Proof.
  intros Hsome. unfold pkiutil.CertOrKeyExist. simpl. f_equal.
  apply orb_true_iff. destruct Hsome as [H|H]; [left|right]; by apply bool_decide_eq_true.
Qed.

Lemma CertOrKeyExist_absent w pkiDir name :
  absentPair w pkiDir name →
  pkiutil.CertOrKeyExist pkiDir name w = (false, called (CallCertOrKeyExist name) w).
Proof.
  intros [Hcrt Hkey]. unfold pkiutil.CertOrKeyExist. simpl. f_equal.
  rewrite Hcrt, Hkey. apply orb_false_iff.
  split; apply bool_decide_eq_false; by intros [? [=]].
Qed.

Lemma CertOrKeyExist_false w pkiDir name w' :
  pkiutil.CertOrKeyExist pkiDir name w = (false, w') →
  absentPair w pkiDir name ∧ w' = called (CallCertOrKeyExist name) w.
Proof.
  unfold pkiutil.CertOrKeyExist. simpl. intros [= Hor <-]. split; [|done].
  apply orb_false_iff in Hor as [Hcrt Hkey].
  apply bool_decide_eq_false in Hcrt, Hkey.
  split; apply eq_None_not_Some; done.
Qed.

Lemma TryLoadCertAndKeyFromDisk_holds w pkiDir name cert key :
  holdsPair w pkiDir name cert key →
  pkiutil.TryLoadCertAndKeyFromDisk pkiDir name w
  = ((Some cert, Some key, None), called (CallTryLoadCertAndKeyFromDisk name) w).
Proof.
  intros (certData & keyData & Hcrt & Hcert & Hkey & Hpriv).
  unfold pkiutil.TryLoadCertAndKeyFromDisk. simpl.
  rewrite Hcrt, Hkey. simpl. by rewrite Hcert, Hpriv.
Qed.

Lemma TryLoadCertAndKeyFromDisk_loaded w pkiDir name cert key err w' :
  pkiutil.TryLoadCertAndKeyFromDisk pkiDir name w = ((Some cert, Some key, err), w') →
  holdsPair w pkiDir name cert key.
Proof.
  unfold pkiutil.TryLoadCertAndKeyFromDisk, holdsPair. simpl.
  destruct (files w !! (pkiDir, name +:+ ".crt")) as [certData|]; simpl; [|done].
  destruct (ParseCertPEM certData) as [c|] eqn:Hcert; [|done].
  destruct (files w !! (pkiDir, name +:+ ".key")) as [keyData|]; simpl; [|done].
  destruct (ParsePrivateKeyPEM keyData) as [k|] eqn:Hpriv; [|done].
  intros [= <- <- _ _]. by exists certData, keyData.
Qed.

Lemma TryLoadCertAndKeyFromDisk_fails w pkiDir name :
  exactlyOneFile w pkiDir name ∨ unparsablePair w pkiDir name →
  ∃ err,
    pkiutil.TryLoadCertAndKeyFromDisk pkiDir name w
    = ((None, None, Some err), called (CallTryLoadCertAndKeyFromDisk name) w).
Proof.
  unfold pkiutil.TryLoadCertAndKeyFromDisk. simpl.
  intros [[[_ Hkey] | [Hcrt _]] | (certData & keyData & Hcrt & Hkey & Hbad)].
  - rewrite Hkey. simpl. destruct (_ ≫= ParseCertPEM); eauto.
  - rewrite Hcrt. simpl. eauto.
  - rewrite Hcrt, Hkey. simpl.
    destruct Hbad as [Hbad|Hbad]; rewrite Hbad; [eauto|].
    destruct (ParseCertPEM certData); eauto.
Qed.

Lemma not_absent_of_loadable w pkiDir name :
  exactlyOneFile w pkiDir name ∨ unparsablePair w pkiDir name →
  is_Some (files w !! (pkiDir, name +:+ ".crt"))
  ∨ is_Some (files w !! (pkiDir, name +:+ ".key")).
Proof.
  intros [[[H _] | [_ H]] | (certData & keyData & Hcrt & _)]; eauto.
Qed.

End Store.

Ltac unfold_monad := unfold bind, call, lift, print, fail, ret in *.

Lemma append_same_head (s a b : string) : s +:+ a = s +:+ b → a = b.
Proof.
  induction s as [|c s IH]; simpl; [done|]. intros [= Heq]. auto.
Qed.

Section Steps.
Context `{P : Platform}.

(** A write to the store changes the two files of the pair at most. *)
Lemma WriteCertAndKey_frame pkiDir name cert key w err w' :
  pkiutil.WriteCertAndKey pkiDir name cert key w = (err, w') →
  ∀ path,
    path ≠ (pkiDir, name +:+ ".crt") → path ≠ (pkiDir, name +:+ ".key") →
    files w' !! path = files w !! path.
Proof.
  unfold pkiutil.WriteCertAndKey. simpl.
  destruct (unwritable (pkiDir, name +:+ ".key")); [by intros [= _ <-]|].
  destruct (unwritable (pkiDir, name +:+ ".crt")); intros [= _ <-] path Hcrt Hkey; simpl.
  - by rewrite lookup_insert_ne.
  - by rewrite !lookup_insert_ne.
Qed.

(** A write that succeeds leaves both encodings in place. *)
Lemma WriteCertAndKey_written pkiDir name cert key w w' :
  pkiutil.WriteCertAndKey pkiDir name cert key w = (None, w') →
  files w' !! (pkiDir, name +:+ ".crt") = Some (EncodeCertPEM cert)
  ∧ files w' !! (pkiDir, name +:+ ".key") = Some (EncodePrivateKeyPEM key).
Proof.
  unfold pkiutil.WriteCertAndKey. simpl.
  destruct (unwritable (pkiDir, name +:+ ".key")); [done|].
  destruct (unwritable (pkiDir, name +:+ ".crt")); [done|].
  intros [= <-]. simpl. split.
  - by rewrite lookup_insert_eq.
  - rewrite lookup_insert_ne, lookup_insert_eq; [done|].
    intros [= Heq]. by apply append_same_head in Heq.
Qed.

Lemma CertOrKeyExist_world pkiDir name w present w' :
  pkiutil.CertOrKeyExist pkiDir name w = (present, w') →
  w' = called (CallCertOrKeyExist name) w.
Proof. unfold pkiutil.CertOrKeyExist. simpl. by intros [= _ <-]. Qed.

Lemma TryLoadCertAndKeyFromDisk_world pkiDir name w loaded w' :
  pkiutil.TryLoadCertAndKeyFromDisk pkiDir name w = (loaded, w') →
  w' = called (CallTryLoadCertAndKeyFromDisk name) w.
Proof.
  unfold pkiutil.TryLoadCertAndKeyFromDisk. simpl.
  destruct (_ ≫= ParseCertPEM); [|by intros [= _ <-]].
  destruct (_ ≫= ParsePrivateKeyPEM); by intros [= _ <-].
Qed.

(** *** The CA step *)

Lemma caCertAndKey_reused pkiDir w caCert caKey :
  holdsPair w pkiDir kubeadmconstants.CACertAndKeyBaseName caCert caKey →
  caCert.(x509.IsCA) = true →
  caCertAndKey pkiDir w
  = (inr (caCert, caKey),
     println UsingExistingCA
       (called (CallTryLoadCertAndKeyFromDisk kubeadmconstants.CACertAndKeyBaseName)
          (called (CallCertOrKeyExist kubeadmconstants.CACertAndKeyBaseName) w))).
Proof.
  intros Hpair Hca. unfold caCertAndKey. unfold_monad.
  rewrite CertOrKeyExist_some
    by (destruct Hpair as (certData & _ & Hcrt & _); left; by exists certData).
  erewrite TryLoadCertAndKeyFromDisk_holds by exact Hpair.
  by rewrite Hca.
Qed.

Lemma caCertAndKey_not_CA pkiDir w caCert caKey :
  holdsPair w pkiDir kubeadmconstants.CACertAndKeyBaseName caCert caKey →
  caCert.(x509.IsCA) = false →
  caCertAndKey pkiDir w
  = (inl ErrNotCA,
     called (CallTryLoadCertAndKeyFromDisk kubeadmconstants.CACertAndKeyBaseName)
       (called (CallCertOrKeyExist kubeadmconstants.CACertAndKeyBaseName) w)).
Proof.
  intros Hpair Hca. unfold caCertAndKey. unfold_monad.
  rewrite CertOrKeyExist_some
    by (destruct Hpair as (certData & _ & Hcrt & _); left; by exists certData).
  erewrite TryLoadCertAndKeyFromDisk_holds by exact Hpair.
  by rewrite Hca.
Qed.

Lemma caCertAndKey_not_loaded pkiDir w :
  exactlyOneFile w pkiDir kubeadmconstants.CACertAndKeyBaseName
  ∨ unparsablePair w pkiDir kubeadmconstants.CACertAndKeyBaseName →
  caCertAndKey pkiDir w
  = (inl ErrCouldNotLoad,
     called (CallTryLoadCertAndKeyFromDisk kubeadmconstants.CACertAndKeyBaseName)
       (called (CallCertOrKeyExist kubeadmconstants.CACertAndKeyBaseName) w)).
Proof.
  intros Hbad. unfold caCertAndKey. unfold_monad.
  rewrite CertOrKeyExist_some by by apply not_absent_of_loadable.
  destruct (TryLoadCertAndKeyFromDisk_fails
              (called (CallCertOrKeyExist kubeadmconstants.CACertAndKeyBaseName) w)
              pkiDir kubeadmconstants.CACertAndKeyBaseName Hbad) as [err ->].
  reflexivity.
Qed.

(** The CA step leaves the files as they were, or found no CA file and
    changed the two CA files at most. *)
Lemma caCertAndKey_frame pkiDir w r w' :
  caCertAndKey pkiDir w = (r, w') →
  files w' = files w
  ∨ (absentPair w pkiDir kubeadmconstants.CACertAndKeyBaseName
     ∧ ∀ path,
         path ≠ (pkiDir, kubeadmconstants.CACertAndKeyBaseName +:+ ".crt") →
         path ≠ (pkiDir, kubeadmconstants.CACertAndKeyBaseName +:+ ".key") →
         files w' !! path = files w !! path).
Proof.
  intros Hrun. unfold caCertAndKey in Hrun. unfold_monad.
  destruct (pkiutil.CertOrKeyExist _ _ w) as [present w0] eqn:Hexist.
  destruct present.
  - left. apply CertOrKeyExist_world in Hexist as ->.
    destruct (pkiutil.TryLoadCertAndKeyFromDisk _ _ _) as [loaded w1] eqn:Hload.
    apply TryLoadCertAndKeyFromDisk_world in Hload as ->.
    destruct loaded as [[[c|] [k|]] [err|]]; try (by injection Hrun as _ <-).
    destruct (negb (x509.IsCA c)); by injection Hrun as _ <-.
  - right. apply CertOrKeyExist_false in Hexist as [Habsent ->]. split; [done|].
    unfold pkiutil.NewCertificateAuthority in Hrun.
    destruct NewCertificateAuthority_ as [[c k]|err]; [|by injection Hrun as _ <-].
    destruct (pkiutil.WriteCertAndKey _ _ _ _ _) as [werr w2] eqn:Hwrite.
    pose proof (WriteCertAndKey_frame _ _ _ _ _ _ _ Hwrite) as Hframe.
    destruct werr; injection Hrun as _ <-; intros path Hcrt Hkey; simpl;
      by rewrite Hframe.
Qed.

(** A CA step that succeeds leaves a pair the next run loads as a CA. *)
Lemma caCertAndKey_success_holds `{!Reloads} pkiDir w caCert caKey w' :
  caCertAndKey pkiDir w = (inr (caCert, caKey), w') →
  holdsPair w' pkiDir kubeadmconstants.CACertAndKeyBaseName caCert caKey
  ∧ caCert.(x509.IsCA) = true.
Proof.
  intros Hrun. unfold caCertAndKey in Hrun. unfold_monad.
  destruct (pkiutil.CertOrKeyExist _ _ w) as [present w0] eqn:Hexist.
  apply CertOrKeyExist_world in Hexist as ->. destruct present.
  - destruct (pkiutil.TryLoadCertAndKeyFromDisk _ _ _) as [loaded w1] eqn:Hload.
    pose proof (TryLoadCertAndKeyFromDisk_world _ _ _ _ _ Hload) as ->.
    destruct loaded as [[[c|] [k|]] [err|]]; try done.
    apply TryLoadCertAndKeyFromDisk_loaded in Hload.
    destruct (x509.IsCA c) eqn:Hca; simpl in Hrun; [|done].
    injection Hrun as <- <- <-. split; [exact Hload | done].
  - unfold pkiutil.NewCertificateAuthority in Hrun.
    destruct NewCertificateAuthority_ as [[c k]|err] eqn:Hnew; [|done].
    destruct (pkiutil.WriteCertAndKey _ _ _ _ _) as [werr w2] eqn:Hwrite.
    destruct werr; [done|]. injection Hrun as <- <- <-.
    apply WriteCertAndKey_written in Hwrite as [Hcrt Hkey]. split.
    + exists (EncodeCertPEM c), (EncodePrivateKeyPEM k). simpl.
      by rewrite cert_round_trip, key_round_trip.
    + by eapply new_ca_is_ca.
Qed.

(** *** The API server step *)

Lemma apiServerCertAndKey_reused pkiDir caCert caKey altNames w apiCert apiKey :
  holdsPair w pkiDir kubeadmconstants.APIServerCertAndKeyBaseName apiCert apiKey →
  apiServerCertAndKey pkiDir caCert caKey altNames w
  = (inr tt,
     println UsingExistingAPIServer
       (called (CallTryLoadCertAndKeyFromDisk kubeadmconstants.APIServerCertAndKeyBaseName)
          (called (CallCertOrKeyExist kubeadmconstants.APIServerCertAndKeyBaseName) w))).
Proof.
  intros Hpair. unfold apiServerCertAndKey. unfold_monad.
  rewrite CertOrKeyExist_some
    by (destruct Hpair as (certData & _ & Hcrt & _); left; by exists certData).
  by erewrite TryLoadCertAndKeyFromDisk_holds by exact Hpair.
Qed.

Lemma apiServerCertAndKey_not_loaded pkiDir caCert caKey altNames w :
  exactlyOneFile w pkiDir kubeadmconstants.APIServerCertAndKeyBaseName
  ∨ unparsablePair w pkiDir kubeadmconstants.APIServerCertAndKeyBaseName →
  apiServerCertAndKey pkiDir caCert caKey altNames w
  = (inl ErrCouldNotLoad,
     called (CallTryLoadCertAndKeyFromDisk kubeadmconstants.APIServerCertAndKeyBaseName)
       (called (CallCertOrKeyExist kubeadmconstants.APIServerCertAndKeyBaseName) w)).
Proof.
  intros Hbad. unfold apiServerCertAndKey. unfold_monad.
  rewrite CertOrKeyExist_some by by apply not_absent_of_loadable.
  destruct (TryLoadCertAndKeyFromDisk_fails
              (called (CallCertOrKeyExist kubeadmconstants.APIServerCertAndKeyBaseName) w)
              pkiDir kubeadmconstants.APIServerCertAndKeyBaseName Hbad) as [err ->].
  reflexivity.
Qed.

(** With no API server file in the store, the step asks for a
    certificate for exactly [altNames], signed by the CA it was given. *)
Lemma apiServerCertAndKey_generates pkiDir caCert caKey altNames w :
  absentPair w pkiDir kubeadmconstants.APIServerCertAndKeyBaseName →
  CallNewCertAndKey caCert caKey
    {| certutil.CommonName := "kube-apiserver";
       certutil.AltNames_ := altNames;
       certutil.Usages := [x509.ExtKeyUsageServerAuth] |}
  ∈ calls (snd (apiServerCertAndKey pkiDir caCert caKey altNames w)).
Proof.
  intros Habsent. unfold apiServerCertAndKey. unfold_monad.
  rewrite CertOrKeyExist_absent by done.
  unfold pkiutil.NewCertAndKey.
  destruct (NewCertAndKey_ _ _ _) as [[apiCert apiKey]|err]; simpl.
  - unfold pkiutil.WriteCertAndKey. simpl.
    repeat (destruct (unwritable _); simpl); set_solver.
  - set_solver.
Qed.

(** The API server step leaves the files as they were, or found no API
    server file and changed the two API server files at most. *)
Lemma apiServerCertAndKey_frame pkiDir caCert caKey altNames w r w' :
  apiServerCertAndKey pkiDir caCert caKey altNames w = (r, w') →
  files w' = files w
  ∨ (absentPair w pkiDir kubeadmconstants.APIServerCertAndKeyBaseName
     ∧ ∀ path,
         path ≠ (pkiDir, kubeadmconstants.APIServerCertAndKeyBaseName +:+ ".crt") →
         path ≠ (pkiDir, kubeadmconstants.APIServerCertAndKeyBaseName +:+ ".key") →
         files w' !! path = files w !! path).
Proof.
  intros Hrun. unfold apiServerCertAndKey in Hrun. unfold_monad.
  destruct (pkiutil.CertOrKeyExist _ _ w) as [present w0] eqn:Hexist.
  destruct present.
  - left. apply CertOrKeyExist_world in Hexist as ->.
    destruct (pkiutil.TryLoadCertAndKeyFromDisk _ _ _) as [loaded w1] eqn:Hload.
    apply TryLoadCertAndKeyFromDisk_world in Hload as ->.
    destruct loaded as [[[c|] [k|]] [err|]]; by injection Hrun as _ <-.
  - right. apply CertOrKeyExist_false in Hexist as [Habsent ->]. split; [done|].
    unfold pkiutil.NewCertAndKey in Hrun.
    destruct (NewCertAndKey_ _ _ _) as [[c k]|err]; [|by injection Hrun as _ <-].
    destruct (pkiutil.WriteCertAndKey _ _ _ _ _) as [werr w2] eqn:Hwrite.
    pose proof (WriteCertAndKey_frame _ _ _ _ _ _ _ Hwrite) as Hframe.
    destruct werr; injection Hrun as _ <-; intros path Hcrt Hkey; simpl;
      by rewrite Hframe.
Qed.

(** An API server step that succeeds leaves a pair the next run loads. *)
Lemma apiServerCertAndKey_success_holds `{!Reloads} pkiDir caCert caKey altNames w w' :
  apiServerCertAndKey pkiDir caCert caKey altNames w = (inr tt, w') →
  ∃ apiCert apiKey,
    holdsPair w' pkiDir kubeadmconstants.APIServerCertAndKeyBaseName apiCert apiKey.
Proof.
  intros Hrun. unfold apiServerCertAndKey in Hrun. unfold_monad.
  destruct (pkiutil.CertOrKeyExist _ _ w) as [present w0] eqn:Hexist.
  apply CertOrKeyExist_world in Hexist as ->. destruct present.
  - destruct (pkiutil.TryLoadCertAndKeyFromDisk _ _ _) as [loaded w1] eqn:Hload.
    pose proof (TryLoadCertAndKeyFromDisk_world _ _ _ _ _ Hload) as ->.
    destruct loaded as [[[c|] [k|]] [err|]]; try done.
    apply TryLoadCertAndKeyFromDisk_loaded in Hload.
    injection Hrun as <-. by exists c, k.
  - unfold pkiutil.NewCertAndKey in Hrun.
    destruct (NewCertAndKey_ _ _ _) as [[c k]|err]; [|done].
    destruct (pkiutil.WriteCertAndKey _ _ _ _ _) as [werr w2] eqn:Hwrite.
    destruct werr; [done|]. injection Hrun as <-.
    apply WriteCertAndKey_written in Hwrite as [Hcrt Hkey].
    exists c, k, (EncodeCertPEM c), (EncodePrivateKeyPEM k). simpl.
    by rewrite cert_round_trip, key_round_trip.
Qed.

End Steps.

(** ** The whole run *)

Section Run.
Context `{P : Platform}.

Lemma CreatePKIAssets_ca_failed cfg pkiDir w altNames e w1 :
  assembleAltNames cfg = inr altNames →
  caCertAndKey pkiDir w = (inl e, w1) →
  CreatePKIAssets cfg pkiDir w = (inl e, w1).
Proof.
  intros Halt Hca. unfold CreatePKIAssets. unfold_monad. by rewrite Halt, Hca.
Qed.

Lemma CreatePKIAssets_steps cfg pkiDir w altNames caCert caKey w1 :
  assembleAltNames cfg = inr altNames →
  caCertAndKey pkiDir w = (inr (caCert, caKey), w1) →
  CreatePKIAssets cfg pkiDir w
  = match apiServerCertAndKey pkiDir caCert caKey altNames w1 with
    | (inl e, w2) => (inl e, w2)
    | (inr _, w2) => (inr tt, println (ValidCertsExist pkiDir) w2)
    end.
Proof.
  intros Halt Hca. unfold CreatePKIAssets. unfold_monad. rewrite Halt, Hca. simpl.
  by destruct (apiServerCertAndKey _ _ _ _ _) as [[e|[]] w2].
Qed.

(** The two API server files are not CA files: the CA step leaves them. *)
Lemma caCertAndKey_api_files pkiDir w r w1 :
  caCertAndKey pkiDir w = (r, w1) →
  files w1 !! (pkiDir, kubeadmconstants.APIServerCertAndKeyBaseName +:+ ".crt")
  = files w !! (pkiDir, kubeadmconstants.APIServerCertAndKeyBaseName +:+ ".crt")
  ∧ files w1 !! (pkiDir, kubeadmconstants.APIServerCertAndKeyBaseName +:+ ".key")
    = files w !! (pkiDir, kubeadmconstants.APIServerCertAndKeyBaseName +:+ ".key").
Proof.
  intros Hca. destruct (caCertAndKey_frame _ _ _ _ Hca) as [-> | [_ Hframe]]; [done|].
  split; by apply Hframe.
Qed.

(** The two CA files are not API server files: the API server step
    leaves them. *)
Lemma apiServerCertAndKey_ca_files pkiDir caCert caKey altNames w r w' :
  apiServerCertAndKey pkiDir caCert caKey altNames w = (r, w') →
  files w' !! (pkiDir, kubeadmconstants.CACertAndKeyBaseName +:+ ".crt")
  = files w !! (pkiDir, kubeadmconstants.CACertAndKeyBaseName +:+ ".crt")
  ∧ files w' !! (pkiDir, kubeadmconstants.CACertAndKeyBaseName +:+ ".key")
    = files w !! (pkiDir, kubeadmconstants.CACertAndKeyBaseName +:+ ".key").
Proof.
  intros Hapi.
  destruct (apiServerCertAndKey_frame _ _ _ _ _ _ _ Hapi) as [-> | [_ Hframe]]; [done|].
  split; by apply Hframe.
Qed.

(** A step that changes a pair's files only when both were missing keeps
    every file that was there. *)
Lemma frame_keeps_files (w w' : World) pkiDir name :
  files w' = files w
  ∨ (absentPair w pkiDir name
     ∧ ∀ path,
         path ≠ (pkiDir, name +:+ ".crt") → path ≠ (pkiDir, name +:+ ".key") →
         files w' !! path = files w !! path) →
  ∀ path data, files w !! path = Some data → files w' !! path = Some data.
Proof.
  intros [-> | [[Hcrt Hkey] Hframe]] path data Hthere; [done|].
  rewrite Hframe; [done | |]; intros ->; congruence.
Qed.

(** Whatever the run returns, every file of the store is still there,
    with what it held. *)
Lemma CreatePKIAssets_keeps_files cfg pkiDir w r w' :
  CreatePKIAssets cfg pkiDir w = (r, w') →
  ∀ path data, files w !! path = Some data → files w' !! path = Some data.
Proof.
  intros Hrun path data Hthere.
  destruct (assembleAltNames cfg) as [e|altNames] eqn:Halt.
  { rewrite (CreatePKIAssets_assembly_failed _ _ _ _ Halt) in Hrun.
    by injection Hrun as _ <-. }
  destruct (caCertAndKey pkiDir w) as [[e|[caCert caKey]] w1] eqn:Hca.
  { rewrite (CreatePKIAssets_ca_failed _ _ _ _ _ _ Halt Hca) in Hrun.
    injection Hrun as _ <-.
    apply (frame_keeps_files _ _ _ _ (caCertAndKey_frame _ _ _ _ Hca)), Hthere. }
  rewrite (CreatePKIAssets_steps _ _ _ _ _ _ _ Halt Hca) in Hrun.
  destruct (apiServerCertAndKey _ _ _ _ _) as [r2 w2] eqn:Hapi.
  assert (files w2 !! path = Some data) as Hkept.
  { apply (frame_keeps_files _ _ _ _ (apiServerCertAndKey_frame _ _ _ _ _ _ _ Hapi)).
    apply (frame_keeps_files _ _ _ _ (caCertAndKey_frame _ _ _ _ Hca)), Hthere. }
  destruct r2 as [e|[]]; by injection Hrun as _ <-.
Qed.

End Run.

(** ** Failure, reuse and the store *)

(** C8. When the run returns an error, every file that was in the store
    when it started is still there and holds what it held: nothing is
    deleted, nothing is overwritten.  (Files the run wrote before it
    failed stay as well: there is no rollback.) *)
Theorem failure_destroys_nothing `{P : Platform}
    (cfg : kubeadmapi.MasterConfiguration) (pkiDir : string) (w w' : World) (e : error) :
  CreatePKIAssets cfg pkiDir w = (inl e, w') →
  ∀ path data, files w !! path = Some data → files w' !! path = Some data.
Proof. apply CreatePKIAssets_keeps_files. Qed.

(** C8 on a run whose last write is refused: the run fails, the file of
    the operator is kept, and so are the three files written before the
    failure. *)
Lemma failure_destroys_nothing_witness :
  let P := scenario.platform [(scenario.pkiDir, "apiserver.crt")] in
  let w := @scenario.store P [("notes.txt", scenario.Junk "keep me")] in
  let run := @CreatePKIAssets P scenario.cfg scenario.pkiDir w in
  fst run = inl (ErrSaveAPIServer "unable to write certificate to file")
  ∧ @files P (snd run) !! (scenario.pkiDir, "notes.txt") = Some (scenario.Junk "keep me")
  ∧ @files P (snd run) !! (scenario.pkiDir, "ca.crt")
    = Some (scenario.CertificateBlock scenario.caCert)
  ∧ @files P (snd run) !! (scenario.pkiDir, "ca.key")
    = Some (scenario.PrivateKeyBlock scenario.caKey)
  ∧ @files P (snd run) !! (scenario.pkiDir, "apiserver.key")
    = Some (scenario.PrivateKeyBlock scenario.leafKey)
  ∧ @files P (snd run) !! (scenario.pkiDir, "apiserver.crt") = None.
Proof.
  cbv zeta.
  set (P := scenario.platform [(scenario.pkiDir, "apiserver.crt")]).
  set (w := @scenario.store P [("notes.txt", scenario.Junk "keep me")]).
  assert (fst (@CreatePKIAssets P scenario.cfg scenario.pkiDir w)
          = inl (ErrSaveAPIServer "unable to write certificate to file")) as Hfailed
    by (vm_compute; reflexivity).
  split; [exact Hfailed|]. split.
  - apply (@failure_destroys_nothing P scenario.cfg scenario.pkiDir w
             (snd (@CreatePKIAssets P scenario.cfg scenario.pkiDir w))
             (ErrSaveAPIServer "unable to write certificate to file")).
    + rewrite <- Hfailed. apply surjective_pairing.
    + vm_compute. reflexivity.
  - repeat split; vm_compute; reflexivity.
Defined.

Lemma from_fst {A B : Type} (x : A * B) (a : A) : fst x = a → x = (a, snd x).
Proof. intros <-. apply surjective_pairing. Qed.

Section Reuse.
Context `{P : Platform}.

Lemma world_eq (w : World) fs out cs :
  files w = fs → stdout w = out → calls w = cs →
  w = {| files := fs; stdout := out; calls := cs |}.
Proof. destruct w. simpl. by intros -> -> ->. Qed.

Lemma holdsPair_files (w w' : World) pkiDir name cert key :
  files w' !! (pkiDir, name +:+ ".crt") = files w !! (pkiDir, name +:+ ".crt") →
  files w' !! (pkiDir, name +:+ ".key") = files w !! (pkiDir, name +:+ ".key") →
  holdsPair w pkiDir name cert key → holdsPair w' pkiDir name cert key.
Proof.
  intros Hcrt Hkey (certData & keyData & H1 & H2 & H3 & H4).
  exists certData, keyData. by rewrite Hcrt, Hkey.
Qed.

(** With both pairs valid in the store, the run loads them and writes
    nothing. *)
Lemma CreatePKIAssets_reuses cfg pkiDir w altNames caCert caKey apiCert apiKey :
  assembleAltNames cfg = inr altNames →
  holdsPair w pkiDir kubeadmconstants.CACertAndKeyBaseName caCert caKey →
  caCert.(x509.IsCA) = true →
  holdsPair w pkiDir kubeadmconstants.APIServerCertAndKeyBaseName apiCert apiKey →
  CreatePKIAssets cfg pkiDir w
  = (inr tt,
     {| files := files w;
        stdout := stdout w
                  ++ [UsingExistingCA; UsingExistingAPIServer; ValidCertsExist pkiDir];
        calls := calls w
                 ++ [CallCertOrKeyExist kubeadmconstants.CACertAndKeyBaseName;
                     CallTryLoadCertAndKeyFromDisk kubeadmconstants.CACertAndKeyBaseName;
                     CallCertOrKeyExist kubeadmconstants.APIServerCertAndKeyBaseName;
                     CallTryLoadCertAndKeyFromDisk
                       kubeadmconstants.APIServerCertAndKeyBaseName] |}).
Proof.
  intros Halt Hca HisCA Hapi.
  rewrite (CreatePKIAssets_steps _ _ _ _ _ _ _ Halt (caCertAndKey_reused _ _ _ _ Hca HisCA)).
  erewrite apiServerCertAndKey_reused by exact Hapi.
  f_equal. apply world_eq; simpl; [done | by rewrite <- !app_assoc ..].
Qed.

Lemma CreatePKIAssets_success_inv cfg pkiDir w w' :
  CreatePKIAssets cfg pkiDir w = (inr tt, w') →
  ∃ altNames caCert caKey w1 w2,
    assembleAltNames cfg = inr altNames
    ∧ caCertAndKey pkiDir w = (inr (caCert, caKey), w1)
    ∧ apiServerCertAndKey pkiDir caCert caKey altNames w1 = (inr tt, w2)
    ∧ w' = println (ValidCertsExist pkiDir) w2.
Proof.
  intros Hrun.
  destruct (assembleAltNames cfg) as [e|altNames] eqn:Halt.
  { by rewrite (CreatePKIAssets_assembly_failed _ _ _ _ Halt) in Hrun. }
  destruct (caCertAndKey pkiDir w) as [[e|[caCert caKey]] w1] eqn:Hca.
  { by rewrite (CreatePKIAssets_ca_failed _ _ _ _ _ _ Halt Hca) in Hrun. }
  rewrite (CreatePKIAssets_steps _ _ _ _ _ _ _ Halt Hca) in Hrun.
  destruct (apiServerCertAndKey _ _ _ _ _) as [[e|[]] w2] eqn:Hapi; [done|].
  injection Hrun as <-. by exists altNames, caCert, caKey, w1, w2.
Qed.

(** After a run that succeeded, both pairs are valid in the store. *)
Lemma CreatePKIAssets_success_holds `{!Reloads} cfg pkiDir w w' :
  CreatePKIAssets cfg pkiDir w = (inr tt, w') →
  ∃ altNames caCert caKey apiCert apiKey,
    assembleAltNames cfg = inr altNames
    ∧ holdsPair w' pkiDir kubeadmconstants.CACertAndKeyBaseName caCert caKey
    ∧ caCert.(x509.IsCA) = true
    ∧ holdsPair w' pkiDir kubeadmconstants.APIServerCertAndKeyBaseName apiCert apiKey.
Proof.
  intros Hrun.
  destruct (CreatePKIAssets_success_inv _ _ _ _ Hrun)
    as (altNames & caCert & caKey & w1 & w2 & Halt & Hca & Hapi & ->).
  destruct (caCertAndKey_success_holds _ _ _ _ _ Hca) as [Hpair HisCA].
  destruct (apiServerCertAndKey_success_holds _ _ _ _ _ _ Hapi) as (apiCert & apiKey & Hleaf).
  destruct (apiServerCertAndKey_ca_files _ _ _ _ _ _ _ Hapi) as [Hcrt Hkey].
  exists altNames, caCert, caKey, apiCert, apiKey.
  split; [done|]. split; [|split; [done|]].
  - by apply (holdsPair_files w1).
  - exact Hleaf.
Qed.

End Reuse.

(** C1. If the store holds a valid CA pair (both files there, both parse,
    CA bit set) and a valid server pair, the run returns [nil], makes no
    call that writes, leaves the files as they are and prints the two
    lines that report a reused pair.  So a run right after a run that
    succeeded changes no file, when what the store writes loads again. *)
Theorem provisioning_idempotent `{P : Platform}
    (cfg : kubeadmapi.MasterConfiguration) (pkiDir : string) (altNames : certutil.AltNames) :
  assembleAltNames cfg = inr altNames →
  let reused (w : World) : World :=
    {| files := files w;
       stdout := stdout w
                 ++ [UsingExistingCA; UsingExistingAPIServer; ValidCertsExist pkiDir];
       calls := calls w
                ++ [CallCertOrKeyExist kubeadmconstants.CACertAndKeyBaseName;
                    CallTryLoadCertAndKeyFromDisk kubeadmconstants.CACertAndKeyBaseName;
                    CallCertOrKeyExist kubeadmconstants.APIServerCertAndKeyBaseName;
                    CallTryLoadCertAndKeyFromDisk
                      kubeadmconstants.APIServerCertAndKeyBaseName] |} in
  (∀ w caCert caKey apiCert apiKey,
     holdsPair w pkiDir kubeadmconstants.CACertAndKeyBaseName caCert caKey →
     caCert.(x509.IsCA) = true →
     holdsPair w pkiDir kubeadmconstants.APIServerCertAndKeyBaseName apiCert apiKey →
     CreatePKIAssets cfg pkiDir w = (inr tt, reused w))
  ∧ (∀ w, files (reused w) = files w
          ∧ outcomes (stdout (reused w))
            = outcomes (stdout w) ++ [(CertificateAuthority, Reused); (ServerLeaf, Reused)]
          ∧ filter (λ c, isWrite c = true) (calls (reused w))
            = filter (λ c, isWrite c = true) (calls w))
  ∧ (Reloads →
     ∀ w w1,
       CreatePKIAssets cfg pkiDir w = (inr tt, w1) →
       CreatePKIAssets cfg pkiDir w1 = (inr tt, reused w1)).
Proof.
  intros Halt reused. split; [|split].
  - intros w caCert caKey apiCert apiKey Hca HisCA Hapi.
    by eapply CreatePKIAssets_reuses.
  - intros w. split; [done|]. split.
    + unfold outcomes. simpl. by rewrite omap_app.
    + simpl. rewrite filter_app. simpl. by rewrite app_nil_r.
  - intros Hreloads w w1 Hrun.
    destruct (CreatePKIAssets_success_holds _ _ _ _ Hrun)
      as (altNames' & caCert & caKey & apiCert & apiKey & _ & Hca & HisCA & Hapi).
    by eapply CreatePKIAssets_reuses.
Qed.

Lemma scenario_platform_reloads refused : @Reloads (scenario.platform refused).
Proof.
  split.
  - done.
  - done.
  - simpl. by intros cert key [= <- _].
Qed.

(** C1 in the scenario of section 8, from the empty store: the first run
    generates both pairs, the second reuses both and leaves the files as
    the first run left them. *)
Lemma provisioning_idempotent_witness :
  let P := scenario.platform [] in
  let first := @CreatePKIAssets P scenario.cfg scenario.pkiDir (@scenario.store P []) in
  let second := @CreatePKIAssets P scenario.cfg scenario.pkiDir (snd first) in
  fst first = inr tt
  ∧ outcomes (@stdout P (snd first))
    = [(CertificateAuthority, Generated); (ServerLeaf, Generated)]
  ∧ fst second = inr tt
  ∧ @files P (snd second) = @files P (snd first)
  ∧ outcomes (@stdout P (snd second))
    = [(CertificateAuthority, Generated); (ServerLeaf, Generated);
       (CertificateAuthority, Reused); (ServerLeaf, Reused)]
  ∧ filter (λ c, isWrite c = true) (@calls P (snd second))
    = filter (λ c, isWrite c = true) (@calls P (snd first)).
Proof.
  cbv zeta.
  set (P := scenario.platform []).
  set (first := @CreatePKIAssets P scenario.cfg scenario.pkiDir (@scenario.store P [])).
  assert (fst first = inr tt) as Hfirst by (vm_compute; reflexivity).
  assert (outcomes (@stdout P (snd first))
          = [(CertificateAuthority, Generated); (ServerLeaf, Generated)]) as Hout
    by (vm_compute; reflexivity).
  assert (first = (inr tt, snd first)) as Hrun
    by (rewrite <- Hfirst; apply surjective_pairing).
  destruct (@provisioning_idempotent P scenario.cfg scenario.pkiDir _ eq_refl)
    as (_ & Hfacts & Hsecond).
  rewrite (Hsecond (scenario_platform_reloads []) _ _ Hrun).
  destruct (Hfacts (snd first)) as (Hfiles & Houtcomes & Hwrites).
  split; [done|]. split; [done|]. split; [done|]. split; [exact Hfiles|].
  split; [|exact Hwrites].
  etransitivity; [exact Houtcomes|]. by rewrite Hout.
Defined.

(** C3. If both CA files are there and load, but the certificate's CA bit
    is unset, the run fails with the not-a-CA error after the probe and
    the load: no pair is generated, nothing is written, no file changes. *)
Theorem ca_validity_gate `{P : Platform}
    (cfg : kubeadmapi.MasterConfiguration) (pkiDir : string) (w : World)
    (altNames : certutil.AltNames) (caCert : x509.Certificate) (caKey : rsa.PrivateKey) :
  assembleAltNames cfg = inr altNames →
  holdsPair w pkiDir kubeadmconstants.CACertAndKeyBaseName caCert caKey →
  caCert.(x509.IsCA) = false →
  CreatePKIAssets cfg pkiDir w
  = (inl ErrNotCA,
     {| files := files w;
        stdout := stdout w;
        calls := calls w
                 ++ [CallCertOrKeyExist kubeadmconstants.CACertAndKeyBaseName;
                     CallTryLoadCertAndKeyFromDisk kubeadmconstants.CACertAndKeyBaseName] |}).
Proof.
  intros Halt Hca HnotCA.
  rewrite (CreatePKIAssets_ca_failed _ _ _ _ _ _ Halt (caCertAndKey_not_CA _ _ _ _ Hca HnotCA)).
  f_equal. apply world_eq; simpl; [done | done | by rewrite <- app_assoc].
Qed.

(** C3 on a store whose ca.crt holds a leaf certificate. *)
Lemma ca_validity_gate_witness :
  let P := scenario.platform [] in
  let leaf := scenario.signLeaf
                {| certutil.CommonName := "not-a-ca";
                   certutil.AltNames_ := {| certutil.DNSNames := []; certutil.IPs := [] |};
                   certutil.Usages := [] |} in
  let w := @scenario.store P [("ca.crt", scenario.CertificateBlock leaf);
                              ("ca.key", scenario.PrivateKeyBlock scenario.caKey)] in
  @CreatePKIAssets P scenario.cfg scenario.pkiDir w
  = (inl ErrNotCA,
     {| files := @files P w;
        stdout := [];
        calls := [CallCertOrKeyExist "ca"; CallTryLoadCertAndKeyFromDisk "ca"] |}).
Proof.
  cbv zeta.
  eapply (@ca_validity_gate (scenario.platform []) scenario.cfg scenario.pkiDir).
  - reflexivity.
  - eexists _, _. repeat split; vm_compute; reflexivity.
  - reflexivity.
Defined.

(** C2. If both server files are there and load, a run that gets past the
    assembly and the CA step reuses the loaded pair as it is: whatever
    [checkAltNamesExist] answers for the stored certificate against the
    names just assembled, [false] included, the run returns [nil] after
    the probe and the load of the server pair, and writes nothing. *)
Theorem server_reuse_ignores_coverage `{P : Platform}
    (cfg : kubeadmapi.MasterConfiguration) (pkiDir : string) (w w1 : World)
    (altNames : certutil.AltNames) (caCert : x509.Certificate) (caKey : rsa.PrivateKey)
    (apiCert : x509.Certificate) (apiKey : rsa.PrivateKey) (covered : bool) :
  assembleAltNames cfg = inr altNames →
  caCertAndKey pkiDir w = (inr (caCert, caKey), w1) →
  holdsPair w pkiDir kubeadmconstants.APIServerCertAndKeyBaseName apiCert apiKey →
  checkAltNamesExist apiCert.(x509.IPAddresses) apiCert.(x509.DNSNames) altNames = covered →
  CreatePKIAssets cfg pkiDir w
  = (inr tt,
     {| files := files w1;
        stdout := stdout w1 ++ [UsingExistingAPIServer; ValidCertsExist pkiDir];
        calls := calls w1
                 ++ [CallCertOrKeyExist kubeadmconstants.APIServerCertAndKeyBaseName;
                     CallTryLoadCertAndKeyFromDisk
                       kubeadmconstants.APIServerCertAndKeyBaseName] |}).
Proof.
  intros Halt Hca Hapi _.
  rewrite (CreatePKIAssets_steps _ _ _ _ _ _ _ Halt Hca).
  destruct (caCertAndKey_api_files _ _ _ _ Hca) as [Hcrt Hkey].
  erewrite apiServerCertAndKey_reused by exact (holdsPair_files w w1 _ _ _ _ Hcrt Hkey Hapi).
  f_equal. apply world_eq; simpl; [done | by rewrite <- !app_assoc ..].
Qed.

(** C2 in the scenario of section 8, on a store whose server certificate
    names only old.example.org: it covers none of the required names, and
    the run succeeds all the same. *)
Lemma server_reuse_ignores_coverage_witness :
  let P := scenario.platform [] in
  let w := @scenario.store P
             [("ca.crt", scenario.CertificateBlock scenario.caCert);
              ("ca.key", scenario.PrivateKeyBlock scenario.caKey);
              ("apiserver.crt", scenario.CertificateBlock scenario.staleCert);
              ("apiserver.key", scenario.PrivateKeyBlock scenario.leafKey)] in
  (∃ altNames,
     @assembleAltNames P scenario.cfg = inr altNames
     ∧ checkAltNamesExist scenario.staleCert.(x509.IPAddresses)
         scenario.staleCert.(x509.DNSNames) altNames = false)
  ∧ @CreatePKIAssets P scenario.cfg scenario.pkiDir w
    = (inr tt,
       {| files := @files P w;
          stdout := [UsingExistingCA; UsingExistingAPIServer;
                     ValidCertsExist scenario.pkiDir];
          calls := [CallCertOrKeyExist "ca"; CallTryLoadCertAndKeyFromDisk "ca";
                    CallCertOrKeyExist "apiserver";
                    CallTryLoadCertAndKeyFromDisk "apiserver"] |}).
Proof.
  cbv zeta. split.
  - eexists. split; [reflexivity | vm_compute; reflexivity].
  - set (P := scenario.platform []).
    set (w := @scenario.store P _).
    rewrite (@server_reuse_ignores_coverage P scenario.cfg scenario.pkiDir
               w (println UsingExistingCA
                    (called (CallTryLoadCertAndKeyFromDisk "ca")
                       (called (CallCertOrKeyExist "ca") w))) _
               scenario.caCert scenario.caKey scenario.staleCert scenario.leafKey
               false eq_refl).
    + reflexivity.
    + apply caCertAndKey_reused; [|reflexivity].
      exists (scenario.CertificateBlock scenario.caCert),
             (scenario.PrivateKeyBlock scenario.caKey).
      repeat split; vm_compute; reflexivity.
    + exists (scenario.CertificateBlock scenario.staleCert),
             (scenario.PrivateKeyBlock scenario.leafKey).
      repeat split; vm_compute; reflexivity.
    + vm_compute. reflexivity.
Defined.

Section Transport.
Context `{P : Platform}.

Lemma not_loadable_files (w w' : World) pkiDir name :
  files w' !! (pkiDir, name +:+ ".crt") = files w !! (pkiDir, name +:+ ".crt") →
  files w' !! (pkiDir, name +:+ ".key") = files w !! (pkiDir, name +:+ ".key") →
  exactlyOneFile w pkiDir name ∨ unparsablePair w pkiDir name →
  exactlyOneFile w' pkiDir name ∨ unparsablePair w' pkiDir name.
Proof.
  unfold exactlyOneFile, unparsablePair. intros Hcrt Hkey Hbad.
  by rewrite Hcrt, Hkey.
Qed.

Lemma absentPair_files (w w' : World) pkiDir name :
  files w' !! (pkiDir, name +:+ ".crt") = files w !! (pkiDir, name +:+ ".crt") →
  files w' !! (pkiDir, name +:+ ".key") = files w !! (pkiDir, name +:+ ".key") →
  absentPair w pkiDir name → absentPair w' pkiDir name.
Proof. unfold absentPair. intros Hcrt Hkey Habsent. by rewrite Hcrt, Hkey. Qed.

End Transport.

(** C4, as the code has it.  When exactly one of a pair's two files is
    there, the run fails with the could-not-be-loaded error, the one it
    also returns for a pair that is there and does not parse; it stops
    after the probe and the load of that pair, and no file of the store is
    changed or removed.  For the CA pair this is the whole run; for the
    server pair it is what follows a CA step that succeeded, which kept
    every file that was there. *)
Theorem incomplete_pair_fails_like_corrupt `{P : Platform}
    (cfg : kubeadmapi.MasterConfiguration) (pkiDir : string) (w : World)
    (altNames : certutil.AltNames) :
  assembleAltNames cfg = inr altNames →
  (exactlyOneFile w pkiDir kubeadmconstants.CACertAndKeyBaseName
   ∨ unparsablePair w pkiDir kubeadmconstants.CACertAndKeyBaseName →
   CreatePKIAssets cfg pkiDir w
   = (inl ErrCouldNotLoad,
      {| files := files w;
         stdout := stdout w;
         calls := calls w
                  ++ [CallCertOrKeyExist kubeadmconstants.CACertAndKeyBaseName;
                      CallTryLoadCertAndKeyFromDisk
                        kubeadmconstants.CACertAndKeyBaseName] |}))
  ∧ (∀ caCert caKey w1,
       caCertAndKey pkiDir w = (inr (caCert, caKey), w1) →
       exactlyOneFile w pkiDir kubeadmconstants.APIServerCertAndKeyBaseName
       ∨ unparsablePair w pkiDir kubeadmconstants.APIServerCertAndKeyBaseName →
       CreatePKIAssets cfg pkiDir w
       = (inl ErrCouldNotLoad,
          {| files := files w1;
             stdout := stdout w1;
             calls := calls w1
                      ++ [CallCertOrKeyExist kubeadmconstants.APIServerCertAndKeyBaseName;
                          CallTryLoadCertAndKeyFromDisk
                            kubeadmconstants.APIServerCertAndKeyBaseName] |})
       ∧ ∀ path data, files w !! path = Some data → files w1 !! path = Some data).
Proof.
  intros Halt. split.
  - intros Hbad.
    rewrite (CreatePKIAssets_ca_failed _ _ _ _ _ _ Halt (caCertAndKey_not_loaded _ _ Hbad)).
    f_equal. apply world_eq; simpl; [done | done | by rewrite <- app_assoc].
  - intros caCert caKey w1 Hca Hbad. split.
    + rewrite (CreatePKIAssets_steps _ _ _ _ _ _ _ Halt Hca).
      destruct (caCertAndKey_api_files _ _ _ _ Hca) as [Hcrt Hkey].
      rewrite apiServerCertAndKey_not_loaded
        by exact (not_loadable_files w w1 _ _ Hcrt Hkey Hbad).
      f_equal. apply world_eq; simpl; [done | done | by rewrite <- app_assoc].
    + apply (frame_keeps_files _ _ _ _ (caCertAndKey_frame _ _ _ _ Hca)).
Qed.

(** C4 on two stores, one with a lone key and one with a certificate
    that does not parse, for each role. *)
Lemma incomplete_pair_fails_like_corrupt_witness :
  let P := scenario.platform [] in
  let loneKey := @scenario.store P [("ca.key", scenario.PrivateKeyBlock scenario.caKey)] in
  let loneCert := @scenario.store P
                    [("apiserver.crt", scenario.CertificateBlock scenario.staleCert)] in
  fst (@CreatePKIAssets P scenario.cfg scenario.pkiDir loneKey) = inl ErrCouldNotLoad
  ∧ @files P (snd (@CreatePKIAssets P scenario.cfg scenario.pkiDir loneKey))
    = @files P loneKey
  ∧ fst (@CreatePKIAssets P scenario.cfg scenario.pkiDir loneCert) = inl ErrCouldNotLoad
  ∧ @files P (snd (@CreatePKIAssets P scenario.cfg scenario.pkiDir loneCert))
      !! (scenario.pkiDir, "apiserver.crt")
    = Some (scenario.CertificateBlock scenario.staleCert).
Proof.
  cbv zeta.
  set (P := scenario.platform []).
  set (loneKey := @scenario.store P [("ca.key", scenario.PrivateKeyBlock scenario.caKey)]).
  set (loneCert := @scenario.store P
                     [("apiserver.crt", scenario.CertificateBlock scenario.staleCert)]).
  destruct (@incomplete_pair_fails_like_corrupt P scenario.cfg scenario.pkiDir
              loneKey _ eq_refl) as [Hca _].
  destruct (@incomplete_pair_fails_like_corrupt P scenario.cfg scenario.pkiDir
              loneCert _ eq_refl) as [_ Hapi].
  rewrite Hca.
  2:{ left. right. split; [vm_compute; reflexivity|].
      exists (scenario.PrivateKeyBlock scenario.caKey). vm_compute. reflexivity. }
  destruct (Hapi scenario.caCert scenario.caKey
              (snd (@caCertAndKey P scenario.pkiDir loneCert))) as [-> _].
  { apply from_fst. vm_compute. reflexivity. }
  { left. left. split; [|vm_compute; reflexivity].
    exists (scenario.CertificateBlock scenario.staleCert). vm_compute. reflexivity. }
  repeat split.
Defined.

(** C4 as stated does not hold: a store with a lone CA key and a store
    whose CA certificate does not parse make the run fail with one and
    the same error. *)
Lemma incomplete_pair_error_is_not_distinct :
  let P := scenario.platform [] in
  let loneKey := @scenario.store P [("ca.key", scenario.PrivateKeyBlock scenario.caKey)] in
  let corrupt := @scenario.store P [("ca.crt", scenario.Junk "-----BEGIN");
                                    ("ca.key", scenario.PrivateKeyBlock scenario.caKey)] in
  @exactlyOneFile P loneKey scenario.pkiDir "ca"
  ∧ @unparsablePair P corrupt scenario.pkiDir "ca"
  ∧ fst (@CreatePKIAssets P scenario.cfg scenario.pkiDir loneKey)
    = fst (@CreatePKIAssets P scenario.cfg scenario.pkiDir corrupt)
  ∧ fst (@CreatePKIAssets P scenario.cfg scenario.pkiDir corrupt) = inl ErrCouldNotLoad.
Proof.
  cbv zeta. split; [|split; [|split]].
  - right. split; [vm_compute; reflexivity|]. eexists. vm_compute. reflexivity.
  - eexists _, _. split; [vm_compute; reflexivity|].
    split; [vm_compute; reflexivity|]. left. reflexivity.
  - vm_compute. reflexivity.
  - vm_compute. reflexivity.
Qed.

(** C9, as the code has it.  Nothing is collapsed: when the run reaches
    the generation of the server certificate (the assembly and the CA
    step succeeded, no server file is in the store), the names handed to
    the generator are the external names, the host name and the four
    internal names, in this order and as often as they were given, and
    the addresses are the parsed advertised addresses in their order
    followed by the address at offset 1 of the service CIDR. *)
Theorem san_lists_keep_duplicates `{P : Platform}
    (cfg : kubeadmapi.MasterConfiguration) (pkiDir : string) (w w1 : World)
    (altNames : certutil.AltNames) (caCert : x509.Certificate) (caKey : rsa.PrivateKey) :
  assembleAltNames cfg = inr altNames →
  caCertAndKey pkiDir w = (inr (caCert, caKey), w1) →
  absentPair w pkiDir kubeadmconstants.APIServerCertAndKeyBaseName →
  ∃ hostname ips first n vip,
    os_Hostname = Ok hostname
    ∧ allParse cfg.(kubeadmapi.API_).(kubeadmapi.AdvertiseAddresses) ips
    ∧ net_ParseCIDR cfg.(kubeadmapi.Networking_).(kubeadmapi.ServiceSubnet) = Ok (first, n)
    ∧ ipallocator.GetIndexedIP n 1 = Ok vip
    ∧ altNames
      = {| certutil.DNSNames :=
             (cfg.(kubeadmapi.API_).(kubeadmapi.ExternalDNSNames) ++ [hostname])
             ++ internalNames cfg;
           certutil.IPs := ips ++ [vip] |}
    ∧ CallNewCertAndKey caCert caKey
        {| certutil.CommonName := "kube-apiserver";
           certutil.AltNames_ := altNames;
           certutil.Usages := [x509.ExtKeyUsageServerAuth] |}
      ∈ calls (snd (CreatePKIAssets cfg pkiDir w))
    ∧ length altNames.(certutil.DNSNames)
      = (length cfg.(kubeadmapi.API_).(kubeadmapi.ExternalDNSNames) + 5)%nat
    ∧ length altNames.(certutil.IPs)
      = (length cfg.(kubeadmapi.API_).(kubeadmapi.AdvertiseAddresses) + 1)%nat.
Proof.
  intros Halt Hca Habsent.
  destruct (assembleAltNames_inr _ _ Halt)
    as (hostname & ips & first & n & vip & Hhost & Hall & Hcidr & Hvip & Hvalue).
  exists hostname, ips, first, n, vip.
  do 5 (split; [done|]). split; [|split].
  - rewrite (CreatePKIAssets_steps _ _ _ _ _ _ _ Halt Hca).
    destruct (caCertAndKey_api_files _ _ _ _ Hca) as [Hcrt Hkey].
    pose proof (apiServerCertAndKey_generates pkiDir caCert caKey altNames w1
                  (absentPair_files w w1 _ _ Hcrt Hkey Habsent)) as Hcalled.
    by destruct (apiServerCertAndKey _ _ _ _ _) as [[e|[]] w2].
  - rewrite Hvalue. simpl. rewrite !length_app. simpl. lia.
  - rewrite Hvalue. simpl. rewrite length_app, <- (Forall2_length _ _ _ Hall). simpl. lia.
Qed.

(** C9 in the scenario of section 8 with example.com and 10.0.0.5 given
    twice: both are handed to the generator twice. *)
Lemma san_lists_keep_duplicates_witness :
  let P := scenario.platform [] in
  let cfg := scenario.config ["example.com"; "example.com"] ["10.0.0.5"; "10.0.0.5"]
               "10.96.0.0/12" in
  CallNewCertAndKey scenario.caCert scenario.caKey
    {| certutil.CommonName := "kube-apiserver";
       certutil.AltNames_ :=
         {| certutil.DNSNames :=
              ["example.com"; "example.com"; "master-0"; "kubernetes";
               "kubernetes.default"; "kubernetes.default.svc";
               "kubernetes.default.svc.cluster.local"];
            certutil.IPs :=
              [net.v4InV6Prefix ++ [10; 0; 0; 5]; net.v4InV6Prefix ++ [10; 0; 0; 5];
               [10; 96; 0; 1]] |};
       certutil.Usages := [x509.ExtKeyUsageServerAuth] |}
  ∈ @calls P (snd (@CreatePKIAssets P cfg scenario.pkiDir (@scenario.store P []))).
Proof.
  cbv zeta.
  set (P := scenario.platform []).
  set (cfg := scenario.config _ _ _).
  destruct (@san_lists_keep_duplicates P cfg scenario.pkiDir (@scenario.store P [])
              (snd (@caCertAndKey P scenario.pkiDir (@scenario.store P [])))
              _ scenario.caCert scenario.caKey eq_refl)
    as (hostname & ips & first & n & vip & _ & _ & _ & _ & _ & Hcalled & _).
  - apply from_fst. vm_compute. reflexivity.
  - split; vm_compute; reflexivity.
  - exact Hcalled.
Defined.

(** C9 as stated does not hold: with kubernetes and example.com among
    the external names and 10.0.0.5 advertised twice, the names and the
    addresses handed to the generator both repeat an entry. *)
Lemma duplicates_are_not_collapsed :
  let P := scenario.platform [] in
  let cfg := scenario.config ["kubernetes"; "example.com"; "example.com"]
               ["10.0.0.5"; "10.0.0.5"] "10.96.0.0/12" in
  let run := @CreatePKIAssets P cfg scenario.pkiDir (@scenario.store P []) in
  fst run = inr tt
  ∧ ∃ caCert caKey config,
      CallNewCertAndKey caCert caKey config ∈ @calls P (snd run)
      ∧ ¬ NoDup config.(certutil.AltNames_).(certutil.DNSNames)
      ∧ ¬ NoDup config.(certutil.AltNames_).(certutil.IPs).
Proof.
  cbv zeta. split; [vm_compute; reflexivity|].
  eexists _, _, _. split.
  - apply (list_elem_of_lookup_2 _ 4%nat). vm_compute. reflexivity.
  - split; intros Hnodup; apply NoDup_cons in Hnodup as [Hfresh _]; apply Hfresh.
    + do 3 right. left.
    + left.
Qed.

(** ** Generation *)

Section Generation.
Context `{P : Platform}.

Lemma WriteCertAndKey_done pkiDir name cert key w :
  unwritable (pkiDir, name +:+ ".key") = false →
  unwritable (pkiDir, name +:+ ".crt") = false →
  pkiutil.WriteCertAndKey pkiDir name cert key w
  = (None,
     writeFile (pkiDir, name +:+ ".crt") (EncodeCertPEM cert)
       (writeFile (pkiDir, name +:+ ".key") (EncodePrivateKeyPEM key)
          (called (CallWriteCertAndKey name cert key) w))).
Proof.
  intros Hkey Hcrt. unfold pkiutil.WriteCertAndKey. simpl. by rewrite Hkey, Hcrt.
Qed.

Lemma caCertAndKey_generated pkiDir w caCert caKey :
  absentPair w pkiDir kubeadmconstants.CACertAndKeyBaseName →
  NewCertificateAuthority_ = Ok (caCert, caKey) →
  unwritable (pkiDir, kubeadmconstants.CACertAndKeyBaseName +:+ ".key") = false →
  unwritable (pkiDir, kubeadmconstants.CACertAndKeyBaseName +:+ ".crt") = false →
  caCertAndKey pkiDir w
  = (inr (caCert, caKey),
     {| files :=
          <[(pkiDir, kubeadmconstants.CACertAndKeyBaseName +:+ ".crt")
            := EncodeCertPEM caCert]>
            (<[(pkiDir, kubeadmconstants.CACertAndKeyBaseName +:+ ".key")
               := EncodePrivateKeyPEM caKey]> (files w));
        stdout := stdout w ++ [GeneratedCA];
        calls := calls w
                 ++ [CallCertOrKeyExist kubeadmconstants.CACertAndKeyBaseName;
                     CallNewCertificateAuthority;
                     CallWriteCertAndKey kubeadmconstants.CACertAndKeyBaseName
                       caCert caKey] |}).
Proof.
  intros Habsent Hnew Hkey Hcrt. unfold caCertAndKey. unfold_monad.
  rewrite CertOrKeyExist_absent by done.
  unfold pkiutil.NewCertificateAuthority. rewrite Hnew.
  rewrite WriteCertAndKey_done by done.
  f_equal. apply world_eq; simpl; [done | done | by rewrite <- !app_assoc].
Qed.

Lemma apiServerCertAndKey_generated pkiDir caCert caKey altNames w apiCert apiKey :
  absentPair w pkiDir kubeadmconstants.APIServerCertAndKeyBaseName →
  NewCertAndKey_ caCert caKey
    {| certutil.CommonName := "kube-apiserver";
       certutil.AltNames_ := altNames;
       certutil.Usages := [x509.ExtKeyUsageServerAuth] |}
  = Ok (apiCert, apiKey) →
  unwritable (pkiDir, kubeadmconstants.APIServerCertAndKeyBaseName +:+ ".key") = false →
  unwritable (pkiDir, kubeadmconstants.APIServerCertAndKeyBaseName +:+ ".crt") = false →
  apiServerCertAndKey pkiDir caCert caKey altNames w
  = (inr tt,
     {| files :=
          <[(pkiDir, kubeadmconstants.APIServerCertAndKeyBaseName +:+ ".crt")
            := EncodeCertPEM apiCert]>
            (<[(pkiDir, kubeadmconstants.APIServerCertAndKeyBaseName +:+ ".key")
               := EncodePrivateKeyPEM apiKey]> (files w));
        stdout := stdout w ++ [GeneratedAPIServer];
        calls := calls w
                 ++ [CallCertOrKeyExist kubeadmconstants.APIServerCertAndKeyBaseName;
                     CallNewCertAndKey caCert caKey
                       {| certutil.CommonName := "kube-apiserver";
                          certutil.AltNames_ := altNames;
                          certutil.Usages := [x509.ExtKeyUsageServerAuth] |};
                     CallWriteCertAndKey kubeadmconstants.APIServerCertAndKeyBaseName
                       apiCert apiKey] |}).
Proof.
  intros Habsent Hnew Hkey Hcrt. unfold apiServerCertAndKey. unfold_monad.
  rewrite CertOrKeyExist_absent by done.
  unfold pkiutil.NewCertAndKey. rewrite Hnew.
  rewrite WriteCertAndKey_done by done.
  f_equal. apply world_eq; simpl; [done | done | by rewrite <- !app_assoc].
Qed.

End Generation.





(** ** Every state of a pair, and the runs that fail while generating *)

Section Classification.
Context `{P : Platform}.

(** A pair is loadable, or there and not loadable, or absent. *)
Lemma pair_state (w : World) pkiDir name :
  (∃ cert key, holdsPair w pkiDir name cert key)
  ∨ (exactlyOneFile w pkiDir name ∨ unparsablePair w pkiDir name)
  ∨ absentPair w pkiDir name.
Proof.
  unfold holdsPair, exactlyOneFile, unparsablePair, absentPair.
  destruct (files w !! (pkiDir, name +:+ ".crt")) as [certData|] eqn:Hcrt;
    destruct (files w !! (pkiDir, name +:+ ".key")) as [keyData|] eqn:Hkey.
  - destruct (ParseCertPEM certData) as [cert|] eqn:Hcert.
    + destruct (ParsePrivateKeyPEM keyData) as [key|] eqn:Hpriv.
      * left. by exists cert, key, certData, keyData.
      * right. left. right. exists certData, keyData. auto.
    + right. left. right. exists certData, keyData. auto.
  - right. left. left. left. split; [by eexists | done].
  - right. left. left. right. split; [done | by eexists].
  - right. right. done.
Qed.

(** The three states exclude each other. *)
Lemma holdsPair_loadable (w : World) pkiDir name cert key :
  holdsPair w pkiDir name cert key →
  ¬ (exactlyOneFile w pkiDir name ∨ unparsablePair w pkiDir name)
  ∧ ¬ absentPair w pkiDir name.
Proof.
  intros (certData & keyData & Hcrt & Hcert & Hkey & Hpriv). split.
  - intros [[[_ Hnone] | [Hnone _]] | (c & k & Hc & Hk & Hbad)]; try congruence.
    rewrite Hcrt in Hc. rewrite Hkey in Hk. injection Hc as <-. injection Hk as <-.
    destruct Hbad; congruence.
  - intros [Hnone _]. congruence.
Qed.

Lemma holdsPair_unique (w : World) pkiDir name cert key cert' key' :
  holdsPair w pkiDir name cert key → holdsPair w pkiDir name cert' key' →
  cert = cert' ∧ key = key'.
Proof.
  intros (cd & kd & Hcrt & Hcert & Hkey & Hpriv) (cd' & kd' & Hcrt' & Hcert' & Hkey' & Hpriv').
  rewrite Hcrt in Hcrt'. rewrite Hkey in Hkey'.
  injection Hcrt' as <-. injection Hkey' as <-. split; congruence.
Qed.

Lemma caCertAndKey_generation_failed pkiDir w err :
  absentPair w pkiDir kubeadmconstants.CACertAndKeyBaseName →
  NewCertificateAuthority_ = Failed err →
  caCertAndKey pkiDir w
  = (inl (ErrGenerateCA err),
     called CallNewCertificateAuthority
       (called (CallCertOrKeyExist kubeadmconstants.CACertAndKeyBaseName) w)).
Proof.
  intros Habsent Hnew. unfold caCertAndKey. unfold_monad.
  rewrite CertOrKeyExist_absent by done.
  unfold pkiutil.NewCertificateAuthority. by rewrite Hnew.
Qed.

Lemma WriteCertAndKey_key_refused pkiDir name cert key w :
  unwritable (pkiDir, name +:+ ".key") = true →
  pkiutil.WriteCertAndKey pkiDir name cert key w
  = (Some "unable to write private key to file",
     called (CallWriteCertAndKey name cert key) w).
Proof. intros Hkey. unfold pkiutil.WriteCertAndKey. simpl. by rewrite Hkey. Qed.

Lemma WriteCertAndKey_cert_refused pkiDir name cert key w :
  unwritable (pkiDir, name +:+ ".key") = false →
  unwritable (pkiDir, name +:+ ".crt") = true →
  pkiutil.WriteCertAndKey pkiDir name cert key w
  = (Some "unable to write certificate to file",
     writeFile (pkiDir, name +:+ ".key") (EncodePrivateKeyPEM key)
       (called (CallWriteCertAndKey name cert key) w)).
Proof.
  intros Hkey Hcrt. unfold pkiutil.WriteCertAndKey. simpl. by rewrite Hkey, Hcrt.
Qed.

Lemma caCertAndKey_save_failed pkiDir w caCert caKey err w' :
  absentPair w pkiDir kubeadmconstants.CACertAndKeyBaseName →
  NewCertificateAuthority_ = Ok (caCert, caKey) →
  pkiutil.WriteCertAndKey pkiDir kubeadmconstants.CACertAndKeyBaseName caCert caKey
    (called CallNewCertificateAuthority
       (called (CallCertOrKeyExist kubeadmconstants.CACertAndKeyBaseName) w))
  = (Some err, w') →
  caCertAndKey pkiDir w = (inl (ErrSaveCA err), w').
Proof.
  intros Habsent Hnew Hwrite. unfold caCertAndKey. unfold_monad.
  rewrite CertOrKeyExist_absent by done.
  unfold pkiutil.NewCertificateAuthority. by rewrite Hnew, Hwrite.
Qed.

Lemma apiServerCertAndKey_generation_failed pkiDir caCert caKey altNames w err :
  absentPair w pkiDir kubeadmconstants.APIServerCertAndKeyBaseName →
  NewCertAndKey_ caCert caKey
    {| certutil.CommonName := "kube-apiserver";
       certutil.AltNames_ := altNames;
       certutil.Usages := [x509.ExtKeyUsageServerAuth] |}
  = Failed err →
  apiServerCertAndKey pkiDir caCert caKey altNames w
  = (inl (ErrCreateAPIServer err),
     called (CallNewCertAndKey caCert caKey
               {| certutil.CommonName := "kube-apiserver";
                  certutil.AltNames_ := altNames;
                  certutil.Usages := [x509.ExtKeyUsageServerAuth] |})
       (called (CallCertOrKeyExist kubeadmconstants.APIServerCertAndKeyBaseName) w)).
Proof.
  intros Habsent Hnew. unfold apiServerCertAndKey. unfold_monad.
  rewrite CertOrKeyExist_absent by done.
  unfold pkiutil.NewCertAndKey. by rewrite Hnew.
Qed.

Lemma apiServerCertAndKey_save_failed pkiDir caCert caKey altNames w apiCert apiKey err w' :
  absentPair w pkiDir kubeadmconstants.APIServerCertAndKeyBaseName →
  NewCertAndKey_ caCert caKey
    {| certutil.CommonName := "kube-apiserver";
       certutil.AltNames_ := altNames;
       certutil.Usages := [x509.ExtKeyUsageServerAuth] |}
  = Ok (apiCert, apiKey) →
  pkiutil.WriteCertAndKey pkiDir kubeadmconstants.APIServerCertAndKeyBaseName apiCert apiKey
    (called (CallNewCertAndKey caCert caKey
               {| certutil.CommonName := "kube-apiserver";
                  certutil.AltNames_ := altNames;
                  certutil.Usages := [x509.ExtKeyUsageServerAuth] |})
       (called (CallCertOrKeyExist kubeadmconstants.APIServerCertAndKeyBaseName) w))
  = (Some err, w') →
  apiServerCertAndKey pkiDir caCert caKey altNames w = (inl (ErrSaveAPIServer err), w').
Proof.
  intros Habsent Hnew Hwrite. unfold apiServerCertAndKey. unfold_monad.
  rewrite CertOrKeyExist_absent by done.
  unfold pkiutil.NewCertAndKey. by rewrite Hnew, Hwrite.
Qed.

End Classification.

Section StepCases.
Context `{P : Platform}.

(** The write to a pair either fails, at the key or at the certificate,
    or puts both files. *)
Lemma WriteCertAndKey_cases pkiDir name cert key w :
  (unwritable (pkiDir, name +:+ ".key") = true
   ∧ pkiutil.WriteCertAndKey pkiDir name cert key w
     = (Some "unable to write private key to file",
        called (CallWriteCertAndKey name cert key) w))
  ∨ (unwritable (pkiDir, name +:+ ".key") = false
     ∧ unwritable (pkiDir, name +:+ ".crt") = true
     ∧ pkiutil.WriteCertAndKey pkiDir name cert key w
       = (Some "unable to write certificate to file",
          writeFile (pkiDir, name +:+ ".key") (EncodePrivateKeyPEM key)
            (called (CallWriteCertAndKey name cert key) w)))
  ∨ (unwritable (pkiDir, name +:+ ".key") = false
     ∧ unwritable (pkiDir, name +:+ ".crt") = false).
Proof.
  destruct (unwritable (pkiDir, name +:+ ".key")) eqn:Hkey.
  - left. split; [done|]. by apply WriteCertAndKey_key_refused.
  - destruct (unwritable (pkiDir, name +:+ ".crt")) eqn:Hcrt.
    + right. left. split; [done|]. split; [done|]. by apply WriteCertAndKey_cert_refused.
    + right. right. done.
Qed.

(** The CA step does what [caStep] lists, and nothing else. *)
Lemma caCertAndKey_caStep pkiDir w r w' :
  caCertAndKey pkiDir w = (r, w') → caStep pkiDir w r w'.
Proof.
  intros Hrun.
  destruct (pair_state w pkiDir kubeadmconstants.CACertAndKeyBaseName)
    as [(caCert & caKey & Hpair) | [Hbad | Habsent]].
  - destruct (x509.IsCA caCert) eqn:HisCA.
    + rewrite (caCertAndKey_reused _ _ _ _ Hpair HisCA) in Hrun.
      injection Hrun as <- <-. by apply ca_reused.
    + rewrite (caCertAndKey_not_CA _ _ _ _ Hpair HisCA) in Hrun.
      injection Hrun as <- <-. by eapply ca_not_ca.
  - rewrite (caCertAndKey_not_loaded _ _ Hbad) in Hrun.
    injection Hrun as <- <-. by apply ca_not_loaded.
  - destruct NewCertificateAuthority_ as [[caCert caKey]|err] eqn:Hnew.
    + destruct (WriteCertAndKey_cases pkiDir kubeadmconstants.CACertAndKeyBaseName
                  caCert caKey
                  (called CallNewCertificateAuthority
                     (called (CallCertOrKeyExist kubeadmconstants.CACertAndKeyBaseName) w)))
        as [[Hkey Hwrite] | [(Hkey & Hcrt & Hwrite) | [Hkey Hcrt]]].
      * rewrite (caCertAndKey_save_failed _ _ _ _ _ _ Habsent Hnew Hwrite) in Hrun.
        injection Hrun as <- <-. by eapply ca_save_failed.
      * rewrite (caCertAndKey_save_failed _ _ _ _ _ _ Habsent Hnew Hwrite) in Hrun.
        injection Hrun as <- <-. by eapply ca_save_failed.
      * rewrite (caCertAndKey_generated _ _ _ _ Habsent Hnew Hkey Hcrt) in Hrun.
        injection Hrun as <- <-. by apply ca_generated.
    + rewrite (caCertAndKey_generation_failed _ _ _ Habsent Hnew) in Hrun.
      injection Hrun as <- <-. by apply ca_generation_failed.
Qed.

(** The API server step does what [apiStep] lists, and nothing else. *)
Lemma apiServerCertAndKey_apiStep pkiDir caCert caKey altNames w r w' :
  apiServerCertAndKey pkiDir caCert caKey altNames w = (r, w') →
  apiStep pkiDir caCert caKey altNames w r w'.
Proof.
  intros Hrun.
  destruct (pair_state w pkiDir kubeadmconstants.APIServerCertAndKeyBaseName)
    as [(apiCert & apiKey & Hpair) | [Hbad | Habsent]].
  - rewrite (apiServerCertAndKey_reused _ _ _ _ _ _ _ Hpair) in Hrun.
    injection Hrun as <- <-. by eapply api_reused.
  - rewrite (apiServerCertAndKey_not_loaded _ _ _ _ _ Hbad) in Hrun.
    injection Hrun as <- <-. by apply api_not_loaded.
  - destruct (NewCertAndKey_ caCert caKey (apiServerConfig altNames))
      as [[apiCert apiKey]|err] eqn:Hnew.
    + destruct (WriteCertAndKey_cases pkiDir kubeadmconstants.APIServerCertAndKeyBaseName
                  apiCert apiKey
                  (called (CallNewCertAndKey caCert caKey (apiServerConfig altNames))
                     (called (CallCertOrKeyExist
                                kubeadmconstants.APIServerCertAndKeyBaseName) w)))
        as [[Hkey Hwrite] | [(Hkey & Hcrt & Hwrite) | [Hkey Hcrt]]].
      * rewrite (apiServerCertAndKey_save_failed _ _ _ _ _ _ _ _ _ Habsent Hnew Hwrite)
          in Hrun.
        injection Hrun as <- <-. by eapply api_save_failed.
      * rewrite (apiServerCertAndKey_save_failed _ _ _ _ _ _ _ _ _ Habsent Hnew Hwrite)
          in Hrun.
        injection Hrun as <- <-. by eapply api_save_failed.
      * rewrite (apiServerCertAndKey_generated _ _ _ _ _ _ _ Habsent Hnew Hkey Hcrt)
          in Hrun.
        injection Hrun as <- <-. by eapply api_generated.
    + rewrite (apiServerCertAndKey_generation_failed _ _ _ _ _ _ Habsent Hnew) in Hrun.
      injection Hrun as <- <-. by apply api_generation_failed.
Qed.

End StepCases.

Section RunCases.
Context `{P : Platform}.

(** The run is the assembly, then the CA step, then the API server step,
    then the last line; it stops at the first of them that fails. *)
Lemma CreatePKIAssets_cases cfg pkiDir w r w' :
  CreatePKIAssets cfg pkiDir w = (r, w') →
  (∃ e, assembleAltNames cfg = inl e ∧ r = inl e ∧ w' = w)
  ∨ (∃ altNames e,
       assembleAltNames cfg = inr altNames
       ∧ caStep pkiDir w (inl e) w' ∧ r = inl e)
  ∨ (∃ altNames caCert caKey w1 e,
       assembleAltNames cfg = inr altNames
       ∧ caStep pkiDir w (inr (caCert, caKey)) w1
       ∧ apiStep pkiDir caCert caKey altNames w1 (inl e) w' ∧ r = inl e)
  ∨ (∃ altNames caCert caKey w1 w2,
       assembleAltNames cfg = inr altNames
       ∧ caStep pkiDir w (inr (caCert, caKey)) w1
       ∧ apiStep pkiDir caCert caKey altNames w1 (inr tt) w2
       ∧ r = inr tt ∧ w' = println (ValidCertsExist pkiDir) w2).
Proof.
  intros Hrun.
  destruct (assembleAltNames cfg) as [e|altNames] eqn:Halt.
  { rewrite (CreatePKIAssets_assembly_failed _ _ _ _ Halt) in Hrun.
    injection Hrun as <- <-. left. by exists e. }
  destruct (caCertAndKey pkiDir w) as [[e|[caCert caKey]] w1] eqn:Hca.
  { rewrite (CreatePKIAssets_ca_failed _ _ _ _ _ _ Halt Hca) in Hrun.
    injection Hrun as <- <-. right. left. exists altNames, e.
    split; [done|]. split; [by apply caCertAndKey_caStep | done]. }
  rewrite (CreatePKIAssets_steps _ _ _ _ _ _ _ Halt Hca) in Hrun.
  apply caCertAndKey_caStep in Hca.
  destruct (apiServerCertAndKey _ _ _ _ _) as [[e|[]] w2] eqn:Hapi;
    apply apiServerCertAndKey_apiStep in Hapi; injection Hrun as <- <-.
  - right. right. left. by exists altNames, caCert, caKey, w1, e.
  - right. right. right. by exists altNames, caCert, caKey, w1, w2.
Qed.

(** The run changes the four files of the two pairs at most. *)
Lemma CreatePKIAssets_frame cfg pkiDir w r w' path :
  CreatePKIAssets cfg pkiDir w = (r, w') →
  path ∉ pkiFiles pkiDir →
  files w' !! path = files w !! path.
Proof.
  intros Hrun Hother.
  assert (path ≠ (pkiDir, kubeadmconstants.CACertAndKeyBaseName +:+ ".crt")
          ∧ path ≠ (pkiDir, kubeadmconstants.CACertAndKeyBaseName +:+ ".key")
          ∧ path ≠ (pkiDir, kubeadmconstants.APIServerCertAndKeyBaseName +:+ ".crt")
          ∧ path ≠ (pkiDir, kubeadmconstants.APIServerCertAndKeyBaseName +:+ ".key"))
    as (Hcacrt & Hcakey & Hapicrt & Hapikey).
  { unfold pkiFiles in Hother. repeat split; intros ->; apply Hother.
    - by left.
    - right. by left.
    - do 2 right. by left.
    - do 3 right. by left. }
  destruct (assembleAltNames cfg) as [e|altNames] eqn:Halt.
  { rewrite (CreatePKIAssets_assembly_failed _ _ _ _ Halt) in Hrun.
    by injection Hrun as _ <-. }
  destruct (caCertAndKey pkiDir w) as [[e|[caCert caKey]] w1] eqn:Hca.
  { rewrite (CreatePKIAssets_ca_failed _ _ _ _ _ _ Halt Hca) in Hrun.
    injection Hrun as _ <-.
    destruct (caCertAndKey_frame _ _ _ _ Hca) as [-> | [_ Hframe]]; [done|].
    by apply Hframe. }
  rewrite (CreatePKIAssets_steps _ _ _ _ _ _ _ Halt Hca) in Hrun.
  assert (files w1 !! path = files w !! path) as Hfirst.
  { destruct (caCertAndKey_frame _ _ _ _ Hca) as [-> | [_ Hframe]]; [done|].
    by apply Hframe. }
  destruct (apiServerCertAndKey _ _ _ _ _) as [r2 w2] eqn:Hapi.
  assert (files w2 !! path = files w1 !! path) as Hsecond.
  { destruct (apiServerCertAndKey_frame _ _ _ _ _ _ _ Hapi) as [-> | [_ Hframe]]; [done|].
    by apply Hframe. }
  destruct r2 as [e|[]]; injection Hrun as _ <-; simpl; congruence.
Qed.

(** A CA step that succeeds leaves both CA files in the store. *)
Lemma caStep_success_files pkiDir w caCert caKey w1 :
  caStep pkiDir w (inr (caCert, caKey)) w1 →
  is_Some (files w1 !! (pkiDir, kubeadmconstants.CACertAndKeyBaseName +:+ ".crt"))
  ∧ is_Some (files w1 !! (pkiDir, kubeadmconstants.CACertAndKeyBaseName +:+ ".key")).
Proof.
  inversion 1 as [c k (certData & keyData & Hcrt & _ & Hkey & _) | | | | | c k]; subst; simpl.
  - by rewrite Hcrt, Hkey.
  - rewrite lookup_insert_eq, lookup_insert_ne, lookup_insert_eq; [done|].
    by intros [= Heq].
Qed.

(** An API server step that succeeds leaves both server files in the
    store. *)
Lemma apiStep_success_files pkiDir caCert caKey altNames w w2 :
  apiStep pkiDir caCert caKey altNames w (inr tt) w2 →
  is_Some (files w2 !! (pkiDir, kubeadmconstants.APIServerCertAndKeyBaseName +:+ ".crt"))
  ∧ is_Some (files w2 !! (pkiDir, kubeadmconstants.APIServerCertAndKeyBaseName +:+ ".key")).
Proof.
  inversion 1 as [c k (certData & keyData & Hcrt & _ & Hkey & _) | | | | c k]; subst; simpl.
  - by rewrite Hcrt, Hkey.
  - rewrite lookup_insert_eq, lookup_insert_ne, lookup_insert_eq; [done|].
    by intros [= Heq].
Qed.

End RunCases.

(** ** More of what a run does *)

(** X3.  Whatever a run returns, it changes no file but ca.crt, ca.key,
    apiserver.crt and apiserver.key of the PKI directory: any other path
    holds after the run what it held before, and a path that held nothing
    still holds nothing. *)
Theorem run_touches_only_pki_files `{P : Platform}
    (cfg : kubeadmapi.MasterConfiguration) (pkiDir : string) (w w' : World)
    (r : error + unit) (path : string * string) :
  CreatePKIAssets cfg pkiDir w = (r, w') →
  path ∉ pkiFiles pkiDir →
  files w' !! path = files w !! path.
Proof. apply CreatePKIAssets_frame. Qed.

(** X3 on the run of section 8 from a store with a file of the
    operator: it is kept, and nothing appears next to the directory. *)
Lemma run_touches_only_pki_files_witness :
  let P := scenario.platform [] in
  let w := @scenario.store P [("notes.txt", scenario.Junk "keep me")] in
  let run := @CreatePKIAssets P scenario.cfg scenario.pkiDir w in
  @files P (snd run) !! (scenario.pkiDir, "notes.txt") = Some (scenario.Junk "keep me")
  ∧ @files P (snd run) !! ("/etc/kubernetes", "ca.crt") = None.
Proof.
  cbv zeta.
  set (P := scenario.platform []).
  set (w := @scenario.store P [("notes.txt", scenario.Junk "keep me")]).
  split.
  - rewrite (@run_touches_only_pki_files P scenario.cfg scenario.pkiDir w _ _ _
               (surjective_pairing _)).
    + vm_compute. reflexivity.
    + intros Hin. repeat (apply elem_of_cons in Hin as [Hin|Hin]; [discriminate|]).
      inversion Hin.
  - rewrite (@run_touches_only_pki_files P scenario.cfg scenario.pkiDir w _ _ _
               (surjective_pairing _)).
    + vm_compute. reflexivity.
    + intros Hin. repeat (apply elem_of_cons in Hin as [Hin|Hin]; [discriminate|]).
      inversion Hin.
Defined.

(** X4.  When the run returns [nil], all four files are in the store:
    each pair was loaded from its two files or written to them, and the
    server step leaves the CA files. *)
Theorem success_leaves_all_four_files `{P : Platform}
    (cfg : kubeadmapi.MasterConfiguration) (pkiDir : string) (w w' : World) :
  CreatePKIAssets cfg pkiDir w = (inr tt, w') →
  ∀ path, path ∈ pkiFiles pkiDir → is_Some (files w' !! path).
Proof.
  intros Hrun path Hpath.
  destruct (CreatePKIAssets_success_inv _ _ _ _ Hrun)
    as (altNames & caCert & caKey & w1 & w2 & _ & Hca & Hapi & ->).
  destruct (apiServerCertAndKey_ca_files _ _ _ _ _ _ _ Hapi) as [Hcrt Hkey].
  destruct (caStep_success_files _ _ _ _ _ (caCertAndKey_caStep _ _ _ _ Hca))
    as [Hcacrt Hcakey].
  destruct (apiStep_success_files _ _ _ _ _ _ (apiServerCertAndKey_apiStep _ _ _ _ _ _ _ Hapi))
    as [Hapicrt Hapikey].
  unfold pkiFiles in Hpath. simpl.
  repeat (apply elem_of_cons in Hpath as [->|Hpath]); [..|inversion Hpath].
  - by rewrite Hcrt.
  - by rewrite Hkey.
  - done.
  - done.
Qed.

(** X4 on the run of section 8 from a store that holds the CA pair. *)
Lemma success_leaves_all_four_files_witness :
  let P := scenario.platform [] in
  let w := @scenario.store P [("ca.crt", scenario.CertificateBlock scenario.caCert);
                              ("ca.key", scenario.PrivateKeyBlock scenario.caKey)] in
  let run := @CreatePKIAssets P scenario.cfg scenario.pkiDir w in
  is_Some (@files P (snd run) !! (scenario.pkiDir, "ca.crt"))
  ∧ is_Some (@files P (snd run) !! (scenario.pkiDir, "ca.key"))
  ∧ is_Some (@files P (snd run) !! (scenario.pkiDir, "apiserver.crt"))
  ∧ is_Some (@files P (snd run) !! (scenario.pkiDir, "apiserver.key")).
Proof.
  cbv zeta.
  set (P := scenario.platform []).
  set (w := @scenario.store P _).
  assert (@CreatePKIAssets P scenario.cfg scenario.pkiDir w
          = (inr tt, snd (@CreatePKIAssets P scenario.cfg scenario.pkiDir w))) as Hrun
    by (apply from_fst; vm_compute; reflexivity).
  pose proof (@success_leaves_all_four_files P scenario.cfg scenario.pkiDir w _ Hrun)
    as Hall.
  repeat split; apply Hall; unfold pkiFiles; simpl.
  - left.
  - right. left.
  - do 2 right. left.
  - do 3 right. left.
Defined.

(** X5.  With no CA file in the store and a CA generator that fails,
    the run returns the generation error with the generator's message
    right after the probe and the call to the generator: nothing is
    written or printed, no file changes, and the server pair is neither
    probed nor generated. *)
Theorem ca_generation_failure_stops_run `{P : Platform}
    (cfg : kubeadmapi.MasterConfiguration) (pkiDir : string) (w : World)
    (altNames : certutil.AltNames) (err : string) :
  assembleAltNames cfg = inr altNames →
  absentPair w pkiDir kubeadmconstants.CACertAndKeyBaseName →
  NewCertificateAuthority_ = Failed err →
  CreatePKIAssets cfg pkiDir w
  = (inl (ErrGenerateCA err),
     {| files := files w;
        stdout := stdout w;
        calls := calls w
                 ++ [CallCertOrKeyExist kubeadmconstants.CACertAndKeyBaseName;
                     CallNewCertificateAuthority] |}).
Proof.
  intros Halt Habsent Hnew.
  rewrite (CreatePKIAssets_ca_failed _ _ _ _ _ _ Halt
             (caCertAndKey_generation_failed _ _ _ Habsent Hnew)).
  f_equal. apply world_eq; simpl; [done | done | by rewrite <- app_assoc].
Qed.

(** X5 on the empty store of a host without entropy. *)
Lemma ca_generation_failure_stops_run_witness :
  let P := scenario.noEntropy false in
  @CreatePKIAssets P scenario.cfg scenario.pkiDir (@scenario.store P [])
  = (inl (ErrGenerateCA "rand: no entropy"),
     {| files := @files P (@scenario.store P []);
        stdout := [];
        calls := [CallCertOrKeyExist "ca"; CallNewCertificateAuthority] |}).
Proof.
  cbv zeta.
  apply (@ca_generation_failure_stops_run (scenario.noEntropy false) scenario.cfg
           scenario.pkiDir (@scenario.store (scenario.noEntropy false) [])
           scenario.altNames "rand: no entropy").
  - reflexivity.
  - split; vm_compute; reflexivity.
  - reflexivity.
Defined.

Section SaveFailures.
Context `{P : Platform}.

(** A write that fails has put the key at most, and never the
    certificate. *)
Lemma WriteCertAndKey_failed pkiDir name cert key w err w' :
  pkiutil.WriteCertAndKey pkiDir name cert key w = (Some err, w') →
  stdout w' = stdout w
  ∧ calls w' = calls w ++ [CallWriteCertAndKey name cert key]
  ∧ files w' !! (pkiDir, name +:+ ".crt") = files w !! (pkiDir, name +:+ ".crt")
  ∧ (∀ path, path ≠ (pkiDir, name +:+ ".key") → files w' !! path = files w !! path)
  ∧ ((unwritable (pkiDir, name +:+ ".key") = true ∧ files w' = files w)
     ∨ (unwritable (pkiDir, name +:+ ".key") = false
        ∧ unwritable (pkiDir, name +:+ ".crt") = true
        ∧ files w' = <[(pkiDir, name +:+ ".key") := EncodePrivateKeyPEM key]> (files w))).
Proof.
  destruct (WriteCertAndKey_cases pkiDir name cert key w)
    as [[Hkey ->] | [(Hkey & Hcrt & ->) | [Hkey Hcrt]]].
  - intros [= _ <-]. simpl. repeat split; try done. by left.
  - intros [= _ <-]. simpl. repeat split; try done.
    + apply lookup_insert_ne. intros [= Heq]. by apply append_same_head in Heq.
    + intros path Hpath. by apply lookup_insert_ne.
    + by right.
  - by rewrite WriteCertAndKey_done.
Qed.

End SaveFailures.

(** What a CA save that fails leaves. *)
Lemma CreatePKIAssets_ca_save_failed `{P : Platform}
    (cfg : kubeadmapi.MasterConfiguration) (pkiDir : string) (w : World)
    (altNames : certutil.AltNames) (caCert : x509.Certificate) (caKey : rsa.PrivateKey) :
  assembleAltNames cfg = inr altNames →
  absentPair w pkiDir kubeadmconstants.CACertAndKeyBaseName →
  NewCertificateAuthority_ = Ok (caCert, caKey) →
  unwritable (pkiDir, kubeadmconstants.CACertAndKeyBaseName +:+ ".key") = true
  ∨ unwritable (pkiDir, kubeadmconstants.CACertAndKeyBaseName +:+ ".crt") = true →
  ∃ err w',
    CreatePKIAssets cfg pkiDir w = (inl (ErrSaveCA err), w')
    ∧ stdout w' = stdout w
    ∧ calls w'
      = calls w
        ++ [CallCertOrKeyExist kubeadmconstants.CACertAndKeyBaseName;
            CallNewCertificateAuthority;
            CallWriteCertAndKey kubeadmconstants.CACertAndKeyBaseName caCert caKey]
    ∧ files w' !! (pkiDir, kubeadmconstants.CACertAndKeyBaseName +:+ ".crt") = None
    ∧ (∀ path,
         path ≠ (pkiDir, kubeadmconstants.CACertAndKeyBaseName +:+ ".key") →
         files w' !! path = files w !! path)
    ∧ files w' !! (pkiDir, kubeadmconstants.CACertAndKeyBaseName +:+ ".key")
      = if unwritable (pkiDir, kubeadmconstants.CACertAndKeyBaseName +:+ ".key")
        then None else Some (EncodePrivateKeyPEM caKey).
Proof.
  intros Halt Habsent Hnew Hrefused.
  set (w0 := called CallNewCertificateAuthority
               (called (CallCertOrKeyExist kubeadmconstants.CACertAndKeyBaseName) w)).
  destruct (pkiutil.WriteCertAndKey pkiDir kubeadmconstants.CACertAndKeyBaseName
              caCert caKey w0) as [[err|] w'] eqn:Hwrite.
  - exists err, w'.
    rewrite (CreatePKIAssets_ca_failed _ _ _ _ _ _ Halt
               (caCertAndKey_save_failed _ _ _ _ _ _ Habsent Hnew Hwrite)).
    destruct (WriteCertAndKey_failed _ _ _ _ _ _ _ Hwrite)
      as (Hout & Hcalls & Hcrt & Hframe & Hkey).
    destruct Habsent as [Hnocrt Hnokey].
    split; [done|]. split; [done|]. split; [|split; [|split]].
    + rewrite Hcalls. simpl. by rewrite <- !app_assoc.
    + by rewrite Hcrt.
    + exact Hframe.
    + destruct Hkey as [[-> ->] | (-> & _ & ->)]; simpl.
      * exact Hnokey.
      * apply lookup_insert_eq.
  - destruct (WriteCertAndKey_cases pkiDir kubeadmconstants.CACertAndKeyBaseName
                caCert caKey w0) as [[_ Heq] | [(_ & _ & Heq) | [Hkey Hcrt]]].
    + by rewrite Heq in Hwrite.
    + by rewrite Heq in Hwrite.
    + destruct Hrefused; congruence.
Qed.

(** X6.  With no CA file in the store, a CA generator that succeeds and a
    store that refuses the key or the certificate, the run returns the
    save error right after the write: nothing is printed, the server pair
    is neither probed nor generated, ca.crt is still missing, and no file
    but ca.key can have changed; ca.key holds the new key exactly when
    its write was accepted. *)
Theorem ca_save_failure_stops_run `{P : Platform}
    (cfg : kubeadmapi.MasterConfiguration) (pkiDir : string) (w : World)
    (altNames : certutil.AltNames) (caCert : x509.Certificate) (caKey : rsa.PrivateKey) :
  assembleAltNames cfg = inr altNames →
  absentPair w pkiDir kubeadmconstants.CACertAndKeyBaseName →
  NewCertificateAuthority_ = Ok (caCert, caKey) →
  unwritable (pkiDir, kubeadmconstants.CACertAndKeyBaseName +:+ ".key") = true
  ∨ unwritable (pkiDir, kubeadmconstants.CACertAndKeyBaseName +:+ ".crt") = true →
  ∃ err w',
    CreatePKIAssets cfg pkiDir w = (inl (ErrSaveCA err), w')
    ∧ stdout w' = stdout w
    ∧ calls w'
      = calls w
        ++ [CallCertOrKeyExist kubeadmconstants.CACertAndKeyBaseName;
            CallNewCertificateAuthority;
            CallWriteCertAndKey kubeadmconstants.CACertAndKeyBaseName caCert caKey]
    ∧ files w' !! (pkiDir, kubeadmconstants.CACertAndKeyBaseName +:+ ".crt") = None
    ∧ (∀ path,
         path ≠ (pkiDir, kubeadmconstants.CACertAndKeyBaseName +:+ ".key") →
         files w' !! path = files w !! path)
    ∧ files w' !! (pkiDir, kubeadmconstants.CACertAndKeyBaseName +:+ ".key")
      = if unwritable (pkiDir, kubeadmconstants.CACertAndKeyBaseName +:+ ".key")
        then None else Some (EncodePrivateKeyPEM caKey).
Proof. apply CreatePKIAssets_ca_save_failed. Qed.

(** X6 on the empty store of a host that refuses ca.crt: the key is
    written, the certificate is not. *)
Lemma ca_save_failure_stops_run_witness :
  let P := scenario.platform [(scenario.pkiDir, "ca.crt")] in
  let run := @CreatePKIAssets P scenario.cfg scenario.pkiDir (@scenario.store P []) in
  (∃ err, fst run = inl (ErrSaveCA err))
  ∧ @files P (snd run) !! (scenario.pkiDir, "ca.crt") = None
  ∧ @files P (snd run) !! (scenario.pkiDir, "ca.key")
    = Some (scenario.PrivateKeyBlock scenario.caKey)
  ∧ @files P (snd run) !! (scenario.pkiDir, "apiserver.key") = None.
Proof.
  cbv zeta.
  destruct (@ca_save_failure_stops_run
              (scenario.platform [(scenario.pkiDir, "ca.crt")]) scenario.cfg
              scenario.pkiDir
              (@scenario.store (scenario.platform [(scenario.pkiDir, "ca.crt")]) [])
              scenario.altNames scenario.caCert scenario.caKey)
    as (err & w' & -> & _ & _ & Hcrt & Hframe & Hkey).
  - reflexivity.
  - split; vm_compute; reflexivity.
  - reflexivity.
  - right. vm_compute. reflexivity.
  - simpl. split; [by exists err|]. split; [exact Hcrt|]. split; [exact Hkey|].
    rewrite Hframe; [vm_compute; reflexivity | discriminate].
Defined.

(** X7.  A CA save that fails after the key was written leaves a lone
    ca.key, and a lone key is never repaired: the run that follows, with
    any configuration whose names assemble, fails with the
    could-not-be-loaded error and changes no file. *)
Theorem lone_ca_key_blocks_later_runs `{P : Platform}
    (cfg cfg' : kubeadmapi.MasterConfiguration) (pkiDir : string) (w w1 : World)
    (altNames altNames' : certutil.AltNames)
    (caCert : x509.Certificate) (caKey : rsa.PrivateKey) (r : error + unit) :
  assembleAltNames cfg = inr altNames →
  absentPair w pkiDir kubeadmconstants.CACertAndKeyBaseName →
  NewCertificateAuthority_ = Ok (caCert, caKey) →
  unwritable (pkiDir, kubeadmconstants.CACertAndKeyBaseName +:+ ".key") = false →
  unwritable (pkiDir, kubeadmconstants.CACertAndKeyBaseName +:+ ".crt") = true →
  CreatePKIAssets cfg pkiDir w = (r, w1) →
  assembleAltNames cfg' = inr altNames' →
  (∃ err, r = inl (ErrSaveCA err))
  ∧ exactlyOneFile w1 pkiDir kubeadmconstants.CACertAndKeyBaseName
  ∧ fst (CreatePKIAssets cfg' pkiDir w1) = inl ErrCouldNotLoad
  ∧ files (snd (CreatePKIAssets cfg' pkiDir w1)) = files w1.
Proof.
  intros Halt Habsent Hnew Hkeyok Hcrtbad Hrun Halt'.
  destruct (CreatePKIAssets_ca_save_failed cfg pkiDir w altNames caCert caKey
              Halt Habsent Hnew (or_intror Hcrtbad))
    as (err & w' & Hfailed & _ & _ & Hcrt & _ & Hkey).
  rewrite Hfailed in Hrun. injection Hrun as <- <-.
  rewrite Hkeyok in Hkey.
  assert (exactlyOneFile w' pkiDir kubeadmconstants.CACertAndKeyBaseName) as Hlone.
  { right. split; [exact Hcrt | by rewrite Hkey]. }
  split; [by exists err|]. split; [exact Hlone|].
  rewrite (CreatePKIAssets_ca_failed _ _ _ _ _ _ Halt'
             (caCertAndKey_not_loaded _ _ (or_introl Hlone))).
  done.
Qed.

(** X7 on the empty store of a host that refuses ca.crt, run twice. *)
Lemma lone_ca_key_blocks_later_runs_witness :
  let P := scenario.platform [(scenario.pkiDir, "ca.crt")] in
  let first := @CreatePKIAssets P scenario.cfg scenario.pkiDir (@scenario.store P []) in
  let second := @CreatePKIAssets P scenario.cfg scenario.pkiDir (snd first) in
  (∃ err, fst first = inl (ErrSaveCA err))
  ∧ fst second = inl ErrCouldNotLoad
  ∧ @files P (snd second) = @files P (snd first).
Proof.
  cbv zeta.
  set (P := scenario.platform [(scenario.pkiDir, "ca.crt")]).
  destruct (@lone_ca_key_blocks_later_runs P scenario.cfg scenario.cfg scenario.pkiDir
              (@scenario.store P [])
              (snd (@CreatePKIAssets P scenario.cfg scenario.pkiDir (@scenario.store P [])))
              scenario.altNames scenario.altNames scenario.caCert scenario.caKey
              (fst (@CreatePKIAssets P scenario.cfg scenario.pkiDir (@scenario.store P []))))
    as (Hfirst & _ & Hsecond & Hfiles).
  - reflexivity.
  - split; vm_compute; reflexivity.
  - reflexivity.
  - vm_compute. reflexivity.
  - vm_compute. reflexivity.
  - apply surjective_pairing.
  - reflexivity.
  - split; [exact Hfirst|]. split; [exact Hsecond | exact Hfiles].
Defined.

(** X8.  When the CA step succeeded, no server file is in the store and
    the generator of the server pair fails, the run returns the creation
    error with the generator's message: the one request made is for the
    assembled names under the CA of the CA step, nothing is written after
    the CA step and the last line is not printed. *)
Theorem server_generation_failure_keeps_ca `{P : Platform}
    (cfg : kubeadmapi.MasterConfiguration) (pkiDir : string) (w w1 : World)
    (altNames : certutil.AltNames) (caCert : x509.Certificate) (caKey : rsa.PrivateKey)
    (err : string) :
  assembleAltNames cfg = inr altNames →
  caCertAndKey pkiDir w = (inr (caCert, caKey), w1) →
  absentPair w pkiDir kubeadmconstants.APIServerCertAndKeyBaseName →
  NewCertAndKey_ caCert caKey (apiServerConfig altNames) = Failed err →
  CreatePKIAssets cfg pkiDir w
  = (inl (ErrCreateAPIServer err),
     {| files := files w1;
        stdout := stdout w1;
        calls := calls w1
                 ++ [CallCertOrKeyExist kubeadmconstants.APIServerCertAndKeyBaseName;
                     CallNewCertAndKey caCert caKey (apiServerConfig altNames)] |}).
Proof.
  intros Halt Hca Habsent Hnew.
  rewrite (CreatePKIAssets_steps _ _ _ _ _ _ _ Halt Hca).
  destruct (caCertAndKey_api_files _ _ _ _ Hca) as [Hcrt Hkey].
  rewrite (apiServerCertAndKey_generation_failed _ _ _ _ _ err
             (absentPair_files w w1 _ _ Hcrt Hkey Habsent) Hnew).
  f_equal. apply world_eq; simpl; [done | done | by rewrite <- app_assoc].
Qed.

(** X8 on the empty store of a host that generates a CA and then runs
    out of entropy: the CA pair stays in the store. *)
Lemma server_generation_failure_keeps_ca_witness :
  let P := scenario.noEntropy true in
  let run := @CreatePKIAssets P scenario.cfg scenario.pkiDir (@scenario.store P []) in
  fst run = inl (ErrCreateAPIServer "rand: no entropy")
  ∧ @stdout P (snd run) = [GeneratedCA]
  ∧ @files P (snd run) !! (scenario.pkiDir, "ca.crt")
    = Some (scenario.CertificateBlock scenario.caCert)
  ∧ @files P (snd run) !! (scenario.pkiDir, "apiserver.key") = None.
Proof.
  cbv zeta.
  set (P := scenario.noEntropy true).
  rewrite (@server_generation_failure_keeps_ca P scenario.cfg scenario.pkiDir
             (@scenario.store P [])
             (snd (@caCertAndKey P scenario.pkiDir (@scenario.store P [])))
             scenario.altNames scenario.caCert scenario.caKey "rand: no entropy").
  - repeat split.
  - reflexivity.
  - apply from_fst. vm_compute. reflexivity.
  - split; vm_compute; reflexivity.
  - reflexivity.
Defined.

(** What a server save that fails leaves. *)
Lemma CreatePKIAssets_api_save_failed `{P : Platform}
    (cfg : kubeadmapi.MasterConfiguration) (pkiDir : string) (w w1 : World)
    (altNames : certutil.AltNames) (caCert : x509.Certificate) (caKey : rsa.PrivateKey)
    (apiCert : x509.Certificate) (apiKey : rsa.PrivateKey) :
  assembleAltNames cfg = inr altNames →
  caCertAndKey pkiDir w = (inr (caCert, caKey), w1) →
  absentPair w pkiDir kubeadmconstants.APIServerCertAndKeyBaseName →
  NewCertAndKey_ caCert caKey (apiServerConfig altNames) = Ok (apiCert, apiKey) →
  unwritable (pkiDir, kubeadmconstants.APIServerCertAndKeyBaseName +:+ ".key") = true
  ∨ unwritable (pkiDir, kubeadmconstants.APIServerCertAndKeyBaseName +:+ ".crt") = true →
  ∃ err w',
    CreatePKIAssets cfg pkiDir w = (inl (ErrSaveAPIServer err), w')
    ∧ stdout w' = stdout w1
    ∧ calls w'
      = calls w1
        ++ [CallCertOrKeyExist kubeadmconstants.APIServerCertAndKeyBaseName;
            CallNewCertAndKey caCert caKey (apiServerConfig altNames);
            CallWriteCertAndKey kubeadmconstants.APIServerCertAndKeyBaseName
              apiCert apiKey]
    ∧ files w' !! (pkiDir, kubeadmconstants.APIServerCertAndKeyBaseName +:+ ".crt") = None
    ∧ (∀ path,
         path ≠ (pkiDir, kubeadmconstants.APIServerCertAndKeyBaseName +:+ ".key") →
         files w' !! path = files w1 !! path)
    ∧ files w' !! (pkiDir, kubeadmconstants.APIServerCertAndKeyBaseName +:+ ".key")
      = if unwritable (pkiDir, kubeadmconstants.APIServerCertAndKeyBaseName +:+ ".key")
        then None else Some (EncodePrivateKeyPEM apiKey).
Proof.
  intros Halt Hca Habsent Hnew Hrefused.
  destruct (caCertAndKey_api_files _ _ _ _ Hca) as [Hsamecrt Hsamekey].
  pose proof (absentPair_files w w1 _ _ Hsamecrt Hsamekey Habsent) as Habsent1.
  set (w0 := called (CallNewCertAndKey caCert caKey (apiServerConfig altNames))
               (called (CallCertOrKeyExist kubeadmconstants.APIServerCertAndKeyBaseName)
                  w1)).
  destruct (pkiutil.WriteCertAndKey pkiDir kubeadmconstants.APIServerCertAndKeyBaseName
              apiCert apiKey w0) as [[err|] w'] eqn:Hwrite.
  - exists err, w'.
    rewrite (CreatePKIAssets_steps _ _ _ _ _ _ _ Halt Hca).
    rewrite (apiServerCertAndKey_save_failed _ _ _ _ _ _ _ _ _ Habsent1 Hnew Hwrite).
    destruct (WriteCertAndKey_failed _ _ _ _ _ _ _ Hwrite)
      as (Hout & Hcalls & Hcrt & Hframe & Hkey).
    destruct Habsent1 as [Hnocrt Hnokey].
    split; [done|]. split; [done|]. split; [|split; [|split]].
    + rewrite Hcalls. simpl. by rewrite <- !app_assoc.
    + by rewrite Hcrt.
    + exact Hframe.
    + destruct Hkey as [[-> ->] | (-> & _ & ->)]; simpl.
      * exact Hnokey.
      * apply lookup_insert_eq.
  - destruct (WriteCertAndKey_cases pkiDir kubeadmconstants.APIServerCertAndKeyBaseName
                apiCert apiKey w0) as [[_ Heq] | [(_ & _ & Heq) | [Hkey Hcrt]]].
    + by rewrite Heq in Hwrite.
    + by rewrite Heq in Hwrite.
    + destruct Hrefused; congruence.
Qed.

(** X9.  When the CA step succeeded, no server file is in the store, the
    server pair was generated and the store refuses its key or its
    certificate, the run returns the save error: the last line is not
    printed, apiserver.crt is still missing, and no file but
    apiserver.key differs from what the CA step left, so a CA pair the
    run wrote stays (there is no rollback). *)
Theorem server_save_failure_keeps_ca `{P : Platform}
    (cfg : kubeadmapi.MasterConfiguration) (pkiDir : string) (w w1 : World)
    (altNames : certutil.AltNames) (caCert : x509.Certificate) (caKey : rsa.PrivateKey)
    (apiCert : x509.Certificate) (apiKey : rsa.PrivateKey) :
  assembleAltNames cfg = inr altNames →
  caCertAndKey pkiDir w = (inr (caCert, caKey), w1) →
  absentPair w pkiDir kubeadmconstants.APIServerCertAndKeyBaseName →
  NewCertAndKey_ caCert caKey (apiServerConfig altNames) = Ok (apiCert, apiKey) →
  unwritable (pkiDir, kubeadmconstants.APIServerCertAndKeyBaseName +:+ ".key") = true
  ∨ unwritable (pkiDir, kubeadmconstants.APIServerCertAndKeyBaseName +:+ ".crt") = true →
  ∃ err w',
    CreatePKIAssets cfg pkiDir w = (inl (ErrSaveAPIServer err), w')
    ∧ stdout w' = stdout w1
    ∧ calls w'
      = calls w1
        ++ [CallCertOrKeyExist kubeadmconstants.APIServerCertAndKeyBaseName;
            CallNewCertAndKey caCert caKey (apiServerConfig altNames);
            CallWriteCertAndKey kubeadmconstants.APIServerCertAndKeyBaseName
              apiCert apiKey]
    ∧ files w' !! (pkiDir, kubeadmconstants.APIServerCertAndKeyBaseName +:+ ".crt") = None
    ∧ (∀ path,
         path ≠ (pkiDir, kubeadmconstants.APIServerCertAndKeyBaseName +:+ ".key") →
         files w' !! path = files w1 !! path)
    ∧ files w' !! (pkiDir, kubeadmconstants.APIServerCertAndKeyBaseName +:+ ".key")
      = if unwritable (pkiDir, kubeadmconstants.APIServerCertAndKeyBaseName +:+ ".key")
        then None else Some (EncodePrivateKeyPEM apiKey).
Proof. apply CreatePKIAssets_api_save_failed. Qed.

(** X9 on the empty store of a host that refuses apiserver.key: the CA
    pair is written, no server file is. *)
Lemma server_save_failure_keeps_ca_witness :
  let P := scenario.platform [(scenario.pkiDir, "apiserver.key")] in
  let run := @CreatePKIAssets P scenario.cfg scenario.pkiDir (@scenario.store P []) in
  (∃ err, fst run = inl (ErrSaveAPIServer err))
  ∧ @files P (snd run) !! (scenario.pkiDir, "apiserver.crt") = None
  ∧ @files P (snd run) !! (scenario.pkiDir, "apiserver.key") = None
  ∧ @files P (snd run) !! (scenario.pkiDir, "ca.crt")
    = Some (scenario.CertificateBlock scenario.caCert).
Proof.
  cbv zeta.
  set (P := scenario.platform [(scenario.pkiDir, "apiserver.key")]).
  destruct (@server_save_failure_keeps_ca P scenario.cfg scenario.pkiDir
              (@scenario.store P [])
              (snd (@caCertAndKey P scenario.pkiDir (@scenario.store P [])))
              scenario.altNames scenario.caCert scenario.caKey
              scenario.apiCert scenario.leafKey)
    as (err & w' & -> & _ & _ & Hcrt & Hframe & Hkey).
  - reflexivity.
  - apply from_fst. vm_compute. reflexivity.
  - split; vm_compute; reflexivity.
  - reflexivity.
  - left. vm_compute. reflexivity.
  - simpl. split; [by exists err|]. split; [exact Hcrt|]. split; [exact Hkey|].
    rewrite Hframe; [vm_compute; reflexivity | discriminate].
Defined.

(** ** What an error says, and what a run asks of the store *)

(** Closes a goal about membership in a list given in full: each
    element is tried, the ones of another constructor are discarded. *)
Ltac intros_elem :=
  match goal with
  | |- _ ∉ _ => let H := fresh "Hin" in intros H; intros_elem
  | H : _ ∈ _ :: _ |- _ =>
      apply elem_of_cons in H as [H|H];
      [try discriminate H; try (injection H as -> -> ->); try done | intros_elem]
  | H : _ ∈ [] |- _ => by apply elem_of_nil in H
  | |- _ → _ => let H := fresh "Hin" in intros H; intros_elem
  end.

Section Traces.
Context `{P : Platform}.

Lemma parseAdvertiseAddresses_inl addresses acc e :
  parseAdvertiseAddresses addresses acc = inl e →
  ∃ a, e = ErrParseIP a ∧ a ∈ addresses ∧ net_ParseIP a = None.
Proof.
  revert acc. induction addresses as [|a addresses IH]; intros acc; simpl; [done|].
  destruct (net_ParseIP a) as [ip|] eqn:Ha.
  - intros Hrest. destruct (IH _ Hrest) as (b & -> & Hb & Hbad).
    exists b. split; [done|]. split; [by right | done].
  - intros [= <-]. exists a. split; [done|]. split; [by left | done].
Qed.

(** The CA step leaves the two server files. *)
Lemma caStep_api_files pkiDir w r w1 :
  caStep pkiDir w r w1 →
  files w1 !! (pkiDir, kubeadmconstants.APIServerCertAndKeyBaseName +:+ ".crt")
  = files w !! (pkiDir, kubeadmconstants.APIServerCertAndKeyBaseName +:+ ".crt")
  ∧ files w1 !! (pkiDir, kubeadmconstants.APIServerCertAndKeyBaseName +:+ ".key")
    = files w !! (pkiDir, kubeadmconstants.APIServerCertAndKeyBaseName +:+ ".key").
Proof.
  inversion 1 as [| | | | c k err w' _ _ Hwrite |]; subst; simpl; try done.
  - pose proof (WriteCertAndKey_frame _ _ _ _ _ _ _ Hwrite) as Hframe.
    split; by rewrite Hframe.
  - split; by rewrite !lookup_insert_ne.
Qed.

(** Where the pair of a CA step that succeeded comes from. *)
Lemma caStep_success_origin pkiDir w caCert caKey w1 :
  caStep pkiDir w (inr (caCert, caKey)) w1 →
  (holdsPair w pkiDir kubeadmconstants.CACertAndKeyBaseName caCert caKey
   ∧ caCert.(x509.IsCA) = true)
  ∨ (absentPair w pkiDir kubeadmconstants.CACertAndKeyBaseName
     ∧ NewCertificateAuthority_ = Ok (caCert, caKey)
     ∧ unwritable (pkiDir, kubeadmconstants.CACertAndKeyBaseName +:+ ".key") = false
     ∧ unwritable (pkiDir, kubeadmconstants.CACertAndKeyBaseName +:+ ".crt") = false).
Proof. inversion 1; subst; [by left | by right]. Qed.

(** The calls of the CA step: no request for a server pair, and a write
    only of a CA pair that was absent. *)
Lemma caStep_calls pkiDir w r w1 :
  caStep pkiDir w r w1 →
  ∃ made,
    calls w1 = calls w ++ made
    ∧ (∀ caCert caKey config, CallNewCertAndKey caCert caKey config ∉ made)
    ∧ (∀ name cert key,
         CallWriteCertAndKey name cert key ∈ made →
         name = kubeadmconstants.CACertAndKeyBaseName
         ∧ absentPair w pkiDir kubeadmconstants.CACertAndKeyBaseName
         ∧ NewCertificateAuthority_ = Ok (cert, key)).
Proof.
  inversion 1 as [| | | | c k err w' Habsent Hnew Hwrite | c k Habsent Hnew]; subst; simpl.
  - eexists [_; _]. split; [by rewrite <- app_assoc|].
    split; intros; intros_elem.
  - eexists [_; _]. split; [by rewrite <- app_assoc|].
    split; intros; intros_elem.
  - eexists [_; _]. split; [by rewrite <- app_assoc|].
    split; intros; intros_elem.
  - eexists [_; _]. split; [by rewrite <- app_assoc|].
    split; intros; intros_elem.
  - destruct (WriteCertAndKey_failed _ _ _ _ _ _ _ Hwrite) as (_ & -> & _).
    eexists [_; _; _]. simpl. split; [by rewrite <- !app_assoc|].
    split; intros; intros_elem.
  - eexists. split; [done|]. split; intros; intros_elem.
Qed.

End Traces.

Section RunTraces.
Context `{P : Platform}.

(** The calls of the API server step: a request only for the names and
    the CA it was given, and a write only of a server pair that was
    absent. *)
Lemma apiStep_calls pkiDir caCert caKey altNames w r w2 :
  apiStep pkiDir caCert caKey altNames w r w2 →
  ∃ made,
    calls w2 = calls w ++ made
    ∧ (∀ signer signerKey config,
         CallNewCertAndKey signer signerKey config ∈ made →
         signer = caCert ∧ signerKey = caKey ∧ config = apiServerConfig altNames
         ∧ absentPair w pkiDir kubeadmconstants.APIServerCertAndKeyBaseName)
    ∧ (∀ name cert key,
         CallWriteCertAndKey name cert key ∈ made →
         name = kubeadmconstants.APIServerCertAndKeyBaseName
         ∧ absentPair w pkiDir kubeadmconstants.APIServerCertAndKeyBaseName
         ∧ NewCertAndKey_ caCert caKey (apiServerConfig altNames) = Ok (cert, key)).
Proof.
  inversion 1 as [| | | c k err w' Habsent Hnew Hwrite | c k Habsent Hnew]; subst; simpl.
  - eexists [_; _]. split; [by rewrite <- app_assoc|].
    split; intros; intros_elem.
  - eexists [_; _]. split; [by rewrite <- app_assoc|].
    split; intros; intros_elem.
  - eexists [_; _]. split; [by rewrite <- app_assoc|].
    split; intros; intros_elem.
  - destruct (WriteCertAndKey_failed _ _ _ _ _ _ _ Hwrite) as (_ & -> & _).
    eexists [_; _; _]. simpl. split; [by rewrite <- !app_assoc|].
    split; intros; intros_elem.
  - eexists. split; [done|]. split; intros; intros_elem.
Qed.

End RunTraces.

Section Causes.
Context `{P : Platform}.

Lemma assembleAltNames_inl cfg e :
  assembleAltNames cfg = inl e →
  match e with
  | ErrHostname err => os_Hostname = Failed err
  | ErrParseIP a =>
      a ∈ cfg.(kubeadmapi.API_).(kubeadmapi.AdvertiseAddresses) ∧ net_ParseIP a = None
  | ErrParseCIDR subnet err =>
      subnet = cfg.(kubeadmapi.Networking_).(kubeadmapi.ServiceSubnet)
      ∧ net_ParseCIDR subnet = Failed err
  | ErrAllocateIP subnet err =>
      subnet = cfg.(kubeadmapi.Networking_).(kubeadmapi.ServiceSubnet)
      ∧ ∃ first n, net_ParseCIDR subnet = Ok (first, n)
                   ∧ ipallocator.GetIndexedIP n 1 = Failed err
  | _ => False
  end.
Proof.
  unfold assembleAltNames.
  destruct os_Hostname as [hostname|err] eqn:Hhost; [|by intros [= <-]].
  destruct (parseAdvertiseAddresses _ _) as [e'|ips] eqn:Hparse.
  { intros [= <-]. by destruct (parseAdvertiseAddresses_inl _ _ _ Hparse) as (a & -> & Ha). }
  destruct (net_ParseCIDR _) as [[first n]|err] eqn:Hcidr; [|by intros [= <-]].
  destruct (ipallocator.GetIndexedIP n 1) as [vip|err] eqn:Hvip; [done|].
  intros [= <-]. split; [done|]. by exists first, n.
Qed.

(** What the error of a CA step says about the store it started from. *)
Lemma caStep_error_cause pkiDir w e w1 :
  caStep pkiDir w (inl e) w1 →
  match e with
  | ErrCouldNotLoad =>
      exactlyOneFile w pkiDir kubeadmconstants.CACertAndKeyBaseName
      ∨ unparsablePair w pkiDir kubeadmconstants.CACertAndKeyBaseName
  | ErrNotCA =>
      ∃ caCert caKey,
        holdsPair w pkiDir kubeadmconstants.CACertAndKeyBaseName caCert caKey
        ∧ caCert.(x509.IsCA) = false
  | ErrGenerateCA err =>
      absentPair w pkiDir kubeadmconstants.CACertAndKeyBaseName
      ∧ NewCertificateAuthority_ = Failed err
  | ErrSaveCA _ =>
      absentPair w pkiDir kubeadmconstants.CACertAndKeyBaseName
      ∧ (unwritable (pkiDir, kubeadmconstants.CACertAndKeyBaseName +:+ ".key") = true
         ∨ unwritable (pkiDir, kubeadmconstants.CACertAndKeyBaseName +:+ ".crt") = true)
  | _ => False
  end.
Proof.
  inversion 1 as [| c k Hpair HnotCA | | | c k err w' Habsent Hnew Hwrite |]; subst.
  - by exists c, k.
  - done.
  - done.
  - split; [done|].
    destruct (WriteCertAndKey_failed _ _ _ _ _ _ _ Hwrite)
      as (_ & _ & _ & _ & [[Hkey _] | (_ & Hcrt & _)]); auto.
Qed.

(** What the error of an API server step says about the store it started
    from. *)
Lemma apiStep_error_cause pkiDir caCert caKey altNames w e w2 :
  apiStep pkiDir caCert caKey altNames w (inl e) w2 →
  match e with
  | ErrCouldNotLoad =>
      exactlyOneFile w pkiDir kubeadmconstants.APIServerCertAndKeyBaseName
      ∨ unparsablePair w pkiDir kubeadmconstants.APIServerCertAndKeyBaseName
  | ErrCreateAPIServer err =>
      absentPair w pkiDir kubeadmconstants.APIServerCertAndKeyBaseName
      ∧ NewCertAndKey_ caCert caKey (apiServerConfig altNames) = Failed err
  | ErrSaveAPIServer _ =>
      absentPair w pkiDir kubeadmconstants.APIServerCertAndKeyBaseName
      ∧ (unwritable (pkiDir, kubeadmconstants.APIServerCertAndKeyBaseName +:+ ".key")
         = true
         ∨ unwritable (pkiDir, kubeadmconstants.APIServerCertAndKeyBaseName +:+ ".crt")
           = true)
  | _ => False
  end.
Proof.
  inversion 1 as [| | | c k err w' Habsent Hnew Hwrite |]; subst.
  - done.
  - done.
  - split; [done|].
    destruct (WriteCertAndKey_failed _ _ _ _ _ _ _ Hwrite)
      as (_ & _ & _ & _ & [[Hkey _] | (_ & Hcrt & _)]); auto.
Qed.

(** Every error of a run, with what it says about the configuration, the
    host and the store the run started from. *)
Lemma CreatePKIAssets_error_cause cfg pkiDir w e w' :
  CreatePKIAssets cfg pkiDir w = (inl e, w') →
  match e with
  | ErrHostname err => os_Hostname = Failed err
  | ErrParseIP a =>
      a ∈ cfg.(kubeadmapi.API_).(kubeadmapi.AdvertiseAddresses) ∧ net_ParseIP a = None
  | ErrParseCIDR subnet err =>
      subnet = cfg.(kubeadmapi.Networking_).(kubeadmapi.ServiceSubnet)
      ∧ net_ParseCIDR subnet = Failed err
  | ErrAllocateIP subnet err =>
      subnet = cfg.(kubeadmapi.Networking_).(kubeadmapi.ServiceSubnet)
      ∧ ∃ first n, net_ParseCIDR subnet = Ok (first, n)
                   ∧ ipallocator.GetIndexedIP n 1 = Failed err
  | ErrCouldNotLoad =>
      (exactlyOneFile w pkiDir kubeadmconstants.CACertAndKeyBaseName
       ∨ unparsablePair w pkiDir kubeadmconstants.CACertAndKeyBaseName)
      ∨ (exactlyOneFile w pkiDir kubeadmconstants.APIServerCertAndKeyBaseName
         ∨ unparsablePair w pkiDir kubeadmconstants.APIServerCertAndKeyBaseName)
  | ErrNotCA =>
      ∃ caCert caKey,
        holdsPair w pkiDir kubeadmconstants.CACertAndKeyBaseName caCert caKey
        ∧ caCert.(x509.IsCA) = false
  | ErrGenerateCA err =>
      absentPair w pkiDir kubeadmconstants.CACertAndKeyBaseName
      ∧ NewCertificateAuthority_ = Failed err
  | ErrSaveCA _ =>
      absentPair w pkiDir kubeadmconstants.CACertAndKeyBaseName
      ∧ (unwritable (pkiDir, kubeadmconstants.CACertAndKeyBaseName +:+ ".key") = true
         ∨ unwritable (pkiDir, kubeadmconstants.CACertAndKeyBaseName +:+ ".crt") = true)
  | ErrCreateAPIServer err =>
      absentPair w pkiDir kubeadmconstants.APIServerCertAndKeyBaseName
      ∧ ∃ caCert caKey altNames,
          assembleAltNames cfg = inr altNames
          ∧ NewCertAndKey_ caCert caKey (apiServerConfig altNames) = Failed err
  | ErrSaveAPIServer _ =>
      absentPair w pkiDir kubeadmconstants.APIServerCertAndKeyBaseName
      ∧ (unwritable (pkiDir, kubeadmconstants.APIServerCertAndKeyBaseName +:+ ".key")
         = true
         ∨ unwritable (pkiDir, kubeadmconstants.APIServerCertAndKeyBaseName +:+ ".crt")
           = true)
  end.
Proof.
  intros Hrun.
  destruct (CreatePKIAssets_cases _ _ _ _ _ Hrun)
    as [(e' & Halt & [= <-] & _)
       | [(altNames & e' & Halt & Hca & [= <-])
         | [(altNames & caCert & caKey & w1 & e' & Halt & Hca & Hapi & [= <-])
           | (altNames & caCert & caKey & w1 & w2 & _ & _ & _ & [=] & _)]]].
  - pose proof (assembleAltNames_inl _ _ Halt) as Hcause. by destruct e.
  - pose proof (caStep_error_cause _ _ _ _ Hca) as Hcause.
    destruct e; try done. by left.
  - pose proof (apiStep_error_cause _ _ _ _ _ _ _ Hapi) as Hcause.
    destruct (caStep_api_files _ _ _ _ Hca) as [Hcrt Hkey].
    destruct e; try done.
    + right. by apply (not_loadable_files w1 w).
    + destruct Hcause as [Habsent Hnew]. split.
      * by apply (absentPair_files w1 w).
      * by exists caCert, caKey, altNames.
    + destruct Hcause as [Habsent Hrefused]. split; [|done].
      by apply (absentPair_files w1 w).
Qed.

End Causes.

Section RunCalls.
Context `{P : Platform}.

(** The calls a run adds: a request for a server pair only for the
    assembled names, with no server file in the store, under a CA that was
    loaded with its CA bit or generated and saved; a write only of a pair
    that was absent when the run started. *)
Lemma CreatePKIAssets_calls cfg pkiDir w r w' :
  CreatePKIAssets cfg pkiDir w = (r, w') →
  ∃ made,
    calls w' = calls w ++ made
    ∧ (∀ signer signerKey config,
         CallNewCertAndKey signer signerKey config ∈ made →
         (∃ altNames,
            assembleAltNames cfg = inr altNames ∧ config = apiServerConfig altNames)
         ∧ absentPair w pkiDir kubeadmconstants.APIServerCertAndKeyBaseName
         ∧ ((holdsPair w pkiDir kubeadmconstants.CACertAndKeyBaseName signer signerKey
             ∧ signer.(x509.IsCA) = true)
            ∨ (absentPair w pkiDir kubeadmconstants.CACertAndKeyBaseName
               ∧ NewCertificateAuthority_ = Ok (signer, signerKey)
               ∧ unwritable (pkiDir, kubeadmconstants.CACertAndKeyBaseName +:+ ".key")
                 = false
               ∧ unwritable (pkiDir, kubeadmconstants.CACertAndKeyBaseName +:+ ".crt")
                 = false)))
    ∧ (∀ name cert key,
         CallWriteCertAndKey name cert key ∈ made →
         (name = kubeadmconstants.CACertAndKeyBaseName
          ∨ name = kubeadmconstants.APIServerCertAndKeyBaseName)
         ∧ absentPair w pkiDir name).
Proof.
  intros Hrun.
  destruct (CreatePKIAssets_cases _ _ _ _ _ Hrun)
    as [(e & _ & _ & ->)
       | [(altNames & e & Halt & Hca & _)
         | [(altNames & caCert & caKey & w1 & e & Halt & Hca & Hapi & _)
           | (altNames & caCert & caKey & w1 & w2 & Halt & Hca & Hapi & _ & ->)]]].
  - exists []. split; [by rewrite app_nil_r|].
    split; intros; intros_elem.
  - destruct (caStep_calls _ _ _ _ Hca) as (made & Hcalls & Hnone & Hwrites).
    exists made. split; [done|]. split.
    + intros signer signerKey config Hin. by destruct (Hnone _ _ _ Hin).
    + intros name cert key Hin. destruct (Hwrites _ _ _ Hin) as (-> & Habsent & _).
      split; [by left | done].
  - destruct (caStep_calls _ _ _ _ Hca) as (made1 & Hcalls1 & Hnone & Hwrites1).
    destruct (apiStep_calls _ _ _ _ _ _ _ Hapi) as (made2 & Hcalls2 & Hreq & Hwrites2).
    destruct (caStep_api_files _ _ _ _ Hca) as [Hcrt Hkey].
    exists (made1 ++ made2). split; [by rewrite Hcalls2, Hcalls1, app_assoc|]. split.
    + intros signer signerKey config Hin. apply elem_of_app in Hin as [Hin|Hin].
      { by destruct (Hnone _ _ _ Hin). }
      destruct (Hreq _ _ _ Hin) as (-> & -> & -> & Habsent).
      split; [by exists altNames|]. split; [by apply (absentPair_files w1 w)|].
      by apply (caStep_success_origin _ _ _ _ w1).
    + intros name cert key Hin. apply elem_of_app in Hin as [Hin|Hin].
      * destruct (Hwrites1 _ _ _ Hin) as (-> & Habsent & _). split; [by left | done].
      * destruct (Hwrites2 _ _ _ Hin) as (-> & Habsent & _).
        split; [by right | by apply (absentPair_files w1 w)].
  - destruct (caStep_calls _ _ _ _ Hca) as (made1 & Hcalls1 & Hnone & Hwrites1).
    destruct (apiStep_calls _ _ _ _ _ _ _ Hapi) as (made2 & Hcalls2 & Hreq & Hwrites2).
    destruct (caStep_api_files _ _ _ _ Hca) as [Hcrt Hkey].
    exists (made1 ++ made2). simpl.
    split; [by rewrite Hcalls2, Hcalls1, app_assoc|]. split.
    + intros signer signerKey config Hin. apply elem_of_app in Hin as [Hin|Hin].
      { by destruct (Hnone _ _ _ Hin). }
      destruct (Hreq _ _ _ Hin) as (-> & -> & -> & Habsent).
      split; [by exists altNames|]. split; [by apply (absentPair_files w1 w)|].
      by apply (caStep_success_origin _ _ _ _ w1).
    + intros name cert key Hin. apply elem_of_app in Hin as [Hin|Hin].
      * destruct (Hwrites1 _ _ _ Hin) as (-> & Habsent & _). split; [by left | done].
      * destruct (Hwrites2 _ _ _ Hin) as (-> & Habsent & _).
        split; [by right | by apply (absentPair_files w1 w)].
Qed.

End RunCalls.

(** X10.  Every error a run returns says what was wrong where the run
    started: an assembly error names the host, the advertised address or
    the service subnet that failed; the could-not-be-loaded error means
    that the CA pair or the server pair is there and does not load; the
    not-a-CA error means that the stored CA pair loads and has its CA bit
    unset; a generation or save error means that the pair was absent and
    the generator failed, or one of its two paths refused the write. *)
Theorem every_error_names_its_cause `{P : Platform}
    (cfg : kubeadmapi.MasterConfiguration) (pkiDir : string) (w w' : World) (e : error) :
  CreatePKIAssets cfg pkiDir w = (inl e, w') →
  match e with
  | ErrHostname err => os_Hostname = Failed err
  | ErrParseIP a =>
      a ∈ cfg.(kubeadmapi.API_).(kubeadmapi.AdvertiseAddresses) ∧ net_ParseIP a = None
  | ErrParseCIDR subnet err =>
      subnet = cfg.(kubeadmapi.Networking_).(kubeadmapi.ServiceSubnet)
      ∧ net_ParseCIDR subnet = Failed err
  | ErrAllocateIP subnet err =>
      subnet = cfg.(kubeadmapi.Networking_).(kubeadmapi.ServiceSubnet)
      ∧ ∃ first n, net_ParseCIDR subnet = Ok (first, n)
                   ∧ ipallocator.GetIndexedIP n 1 = Failed err
  | ErrCouldNotLoad =>
      (exactlyOneFile w pkiDir kubeadmconstants.CACertAndKeyBaseName
       ∨ unparsablePair w pkiDir kubeadmconstants.CACertAndKeyBaseName)
      ∨ (exactlyOneFile w pkiDir kubeadmconstants.APIServerCertAndKeyBaseName
         ∨ unparsablePair w pkiDir kubeadmconstants.APIServerCertAndKeyBaseName)
  | ErrNotCA =>
      ∃ caCert caKey,
        holdsPair w pkiDir kubeadmconstants.CACertAndKeyBaseName caCert caKey
        ∧ caCert.(x509.IsCA) = false
  | ErrGenerateCA err =>
      absentPair w pkiDir kubeadmconstants.CACertAndKeyBaseName
      ∧ NewCertificateAuthority_ = Failed err
  | ErrSaveCA _ =>
      absentPair w pkiDir kubeadmconstants.CACertAndKeyBaseName
      ∧ (unwritable (pkiDir, kubeadmconstants.CACertAndKeyBaseName +:+ ".key") = true
         ∨ unwritable (pkiDir, kubeadmconstants.CACertAndKeyBaseName +:+ ".crt") = true)
  | ErrCreateAPIServer err =>
      absentPair w pkiDir kubeadmconstants.APIServerCertAndKeyBaseName
      ∧ ∃ caCert caKey altNames,
          assembleAltNames cfg = inr altNames
          ∧ NewCertAndKey_ caCert caKey (apiServerConfig altNames) = Failed err
  | ErrSaveAPIServer _ =>
      absentPair w pkiDir kubeadmconstants.APIServerCertAndKeyBaseName
      ∧ (unwritable (pkiDir, kubeadmconstants.APIServerCertAndKeyBaseName +:+ ".key")
         = true
         ∨ unwritable (pkiDir, kubeadmconstants.APIServerCertAndKeyBaseName +:+ ".crt")
           = true)
  end.
Proof. apply CreatePKIAssets_error_cause. Qed.

(** X10 on a store whose apiserver.key is junk, next to a valid CA pair:
    the could-not-be-loaded error points at one of the two pairs. *)
Lemma every_error_names_its_cause_witness :
  let P := scenario.platform [] in
  let w := @scenario.store P
             [("ca.crt", scenario.CertificateBlock scenario.caCert);
              ("ca.key", scenario.PrivateKeyBlock scenario.caKey);
              ("apiserver.crt", scenario.CertificateBlock scenario.apiCert);
              ("apiserver.key", scenario.Junk "-----BEGIN")] in
  (@exactlyOneFile P w scenario.pkiDir "ca" ∨ @unparsablePair P w scenario.pkiDir "ca")
  ∨ (@exactlyOneFile P w scenario.pkiDir "apiserver"
     ∨ @unparsablePair P w scenario.pkiDir "apiserver").
Proof.
  cbv zeta.
  set (P := scenario.platform []).
  set (w := @scenario.store P _).
  apply (@every_error_names_its_cause P scenario.cfg scenario.pkiDir w
           (snd (@CreatePKIAssets P scenario.cfg scenario.pkiDir w)) ErrCouldNotLoad).
  apply from_fst. vm_compute. reflexivity.
Defined.

(** X11.  A run asks for a server certificate only for the names it
    assembled, with the common name kube-apiserver and the server-auth
    usage, only when no server file was in the store, and only under a CA
    pair that it loaded with the CA bit set or that it generated and
    saved in this run. *)
Theorem server_is_signed_by_a_valid_ca `{P : Platform}
    (cfg : kubeadmapi.MasterConfiguration) (pkiDir : string) (w w' : World)
    (r : error + unit) :
  CreatePKIAssets cfg pkiDir w = (r, w') →
  ∃ made,
    calls w' = calls w ++ made
    ∧ ∀ signer signerKey config,
        CallNewCertAndKey signer signerKey config ∈ made →
        (∃ altNames,
           assembleAltNames cfg = inr altNames
           ∧ config = {| certutil.CommonName := "kube-apiserver";
                         certutil.AltNames_ := altNames;
                         certutil.Usages := [x509.ExtKeyUsageServerAuth] |})
        ∧ absentPair w pkiDir kubeadmconstants.APIServerCertAndKeyBaseName
        ∧ ((holdsPair w pkiDir kubeadmconstants.CACertAndKeyBaseName signer signerKey
            ∧ signer.(x509.IsCA) = true)
           ∨ (absentPair w pkiDir kubeadmconstants.CACertAndKeyBaseName
              ∧ NewCertificateAuthority_ = Ok (signer, signerKey)
              ∧ unwritable (pkiDir, kubeadmconstants.CACertAndKeyBaseName +:+ ".key")
                = false
              ∧ unwritable (pkiDir, kubeadmconstants.CACertAndKeyBaseName +:+ ".crt")
                = false)).
Proof.
  intros Hrun.
  destruct (CreatePKIAssets_calls _ _ _ _ _ Hrun) as (made & Hcalls & Hreq & _).
  exists made. split; [done|]. exact Hreq.
Qed.

(** X12.  A run never writes a pair that was in the store, not even in
    part: every write it makes is of the CA pair or of the server pair,
    and neither file of that pair was there when the run started. *)
Theorem writes_only_absent_pairs `{P : Platform}
    (cfg : kubeadmapi.MasterConfiguration) (pkiDir : string) (w w' : World)
    (r : error + unit) :
  CreatePKIAssets cfg pkiDir w = (r, w') →
  ∃ made,
    calls w' = calls w ++ made
    ∧ ∀ name cert key,
        CallWriteCertAndKey name cert key ∈ made →
        (name = kubeadmconstants.CACertAndKeyBaseName
         ∨ name = kubeadmconstants.APIServerCertAndKeyBaseName)
        ∧ absentPair w pkiDir name.
Proof.
  intros Hrun.
  destruct (CreatePKIAssets_calls _ _ _ _ _ Hrun) as (made & Hcalls & _ & Hwrites).
  exists made. split; [done|]. exact Hwrites.
Qed.

(** X11 on the run of section 8 from a store that holds the CA pair:
    every request is signed by the stored CA. *)
Lemma server_is_signed_by_a_valid_ca_witness :
  let P := scenario.platform [] in
  let w := @scenario.store P [("ca.crt", scenario.CertificateBlock scenario.caCert);
                              ("ca.key", scenario.PrivateKeyBlock scenario.caKey)] in
  let run := @CreatePKIAssets P scenario.cfg scenario.pkiDir w in
  ∃ made,
    @calls P (snd run) = @calls P w ++ made
    ∧ ∀ signer signerKey config,
        CallNewCertAndKey signer signerKey config ∈ made →
        @holdsPair P w scenario.pkiDir "ca" signer signerKey
        ∧ signer.(x509.IsCA) = true.
Proof.
  cbv zeta.
  set (P := scenario.platform []).
  set (w := @scenario.store P _).
  destruct (@server_is_signed_by_a_valid_ca P scenario.cfg scenario.pkiDir w _ _
              (surjective_pairing (@CreatePKIAssets P scenario.cfg scenario.pkiDir w)))
    as (made & Hcalls & Hreq).
  exists made. split; [exact Hcalls|].
  intros signer signerKey config Hin.
  destruct (Hreq _ _ _ Hin) as (_ & _ & [Hloaded | [[Hnocrt _] _]]); [exact Hloaded|].
  vm_compute in Hnocrt. discriminate Hnocrt.
Defined.

(** X12 on the same run: no write is of the CA pair, which was there. *)
Lemma writes_only_absent_pairs_witness :
  let P := scenario.platform [] in
  let w := @scenario.store P [("ca.crt", scenario.CertificateBlock scenario.caCert);
                              ("ca.key", scenario.PrivateKeyBlock scenario.caKey)] in
  let run := @CreatePKIAssets P scenario.cfg scenario.pkiDir w in
  ∃ made,
    @calls P (snd run) = @calls P w ++ made
    ∧ ∀ name cert key, CallWriteCertAndKey name cert key ∈ made → name = "apiserver".
Proof.
  cbv zeta.
  set (P := scenario.platform []).
  set (w := @scenario.store P _).
  destruct (@writes_only_absent_pairs P scenario.cfg scenario.pkiDir w _ _
              (surjective_pairing (@CreatePKIAssets P scenario.cfg scenario.pkiDir w)))
    as (made & Hcalls & Hwrites).
  exists made. split; [exact Hcalls|].
  intros name cert key Hin.
  destruct (Hwrites _ _ _ Hin) as [[-> | ->] [Hnocrt _]]; [|reflexivity].
  vm_compute in Hnocrt. discriminate Hnocrt.
Defined.

(** ** More on the coverage verifier *)

Lemma Equal_same_length (ip x : net.IP) :
  length ip = length x → net.Equal ip x = net.bytesEqual ip x.
Proof.
  intros Hlen. unfold net.Equal.
  by rewrite (bool_decide_true (length ip = length x)) by done.
Qed.

Lemma Equal_4_16 (ip x : net.IP) :
  length ip = 4%nat → length x = 16%nat →
  net.Equal ip x
  = net.bytesEqual (take 12 x) net.v4InV6Prefix && net.bytesEqual ip (drop 12 x).
Proof.
  intros Hip Hx. unfold net.Equal, net.IPv4len, net.IPv6len.
  rewrite bool_decide_false by lia.
  rewrite (bool_decide_true (length ip = 4%nat)) by done.
  by rewrite (bool_decide_true (length x = 16%nat)) by done.
Qed.

Lemma Equal_16_4 (ip x : net.IP) :
  length ip = 16%nat → length x = 4%nat →
  net.Equal ip x
  = net.bytesEqual (take 12 ip) net.v4InV6Prefix && net.bytesEqual (drop 12 ip) x.
Proof.
  intros Hip Hx. unfold net.Equal, net.IPv4len, net.IPv6len.
  rewrite bool_decide_false by lia.
  rewrite (bool_decide_false (length ip = 4%nat)) by lia.
  rewrite (bool_decide_true (length ip = 16%nat)) by done.
  by rewrite (bool_decide_true (length x = 4%nat)) by done.
Qed.

Lemma Equal_other_lengths (ip x : net.IP) :
  length ip ≠ length x →
  ¬ (length ip = 4%nat ∧ length x = 16%nat) →
  ¬ (length ip = 16%nat ∧ length x = 4%nat) →
  net.Equal ip x = false.
Proof.
  intros Hlen H416 H164. unfold net.Equal, net.IPv4len, net.IPv6len.
  rewrite bool_decide_false by done.
  destruct (bool_decide_reflect (length ip = 4%nat)) as [Hip|Hip];
    destruct (bool_decide_reflect (length x = 16%nat)) as [Hx|Hx];
    cbn [andb]; try (by destruct H416);
    destruct (bool_decide_reflect (length ip = 16%nat)) as [Hip'|Hip'];
    destruct (bool_decide_reflect (length x = 4%nat)) as [Hx'|Hx'];
    cbn [andb]; try done; by destruct H164.
Qed.

Lemma length_v4InV6 (l : list Z) :
  length (net.v4InV6Prefix ++ l) = (12 + length l)%nat.
Proof. by rewrite length_app. Qed.

(** [net.Equal] says: the same bytes, or an IPv4 address and its
    16-byte form. *)
Lemma Equal_true (ip x : net.IP) :
  net.Equal ip x = true
  ↔ ip = x
    ∨ (length ip = net.IPv4len ∧ x = net.v4InV6Prefix ++ ip)
    ∨ (length x = net.IPv4len ∧ ip = net.v4InV6Prefix ++ x).
Proof.
  unfold net.IPv4len. split.
  - intros Heq.
    destruct (decide (length ip = length x)) as [Hlen|Hlen].
    { rewrite Equal_same_length in Heq by done. left. by apply bytesEqual_true. }
    destruct (decide (length ip = 4%nat ∧ length x = 16%nat)) as [[Hip Hx]|H416].
    { rewrite Equal_4_16 in Heq by done.
      apply andb_true_iff in Heq as [Hprefix Hrest].
      apply bytesEqual_true in Hprefix, Hrest. right. left. split; [done|].
      rewrite <- (take_drop 12 x) at 1. by rewrite Hprefix, Hrest. }
    destruct (decide (length ip = 16%nat ∧ length x = 4%nat)) as [[Hip Hx]|H164].
    { rewrite Equal_16_4 in Heq by done.
      apply andb_true_iff in Heq as [Hprefix Hrest].
      apply bytesEqual_true in Hprefix, Hrest. right. right. split; [done|].
      rewrite <- (take_drop 12 ip) at 1. by rewrite Hprefix, Hrest. }
    by rewrite Equal_other_lengths in Heq.
  - intros [-> | [[Hip ->] | [Hx ->]]].
    + apply Equal_refl.
    + rewrite Equal_4_16; [| done | rewrite length_v4InV6; lia].
      apply andb_true_iff. split; by apply bytesEqual_true.
    + rewrite Equal_16_4; [| rewrite length_v4InV6; lia | done].
      apply andb_true_iff. split; by apply bytesEqual_true.
Qed.

Lemma Equal_sym (ip x : net.IP) : net.Equal ip x = true → net.Equal x ip = true.
Proof.
  rewrite !Equal_true. intros [-> | [H | H]]; [by left | by right; right | by right; left].
Qed.

Lemma Equal_trans (a b c : net.IP) :
  net.Equal a b = true → net.Equal b c = true → net.Equal a c = true.
Proof.
  unfold net.IPv4len. rewrite !Equal_true. unfold net.IPv4len.
  intros [-> | [[Ha ->] | [Hb ->]]]; [done | |].
  - intros [<- | [[Hlong _] | [Hc Heq]]].
    + right. by left.
    + rewrite length_v4InV6 in Hlong. lia.
    + apply app_inv_head in Heq as ->. by left.
  - intros [<- | [[_ ->] | [Hc ->]]].
    + right. by right.
    + by left.
    + rewrite length_v4InV6 in Hb. lia.
Qed.

(** Coverage looks at the members of the four lists only. *)
Lemma covers_same_members IPs IPs' DNSNames DNSNames' altNames altNames' :
  (∀ ip, ip ∈ IPs ↔ ip ∈ IPs') →
  (∀ d, d ∈ DNSNames ↔ d ∈ DNSNames') →
  (∀ d, d ∈ altNames.(certutil.DNSNames) ↔ d ∈ altNames'.(certutil.DNSNames)) →
  (∀ ip, ip ∈ altNames.(certutil.IPs) ↔ ip ∈ altNames'.(certutil.IPs)) →
  covers IPs DNSNames altNames → covers IPs' DNSNames' altNames'.
Proof.
  intros HI HD HaD HaI [Hdns Hips]. split.
  - intros d Hd. apply HD, Hdns, HaD, Hd.
  - intros wanted Hw. destruct (Hips wanted (proj2 (HaI wanted) Hw)) as (ip & Hip & Heq).
    exists ip. split; [by apply HI | done].
Qed.

Lemma bool_eq_of_iff (a b : bool) : (a = true ↔ b = true) → a = b.
Proof. destruct a, b; intros [H1 H2]; auto; symmetry; auto. Qed.

(** X13.  The answer of [checkAltNamesExist] depends only on which names
    and addresses each list holds, not on how often or in which order:
    lists with the same members give the same answer. *)
Theorem checkAltNamesExist_same_members
    (IPs IPs' : list net.IP) (DNSNames DNSNames' : list string)
    (altNames altNames' : certutil.AltNames) :
  (∀ ip, ip ∈ IPs ↔ ip ∈ IPs') →
  (∀ d, d ∈ DNSNames ↔ d ∈ DNSNames') →
  (∀ d, d ∈ altNames.(certutil.DNSNames) ↔ d ∈ altNames'.(certutil.DNSNames)) →
  (∀ ip, ip ∈ altNames.(certutil.IPs) ↔ ip ∈ altNames'.(certutil.IPs)) →
  checkAltNamesExist IPs DNSNames altNames = checkAltNamesExist IPs' DNSNames' altNames'.
Proof.
  intros HI HD HaD HaI. apply bool_eq_of_iff. rewrite !checkAltNamesExist_true. split.
  - by apply covers_same_members.
  - apply covers_same_members; intros x; symmetry; auto.
Qed.

(** X13 on a certificate that lists a name and an address twice. *)
Lemma checkAltNamesExist_same_members_witness :
  checkAltNamesExist [[10; 96; 0; 1]; [10; 96; 0; 1]] ["kubernetes"; "kubernetes"]
    {| certutil.DNSNames := ["kubernetes"]; certutil.IPs := [[10; 96; 0; 1]] |}
  = checkAltNamesExist [[10; 96; 0; 1]] ["kubernetes"]
      {| certutil.DNSNames := ["kubernetes"; "kubernetes"];
         certutil.IPs := [[10; 96; 0; 1]] |}.
Proof.
  apply checkAltNamesExist_same_members; intros x; simpl;
    rewrite ?elem_of_cons; tauto.
Defined.

(** X14.  Coverage is monotone: a certificate that covers what is
    required still covers it when it carries more names and addresses,
    and covers any part of what is required. *)
Theorem checkAltNamesExist_monotone
    (IPs IPs' : list net.IP) (DNSNames DNSNames' : list string)
    (altNames altNames' : certutil.AltNames) :
  checkAltNamesExist IPs DNSNames altNames = true →
  IPs ⊆ IPs' →
  DNSNames ⊆ DNSNames' →
  altNames'.(certutil.DNSNames) ⊆ altNames.(certutil.DNSNames) →
  altNames'.(certutil.IPs) ⊆ altNames.(certutil.IPs) →
  checkAltNamesExist IPs' DNSNames' altNames' = true.
Proof.
  rewrite !checkAltNamesExist_true. intros [Hdns Hips] HI HD HaD HaI. split.
  - intros d Hd. apply HD, Hdns, HaD, Hd.
  - intros wanted Hw. destruct (Hips wanted (HaI _ Hw)) as (ip & Hip & Heq).
    exists ip. split; [by apply HI | done].
Qed.

(** X14 on a certificate with one more name, asked for one name less. *)
Lemma checkAltNamesExist_monotone_witness :
  checkAltNamesExist [[10; 96; 0; 1]; [10; 0; 0; 5]] ["kubernetes"; "master-0"; "extra"]
    {| certutil.DNSNames := ["master-0"]; certutil.IPs := [[10; 96; 0; 1]] |}
  = true.
Proof.
  apply (checkAltNamesExist_monotone [[10; 96; 0; 1]] _ ["kubernetes"; "master-0"] _
           {| certutil.DNSNames := ["kubernetes"; "master-0"];
              certutil.IPs := [[10; 96; 0; 1]] |}).
  - reflexivity.
  - intros x. rewrite !elem_of_cons. tauto.
  - intros x. rewrite !elem_of_cons. tauto.
  - intros x. simpl. rewrite !elem_of_cons. tauto.
  - intros x. simpl. tauto.
Defined.

(** X15.  Coverage is transitive: if the names and addresses of [A]
    cover those of [B], and those of [B] cover those of [C], then those
    of [A] cover those of [C]; addresses are compared with [net.Equal],
    which is an equivalence. *)
Theorem Verify_transitive (A B C : certutil.AltNames) :
  Verify A B = true → Verify B C = true → Verify A C = true.
Proof.
  unfold Verify. rewrite !checkAltNamesExist_true.
  intros [HdnsAB HipsAB] [HdnsBC HipsBC]. split.
  - intros d Hd. auto.
  - intros wanted Hw.
    destruct (HipsBC wanted Hw) as (ipB & HipB & HeqB).
    destruct (HipsAB ipB HipB) as (ipA & HipA & HeqA).
    exists ipA. split; [done|]. by eapply Equal_trans.
Qed.

(** X15 through the two forms of an IPv4 address. *)
Lemma Verify_transitive_witness :
  Verify
    {| certutil.DNSNames := ["kubernetes"; "master-0"];
       certutil.IPs := [net.v4InV6Prefix ++ [10; 96; 0; 1]] |}
    {| certutil.DNSNames := []; certutil.IPs := [net.v4InV6Prefix ++ [10; 96; 0; 1]] |}
  = true.
Proof.
  apply (Verify_transitive _
           {| certutil.DNSNames := ["master-0"]; certutil.IPs := [[10; 96; 0; 1]] |}).
  - reflexivity.
  - reflexivity.
Defined.

(** X16.  Requirements add up: requiring two lists of names and two
    lists of addresses together is requiring each part. *)
Theorem checkAltNamesExist_app
    (IPs : list net.IP) (DNSNames : list string)
    (dns1 dns2 : list string) (ips1 ips2 : list net.IP) :
  checkAltNamesExist IPs DNSNames
    {| certutil.DNSNames := dns1 ++ dns2; certutil.IPs := ips1 ++ ips2 |}
  = checkAltNamesExist IPs DNSNames {| certutil.DNSNames := dns1; certutil.IPs := ips1 |}
    && checkAltNamesExist IPs DNSNames {| certutil.DNSNames := dns2; certutil.IPs := ips2 |}.
Proof.
  apply bool_eq_of_iff. rewrite andb_true_iff, !checkAltNamesExist_true.
  unfold covers. simpl. split.
  - intros [Hdns Hips]. split; split; intros x Hx.
    + apply Hdns, elem_of_app. by left.
    + apply Hips, elem_of_app. by left.
    + apply Hdns, elem_of_app. by right.
    + apply Hips, elem_of_app. by right.
  - intros [[Hdns1 Hips1] [Hdns2 Hips2]]. split; intros x Hx;
      apply elem_of_app in Hx as [Hx|Hx]; auto.
Qed.

(** X17.  An IPv4 address may be given in 4 bytes or in its 16-byte
    form, on the certificate or in the requirement: the answer is the
    same. *)
Theorem checkAltNamesExist_v4_forms
    (IPs : list net.IP) (DNSNames : list string) (dns : list string)
    (ips : list net.IP) (v4 : net.IP) :
  length v4 = net.IPv4len →
  checkAltNamesExist IPs DNSNames
    {| certutil.DNSNames := dns; certutil.IPs := v4 :: ips |}
  = checkAltNamesExist IPs DNSNames
      {| certutil.DNSNames := dns; certutil.IPs := (net.v4InV6Prefix ++ v4) :: ips |}
  ∧ checkAltNamesExist (v4 :: IPs) DNSNames
      {| certutil.DNSNames := dns; certutil.IPs := ips |}
    = checkAltNamesExist ((net.v4InV6Prefix ++ v4) :: IPs) DNSNames
        {| certutil.DNSNames := dns; certutil.IPs := ips |}.
Proof.
  intros Hv4.
  assert (net.Equal v4 (net.v4InV6Prefix ++ v4) = true) as Hforms.
  { apply Equal_true. right. by left. }
  pose proof (Equal_sym _ _ Hforms) as Hback.
  split; apply bool_eq_of_iff; rewrite !checkAltNamesExist_true; unfold covers; simpl.
  - split; intros [Hdns Hips]; (split; [done|]); intros wanted Hw;
      apply elem_of_cons in Hw as [->|Hw].
    + destruct (Hips v4) as (ip & Hip & Heq); [by left|].
      exists ip. split; [done|]. by eapply Equal_trans.
    + apply Hips. by right.
    + destruct (Hips (net.v4InV6Prefix ++ v4)) as (ip & Hip & Heq); [by left|].
      exists ip. split; [done|]. by eapply Equal_trans.
    + apply Hips. by right.
  - split; intros [Hdns Hips]; (split; [done|]); intros wanted Hw;
      destruct (Hips wanted Hw) as (ip & Hip & Heq);
      apply elem_of_cons in Hip as [->|Hip].
    + exists (net.v4InV6Prefix ++ v4). split; [by left|]. by eapply Equal_trans.
    + exists ip. split; [by right | done].
    + exists v4. split; [by left|]. by eapply Equal_trans.
    + exists ip. split; [by right | done].
Qed.

(** X17 on 10.0.0.5: the address as [net.ParseIP] gives it is covered by
    a certificate that holds its four bytes. *)
Lemma checkAltNamesExist_v4_forms_witness :
  checkAltNamesExist [[10; 0; 0; 5]] []
    {| certutil.DNSNames := []; certutil.IPs := [net.v4InV6Prefix ++ [10; 0; 0; 5]] |}
  = true.
Proof.
  destruct (checkAltNamesExist_v4_forms [[10; 0; 0; 5]] [] [] [] [10; 0; 0; 5] eq_refl)
    as [Hrequired _].
  etransitivity; [symmetry; exact Hrequired | reflexivity].
Defined.

(** ** What a run prints *)

Section Output.
Context `{P : Platform}.

(** The CA step prints one line when it succeeds, and none when it
    fails. *)
Lemma caStep_stdout pkiDir w r w1 :
  caStep pkiDir w r w1 →
  ∃ printed,
    stdout w1 = stdout w ++ printed
    ∧ match r with
      | inr _ => printed = [UsingExistingCA] ∨ printed = [GeneratedCA]
      | inl _ => printed = []
      end.
Proof.
  inversion 1 as [| | | | c k err w' _ _ Hwrite |]; subst; simpl.
  - exists [UsingExistingCA]. auto.
  - exists []. by rewrite app_nil_r.
  - exists []. by rewrite app_nil_r.
  - exists []. by rewrite app_nil_r.
  - destruct (WriteCertAndKey_failed _ _ _ _ _ _ _ Hwrite) as (-> & _).
    exists []. by rewrite app_nil_r.
  - exists [GeneratedCA]. auto.
Qed.

(** The API server step prints one line when it succeeds, and none when
    it fails. *)
Lemma apiStep_stdout pkiDir caCert caKey altNames w r w2 :
  apiStep pkiDir caCert caKey altNames w r w2 →
  ∃ printed,
    stdout w2 = stdout w ++ printed
    ∧ match r with
      | inr _ => printed = [UsingExistingAPIServer] ∨ printed = [GeneratedAPIServer]
      | inl _ => printed = []
      end.
Proof.
  inversion 1 as [| | | c k err w' _ _ Hwrite |]; subst; simpl.
  - exists [UsingExistingAPIServer]. auto.
  - exists []. by rewrite app_nil_r.
  - exists []. by rewrite app_nil_r.
  - destruct (WriteCertAndKey_failed _ _ _ _ _ _ _ Hwrite) as (-> & _).
    exists []. by rewrite app_nil_r.
  - exists [GeneratedAPIServer]. auto.
Qed.

End Output.

(** X18.  What a run prints tells how it went.  A run that returns [nil]
    prints exactly three lines: one for the CA pair (existing or
    generated), one for the server pair (existing or generated), and last
    the line that valid certificates and keys now exist in the directory.
    A run that fails never prints that last line: it prints nothing, or
    the line of the CA pair only. *)
Theorem run_reports_each_pair_once `{P : Platform}
    (cfg : kubeadmapi.MasterConfiguration) (pkiDir : string) (w w' : World)
    (r : error + unit) :
  CreatePKIAssets cfg pkiDir w = (r, w') →
  ∃ printed,
    stdout w' = stdout w ++ printed
    ∧ match r with
      | inr _ =>
          ∃ caLine apiLine caOutcome apiOutcome,
            printed = [caLine; apiLine; ValidCertsExist pkiDir]
            ∧ outcomeOf caLine = Some (CertificateAuthority, caOutcome)
            ∧ outcomeOf apiLine = Some (ServerLeaf, apiOutcome)
      | inl _ =>
          printed = []
          ∨ ∃ caLine caOutcome,
              printed = [caLine]
              ∧ outcomeOf caLine = Some (CertificateAuthority, caOutcome)
      end.
Proof.
  intros Hrun.
  destruct (CreatePKIAssets_cases _ _ _ _ _ Hrun)
    as [(e & _ & -> & ->)
       | [(altNames & e & _ & Hca & ->)
         | [(altNames & caCert & caKey & w1 & e & _ & Hca & Hapi & ->)
           | (altNames & caCert & caKey & w1 & w2 & _ & Hca & Hapi & -> & ->)]]].
  - exists []. split; [by rewrite app_nil_r | by left].
  - destruct (caStep_stdout _ _ _ _ Hca) as (printed & Hout & ->).
    exists []. split; [done | by left].
  - destruct (caStep_stdout _ _ _ _ Hca) as (printed1 & Hout1 & Hline).
    destruct (apiStep_stdout _ _ _ _ _ _ _ Hapi) as (printed2 & Hout2 & ->).
    exists printed1. split; [by rewrite Hout2, Hout1, app_nil_r|].
    right. destruct Hline as [-> | ->]; eexists _, _; by split.
  - destruct (caStep_stdout _ _ _ _ Hca) as (printed1 & Hout1 & Hline1).
    destruct (apiStep_stdout _ _ _ _ _ _ _ Hapi) as (printed2 & Hout2 & Hline2).
    exists (printed1 ++ printed2 ++ [ValidCertsExist pkiDir]). simpl.
    split; [by rewrite Hout2, Hout1, <- !app_assoc|].
    destruct Hline1 as [-> | ->], Hline2 as [-> | ->]; eexists _, _, _, _; by repeat split.
Qed.

(** X18 on the run of section 8 from a store that holds the CA pair. *)
Lemma run_reports_each_pair_once_witness :
  let P := scenario.platform [] in
  let w := @scenario.store P [("ca.crt", scenario.CertificateBlock scenario.caCert);
                              ("ca.key", scenario.PrivateKeyBlock scenario.caKey)] in
  ∃ printed,
    @stdout P (snd (@CreatePKIAssets P scenario.cfg scenario.pkiDir w))
    = @stdout P w ++ printed
    ∧ ∃ caLine apiLine caOutcome apiOutcome,
        printed = [caLine; apiLine; ValidCertsExist scenario.pkiDir]
        ∧ outcomeOf caLine = Some (CertificateAuthority, caOutcome)
        ∧ outcomeOf apiLine = Some (ServerLeaf, apiOutcome).
Proof.
  cbv zeta.
  set (P := scenario.platform []).
  set (w := @scenario.store P _).
  apply (@run_reports_each_pair_once P scenario.cfg scenario.pkiDir w
           (snd (@CreatePKIAssets P scenario.cfg scenario.pkiDir w)) (inr tt)).
  apply from_fst. vm_compute. reflexivity.
Defined.
